(** * The Indeed retrieval pipeline of JobSpy (jobspy/indeed/__init__.py)

    A shallow embedding of the class [Indeed]: the filter builder, the page
    retriever, the company-name fallback, the job normalizer and the
    pagination loop, followed by the properties of the pipeline.

    Python objects decoded from JSON are values of [pyval]; a method of
    [Indeed] is a function from the instance and the outside world to an
    outcome (a value or a raised exception) and the new instance and world.
    The set [seen_urls] is a [gset string]. *)

From Stdlib Require Import ZArith List String Ascii DecimalString Lia Bool.
From stdpp Require Import base gmap sets list strings.

Set Warnings "-register-all,-clear-no-such-hyp".

Open Scope string_scope.
Open Scope Z_scope.

(** ** Python values and their dynamic operations *)

Module Py.

(** What [json.loads] and [response.json()] produce. Numbers are integers:
    every number the pipeline computes with (the timestamp) is one. *)
Inductive pyval : Type :=
  | PNone
  | PBool (b : bool)
  | PInt (z : Z)
  | PStr (s : string)
  | PList (l : list pyval)
  | PDict (d : list (string * pyval)).

Inductive exn : Type :=
  | KeyError (k : string)
  | TypeError
  | AttributeError
  | ValueError
  | JSONDecodeError
  | ConnectionError
  | OverflowError
  | ZeroDivisionError
  | OSError
  | OtherError (msg : string).

(** The outcome of an expression that may raise. *)
Inductive res (A : Type) : Type :=
  | Ok (a : A)
  | Raise (e : exn).
Arguments Ok {A} a.
Arguments Raise {A} e.

Definition is_ok {A} (r : res A) : bool :=
  match r with Ok _ => true | Raise _ => false end.

Definition rbind {A B} (r : res A) (f : A -> res B) : res B :=
  match r with Ok a => f a | Raise e => Raise e end.

(** [bool(v)] *)
Definition truthy (v : pyval) : bool :=
  match v with
  | PNone => false
  | PBool b => b
  | PInt z => negb (Z.eqb z 0)
  | PStr s => negb (String.eqb s EmptyString)
  | PList l => match l with [] => false | _ => true end
  | PDict d => match d with [] => false | _ => true end
  end.

Fixpoint assoc (k : string) (d : list (string * pyval)) : option pyval :=
  match d with
  | [] => None
  | (k', v) :: d' => if String.eqb k k' then Some v else assoc k d'
  end.

(** [v[k]] with a string key: only a dict can be subscripted by a string. *)
Definition getitem (v : pyval) (k : string) : res pyval :=
  match v with
  | PDict d => match assoc k d with Some x => Ok x | None => Raise (KeyError k) end
  | _ => Raise TypeError
  end.

(** [v.get(k, default)]: only a dict has the method. *)
Definition get_default (v : pyval) (k : string) (default : pyval) : res pyval :=
  match v with
  | PDict d => match assoc k d with Some x => Ok x | None => Ok default end
  | _ => Raise AttributeError
  end.

(** [v.get(k)] *)
Definition get (v : pyval) (k : string) : res pyval := get_default v k PNone.

(** [v[0]] *)
Definition index0 (v : pyval) : res pyval :=
  match v with
  | PList (x :: _) => Ok x
  | PList [] => Raise (OtherError "IndexError")
  | PStr (String c _) => Ok (PStr (String c EmptyString))
  | PStr EmptyString => Raise (OtherError "IndexError")
  | PDict _ => Raise (KeyError "0")
  | _ => Raise TypeError
  end.

Fixpoint chars (s : string) : list pyval :=
  match s with
  | EmptyString => []
  | String c s' => PStr (String c EmptyString) :: chars s'
  end.

(** The items a [for] loop over [v] visits. *)
Definition iter (v : pyval) : res (list pyval) :=
  match v with
  | PList l => Ok l
  | PDict d => Ok (map (fun kv => PStr (fst kv)) d)
  | PStr s => Ok (chars s)
  | _ => Raise TypeError
  end.

(** [str(z)] for an [int]. *)
Definition str_of_int (z : Z) : string := NilEmpty.string_of_int (Z.to_int z).

Definition dq : string := String (ascii_of_nat 34) EmptyString.
Definition nl : string := String (ascii_of_nat 10) EmptyString.

Fixpoint spaces (n : nat) : string :=
  match n with O => EmptyString | S n' => String " " (spaces n') end.

(** [needle in hay] for two [str]. *)
Fixpoint starts_with (needle hay : string) : bool :=
  match needle, hay with
  | EmptyString, _ => true
  | String _ _, EmptyString => false
  | String a n', String b h' => Ascii.eqb a b && starts_with n' h'
  end.

Fixpoint contains (needle hay : string) : bool :=
  match hay with
  | EmptyString => starts_with needle EmptyString
  | String _ h' => starts_with needle hay || contains needle h'
  end.

(** [sep.join(l)] *)
Fixpoint join (sep : string) (l : list string) : string :=
  match l with
  | [] => EmptyString
  | [x] => x
  | x :: l' => x +:+ sep +:+ join sep l'
  end.

End Py.
Import Py.

(** ** Floating-point numbers *)

(** A finite [float] is a binary64 number; the model keeps its exact value
    [mant * 2 ^ expo]. The module divides two [int] (the page count of the
    progress line, the seconds of a timestamp) and then takes the ceiling
    or the whole seconds, so these are the operations modelled. *)
Module Float.

Record float : Type := { mant : Z; expo : Z }.

(** The integer nearest to [n / d], a tie going to the even one, for
    [0 <= n] and [0 < d]. *)
Definition round_half_even (n d : Z) : Z :=
  let q := n / d in
  let r := n mod d in
  if 2 * r <? d then q
  else if d <? 2 * r then q + 1
  else if Z.even q then q else q + 1.

(** The [k] with [2 ^ k <= n / d < 2 ^ (k + 1)], for positive [n] and [d]. *)
Definition ratio_log2 (n d : Z) : Z :=
  let k := Z.log2 n - Z.log2 d in
  if (if 0 <=? k then d * 2 ^ k <=? n else d <=? n * 2 ^ (- k)) then k else k - 1.

(** [a / b] for two [int]: the quotient rounded to the nearest binary64
    number (53 significant bits, or fewer below [2 ^ (-1022)]), a tie going
    to the even significand; [ZeroDivisionError] for a zero divisor and
    [OverflowError] when the rounded quotient is [2 ^ 1024] or more. *)
Definition truediv (a b : Z) : res float :=
  if b =? 0 then Raise ZeroDivisionError
  else if a =? 0 then Ok {| mant := 0; expo := 0 |}
  else
    let n := Z.abs a in
    let d := Z.abs b in
    let e := Z.max (ratio_log2 n d - 52) (- 1074) in
    let m := if 0 <=? e then round_half_even n (d * 2 ^ e)
             else round_half_even (n * 2 ^ (- e)) d in
    if 2 ^ 1024 <=? m * 2 ^ e then Raise OverflowError
    else Ok {| mant := Z.sgn a * Z.sgn b * m; expo := e |}.

(** [math.floor(x)] *)
Definition floor (x : float) : Z :=
  if 0 <=? expo x then mant x * 2 ^ expo x else mant x / 2 ^ (- expo x).

(** [math.ceil(x)] *)
Definition ceil (x : float) : Z :=
  if 0 <=? expo x then mant x * 2 ^ expo x else - ((- mant x) / 2 ^ (- expo x)).

End Float.

(** ** The search criteria (jobspy.model.ScraperInput) *)

(** Modelled from the spec: the enumeration [JobType] is declared in
    jobspy.model; the spec lists its members as full-time, part-time,
    contract and internship, the four keys of [job_type_key_mapping]. *)
Inductive JobType : Type := FULL_TIME | PART_TIME | CONTRACT | INTERNSHIP.

(** Modelled from the spec: the enumeration [DescriptionFormat] is declared
    in jobspy.model; the spec lists plain and markdown. *)
Inductive DescriptionFormat : Type := PLAIN | MARKDOWN.

(** Modelled from the spec: the fields of [ScraperInput] the module reads.
    [country] stands for [country.indeed_domain_value], a pair of the
    sub-domain and the API country code. Optional fields are tested by
    truthiness in the module, so [Some 0] and the empty string count as unset
    there. *)
Record ScraperInput : Type := {
  search_term : option string;
  location : option string;
  distance : option Z;
  hours_old : option Z;
  job_type : option JobType;
  is_remote : bool;
  easy_apply : bool;
  results_wanted : Z;
  offset : Z;
  description_format : DescriptionFormat;
  country : string * string
}.

Definition truthy_int (o : option Z) : bool :=
  match o with Some z => negb (Z.eqb z 0) | None => false end.

Definition truthy_str (o : option string) : bool :=
  match o with Some s => negb (String.eqb s EmptyString) | None => false end.

Definition str_of_opt_int (o : option Z) : string :=
  match o with Some z => str_of_int z | None => "None" end.

(** ** Filter builder *)

Definition job_type_key_mapping (t : JobType) : string :=
  match t with
  | FULL_TIME => "CF3CP"
  | PART_TIME => "75GKK"
  | CONTRACT => "NJXCK"
  | INTERNSHIP => "VDTG7"
  end.

(** The three fragments, with the white space of the source literals. *)
Definition date_filter (start : string) : string :=
  nl +:+ spaces 12 +:+ "filters: {" +:+
  nl +:+ spaces 16 +:+ "date: {" +:+
  nl +:+ spaces 18 +:+ "field: " +:+ dq +:+ "dateOnIndeed" +:+ dq +:+ "," +:+
  nl +:+ spaces 18 +:+ "start: " +:+ dq +:+ start +:+ "h" +:+ dq +:+
  nl +:+ spaces 16 +:+ "}" +:+
  nl +:+ spaces 12 +:+ "}" +:+
  nl +:+ spaces 12.

Definition easy_apply_filter : string :=
  nl +:+ spaces 12 +:+ "filters: {" +:+
  nl +:+ spaces 16 +:+ "keyword: {" +:+
  nl +:+ spaces 18 +:+ "field: " +:+ dq +:+ "indeedApplyScope" +:+ dq +:+ "," +:+
  nl +:+ spaces 18 +:+ "keys: [" +:+ dq +:+ "DESKTOP" +:+ dq +:+ "]" +:+
  nl +:+ spaces 16 +:+ "}" +:+
  nl +:+ spaces 12 +:+ "}" +:+
  nl +:+ spaces 12.

Definition composite_filter (keys_str : string) : string :=
  nl +:+ spaces 16 +:+ "filters: {" +:+
  nl +:+ spaces 18 +:+ "composite: {" +:+
  nl +:+ spaces 20 +:+ "filters: [{" +:+
  nl +:+ spaces 22 +:+ "keyword: {" +:+
  nl +:+ spaces 24 +:+ "field: " +:+ dq +:+ "attributes" +:+ dq +:+ "," +:+
  nl +:+ spaces 24 +:+ "keys: [" +:+ dq +:+ keys_str +:+ dq +:+ "]" +:+
  nl +:+ spaces 22 +:+ "}" +:+
  nl +:+ spaces 20 +:+ "}]" +:+
  nl +:+ spaces 18 +:+ "}" +:+
  nl +:+ spaces 16 +:+ "}" +:+
  nl +:+ spaces 16.

Definition _build_filters (si : ScraperInput) : string :=
  if truthy_int (hours_old si) then
    date_filter (str_of_opt_int (hours_old si))
  else if easy_apply si then
    easy_apply_filter
  else if (match job_type si with Some _ => true | None => false end) || is_remote si then
    let keys :=
      app (match job_type si with Some t => [job_type_key_mapping t] | None => [] end)
          (if is_remote si then ["DSQF7"] else []) in
    match keys with
    | [] => EmptyString
    | _ => composite_filter (join (dq +:+ ", " +:+ dq) keys)
    end
  else EmptyString.

(** ** HTTP requests and responses *)

(** The three clients of the module: [self.session] (plain client, main API),
    [self.html_session] (client with a browser-like TLS fingerprint) and the
    [requests] module itself, called with the fallback proxy. *)
Inductive channel : Type := Session | HtmlSession | ReqLib.

Inductive http_method : Type := GET | POST.

(** The [verify] argument: [False] or the path of a CA bundle. *)
Inductive verify_setting : Type := VerifyOff | VerifyBundle (path : string).

(** A request as the call site makes it; an argument the call does not pass
    is [None]. *)
Record request : Type := {
  req_channel : channel;
  req_method : http_method;
  req_url : string;
  req_headers : list (string * string);
  req_json : option string;
  req_proxies : option (string * string);
  req_timeout : option Z;
  req_verify : option verify_setting
}.

(** What the module reads of a response: [ok], [status_code], [text] and the
    outcome of [json()]. *)
Record response : Type := {
  ok : bool;
  status_code : Z;
  text : string;
  json : res pyval
}.

(** Log records, by level and message. *)
Inductive log_msg : Type :=
  | MsgSearchPage (page total : Z)
  | MsgNoJobs (page : Z)
  | MsgStatus (code : Z)
  | MsgTlsRetry (code : Z) (url : string)
  | MsgHttp (code : Z) (url : string)
  | MsgNoHiringOrganization (url : string)
  | MsgException (url : string) (e : exn).

Inductive log_record : Type :=
  | Info (m : log_msg)
  | Warning (m : log_msg).

(** ** The scraper instance and the outside world *)

(** The [proxies] argument of the constructor. *)
Inductive proxies_arg : Type :=
  | ProxiesNone
  | ProxiesStr (s : string)
  | ProxiesList (l : list string).

Record Indeed : Type := {
  proxies : proxies_arg;
  _fallback_proxies : option (string * string);
  _ca_cert : verify_setting;
  scraper_input : option ScraperInput;
  jobs_per_page : Z;
  num_workers : Z;
  seen_urls : gset string;
  api_country_code : option string;
  base_url : option string;
  api_url : string
}.

(** The requests sent so far, oldest first, and the log. *)
Record World : Type := {
  sent : list request;
  logged : list log_record
}.

Definition state : Type := Indeed * World.

Definition set_seen_urls (s : gset string) (self : Indeed) : Indeed :=
  {| proxies := proxies self; _fallback_proxies := _fallback_proxies self;
     _ca_cert := _ca_cert self; scraper_input := scraper_input self;
     jobs_per_page := jobs_per_page self; num_workers := num_workers self;
     seen_urls := s;
     api_country_code := api_country_code self; base_url := base_url self;
     api_url := api_url self |}.

Definition set_session (si : ScraperInput) (self : Indeed) : Indeed :=
  {| proxies := proxies self; _fallback_proxies := _fallback_proxies self;
     _ca_cert := _ca_cert self; scraper_input := Some si;
     jobs_per_page := jobs_per_page self; num_workers := num_workers self;
     seen_urls := seen_urls self;
     api_country_code := Some (snd (country si));
     base_url := Some ("https://" +:+ fst (country si) +:+ ".indeed.com");
     api_url := api_url self |}.

(** [Indeed.__init__]. [ca_cert] is kept when it is a non-empty string and
    replaced by [False] otherwise; the fallback proxy is the string itself
    or the first entry of the list. The attribute [headers] is written by
    the class and never read; it is left out. *)
Definition __init__ (prox : proxies_arg) (ca_cert : option string) : Indeed :=
  {| proxies := prox;
     _fallback_proxies :=
       match prox with
       | ProxiesNone => None
       | ProxiesStr s => if String.eqb s EmptyString then None else Some (s, s)
       | ProxiesList [] => None
       | ProxiesList (p :: _) => Some (p, p)
       end;
     _ca_cert :=
       match ca_cert with
       | Some c => if String.eqb c EmptyString then VerifyOff else VerifyBundle c
       | None => VerifyOff
       end;
     scraper_input := None;
     jobs_per_page := 100;
     num_workers := 10;
     seen_urls := ∅;
     api_country_code := None;
     base_url := None;
     api_url := "https://apis.indeed.com/graphql" |}.

Definition world0 : World := {| sent := []; logged := [] |}.

(** ** Methods: state and exceptions *)

Definition M (A : Type) : Type := state -> res A * state.

Definition ret {A} (a : A) : M A := fun s => (Ok a, s).

Definition raise {A} (e : exn) : M A := fun s => (Raise e, s).

Definition lift {A} (r : res A) : M A := fun s => (r, s).

Definition bind {A B} (m : M A) (f : A -> M B) : M B :=
  fun s => match m s with
           | (Ok a, s') => f a s'
           | (Raise e, s') => (Raise e, s')
           end.

(** [try: m except Exception as e: h e] *)
Definition try_except {A} (m : M A) (h : exn -> M A) : M A :=
  fun s => match m s with
           | (Ok a, s') => (Ok a, s')
           | (Raise e, s') => h e s'
           end.

Notation "x <- m ;; k" := (bind m (fun x => k))
  (at level 100, m at next level, right associativity).
Notation "m ;;; k" := (bind m (fun _ => k))
  (at level 100, right associativity).

Definition get_self : M Indeed := fun s => (Ok (fst s), s).

Definition log_info (m : log_msg) : M unit :=
  fun s => (Ok tt, (fst s, {| sent := sent (snd s); logged := app (logged (snd s)) [Info m] |})).

Definition log_warning (m : log_msg) : M unit :=
  fun s => (Ok tt, (fst s, {| sent := sent (snd s); logged := app (logged (snd s)) [Warning m] |})).

(** ** Calendar dates *)

(** [datetime.fromtimestamp(ms / 1000).strftime("%Y-%m-%d")], as CPython 3
    computes it on a POSIX system with a 64-bit [time_t] and the C library
    of GNU.

    The quotient [ms / 1000] is a float. [fromtimestamp] rounds it to
    microseconds and keeps the whole seconds; for the quotient of an [int]
    by 1000 the rounding never reaches the next second, so the whole
    seconds are the floor of the float. It answers in the local zone of the
    process: [offset] is the number of seconds that zone is ahead of UTC at
    the given instant. *)
Module Calendar.

(** Days since 1970-01-01 to (year, month, day) of the proleptic Gregorian
    calendar, by 400-year eras of 146097 days. *)
Definition civil_from_days (z : Z) : Z * Z * Z :=
  let z := z + 719468 in
  let era := z / 146097 in
  let doe := z - era * 146097 in
  let yoe := (doe - doe / 1460 + doe / 36524 - doe / 146096) / 365 in
  let doy := doe - (365 * yoe + yoe / 4 - yoe / 100) in
  let mp := (5 * doy + 2) / 153 in
  let d := doy - (153 * mp + 2) / 5 + 1 in
  let m := if mp <? 10 then mp + 3 else mp - 9 in
  let y := yoe + era * 400 in
  (if m <=? 2 then y + 1 else y, m, d).

(** The inverse, used to say that a string denotes the right day. *)
Definition days_from_civil (ymd : Z * Z * Z) : Z :=
  let '(y, m, d) := ymd in
  let y := if m <=? 2 then y - 1 else y in
  let era := y / 400 in
  let yoe := y - era * 400 in
  let doy := (153 * (if 2 <? m then m - 3 else m + 9) + 2) / 5 + d - 1 in
  let doe := yoe * 365 + yoe / 4 - yoe / 100 + doy in
  era * 146097 + doe - 719468.

Definition is_leap (y : Z) : bool :=
  (Z.eqb (y mod 4) 0 && negb (Z.eqb (y mod 100) 0)) || Z.eqb (y mod 400) 0.

Definition days_in_month (y m : Z) : Z :=
  if Z.eqb m 2 then (if is_leap y then 29 else 28)
  else if Z.eqb m 4 || Z.eqb m 6 || Z.eqb m 9 || Z.eqb m 11 then 30
  else 31.

(** [%m] and [%d]: two digits. *)
Definition pad2 (n : Z) : string :=
  if n <? 10 then "0" +:+ str_of_int n else str_of_int n.

(** [%Y] for a year from 1 to 9999. From 1000 on it has four digits;
    below, the platforms differ: [pads] says whether the year is padded
    with zeros to four digits (the C library of GNU prints it as it is). *)
Definition year_string (pads : bool) (y : Z) : string :=
  if pads then
    (if y <? 10 then "000" else if y <? 100 then "00" else if y <? 1000 then "0"
     else EmptyString) +:+ str_of_int y
  else str_of_int y.

(** [%Y-%m-%d] *)
Definition strftime_ymd (pads : bool) (ymd : Z * Z * Z) : string :=
  let '(y, m, d) := ymd in
  year_string pads y +:+ "-" +:+ pad2 m +:+ "-" +:+ pad2 d.

(** The local day of the instant [t], in days since 1970-01-01, as
    [localtime] and [datetime] give it: [localtime] fails ([OSError]) when
    the year less 1900 does not fit the [int] field of [struct tm], and
    [datetime] refuses ([ValueError]) a year outside 1..9999. *)
Definition local_day (offset : Z -> Z) (t : Z) : res Z :=
  let day := (t + offset t) / 86400 in
  let y := fst (fst (civil_from_days day)) in
  if negb ((- 2 ^ 31 <=? y - 1900) && (y - 1900 <? 2 ^ 31)) then Raise OSError
  else if negb ((1 <=? y) && (y <=? 9999)) then Raise ValueError
  else Ok day.

(** [datetime.fromtimestamp(x)]. The whole seconds must fit [time_t]
    ([OverflowError]; the test of CPython 3.11 lets [2 ^ 63] itself pass,
    and [localtime] then fails). To find out whether the local time is the
    second of two equal readings of the clock, the instant one day earlier
    is converted as well, and, when the zone was further ahead of UTC a day
    earlier, the instant earlier by that difference; each conversion is
    checked like the first, so the first day of year 1 is refused. *)
Definition fromtimestamp (offset : Z -> Z) (x : Float.float) : res (Z * Z * Z) :=
  let t := Float.floor x in
  if negb ((- 2 ^ 63 <=? t) && (t <=? 2 ^ 63)) then Raise OverflowError
  else
    rbind (local_day offset t) (fun day =>
    rbind (local_day offset (t - 86400)) (fun _ =>
    let transition := offset t - offset (t - 86400) in
    rbind (if transition <? 0 then local_day offset (t + transition) else Ok day) (fun _ =>
    Ok (civil_from_days day)))).

Definition is_digit (c : ascii) : bool :=
  let n := nat_of_ascii c in (48 <=? n)%nat && (n <=? 57)%nat.

(** The shape YYYY-MM-DD. *)
Definition is_ymd_string (s : string) : bool :=
  match s with
  | String y1 (String y2 (String y3 (String y4 (String h1
      (String m1 (String m2 (String h2 (String d1 (String d2 EmptyString))))))))) =>
      is_digit y1 && is_digit y2 && is_digit y3 && is_digit y4 &&
      Ascii.eqb h1 "-" &&
      is_digit m1 && is_digit m2 &&
      Ascii.eqb h2 "-" &&
      is_digit d1 && is_digit d2
  | _ => false
  end.

(** A bounded universal quantifier that computes. *)
Fixpoint all_from (lo : Z) (n : nat) (P : Z -> bool) : bool :=
  match n with
  | O => true
  | S n' => P lo && all_from (lo + 1) n' P
  end.

End Calendar.
Import Calendar.

(** ** The posting (jobspy.model.JobPost) *)

(** Modelled from the spec: [JobPost] and [Location] are declared in
    jobspy.model; the spec takes them as a target structure with named
    fields. The fields are those the constructor call names, each holding
    the value the call passes. What the constructors check of these values
    is not in the module: it is a parameter, [validate_location] and
    [validate_post] below. *)
Record Location : Type := {
  loc_city : pyval;
  loc_state : pyval;
  loc_country : pyval
}.

Record JobPost : Type := {
  post_id : string;
  title : pyval;
  description : pyval;
  company_name : pyval;
  company_url : option string;
  company_url_direct : pyval;
  post_location : Location;
  post_job_type : pyval;
  compensation : pyval;
  date_posted : string;
  job_url : string;
  job_url_direct : pyval;
  emails : pyval;
  post_is_remote : pyval;
  company_addresses : pyval;
  company_industry : pyval;
  company_num_employees : pyval;
  company_revenue : pyval;
  company_description : pyval;
  company_logo : pyval
}.

Record JobResponse : Type := { jobs : list JobPost }.

(** ** Collaborators outside the module *)

(** The constants and helpers the module imports (jobspy.indeed.constant,
    jobspy.indeed.util, jobspy.util), the checks of the constructors of
    jobspy.model, the library functions whose text handling is outside the
    model, the local time zone and the C library, the timeout of the
    session that [create_session] builds, and the network. The network
    answers a request knowing the requests sent before it. *)
Class Env : Type := {
  net : list request -> request -> res response;
  api_headers : list (string * string);
  (** [job_search_query.format(what, location, dateOnIndeed, cursor, filters)] *)
  job_search_query : string -> string -> string -> string -> string -> string;
  markdown_converter : pyval -> res pyval;
  get_job_type : pyval -> res pyval;
  get_compensation : pyval -> res pyval;
  is_job_remote : pyval -> pyval -> res pyval;
  extract_emails_from_text : pyval -> res pyval;
  (** [str.title] and [str.strip] *)
  str_title : string -> string;
  str_strip : string -> string;
  (** [str] of a list or a dict *)
  py_repr : pyval -> string;
  (** [re.findall] of the JSON-LD script pattern, and [json.loads] *)
  findall_ld_json : string -> list string;
  json_loads : string -> res pyval;
  (** the local time zone, and how the C library prints [%Y] *)
  utc_offset : Z -> Z;
  pads_year : bool;
  (** what the constructors of [Location] and [JobPost] check *)
  validate_location : Location -> res unit;
  validate_post : JobPost -> res unit;
  (** the timeout, in seconds, of the browser-fingerprint session *)
  html_session_timeout : positive
}.

(** [old] replaced by [new] from left to right, for a non-empty [old]:
    [skip] counts the characters of a match still to be dropped. *)
Fixpoint replace_from (skip : nat) (old new s : string) : string :=
  match s with
  | EmptyString => EmptyString
  | String c s' =>
      match skip with
      | S k => replace_from k old new s'
      | O =>
          if starts_with old s
          then new +:+ replace_from (Nat.pred (String.length old)) old new s'
          else String c (replace_from O old new s')
      end
  end.

(** [s.replace(old, new)] *)
Definition str_replace (s old new : string) : string := replace_from 0 old new s.

Definition str_of_opt_str (o : option string) : string :=
  match o with Some s => s | None => "None" end.

Fixpoint dict_set (k v : string) (d : list (string * string)) : list (string * string) :=
  match d with
  | [] => [(k, v)]
  | (k', v') :: d' => if String.eqb k k' then (k, v) :: d' else (k', v') :: dict_set k v d'
  end.

Section Methods.

Context `{Env}.

(** [str(v)], as an f-string renders a value. *)
Definition py_str (v : pyval) : string :=
  match v with
  | PNone => "None"
  | PBool true => "True"
  | PBool false => "False"
  | PInt z => str_of_int z
  | PStr s => s
  | PList _ | PDict _ => py_repr v
  end.

(** A call of [get] or [post]: the request is recorded, the network
    answers or the call raises. *)
Definition send (r : request) : M response :=
  fun s => (net (sent (snd s)) r,
            (fst s, {| sent := app (sent (snd s)) [r]; logged := logged (snd s) |})).

(** *** Company-name fallback *)

Definition fallback_headers : list (string * string) :=
  [("User-Agent", "Mozilla/5.0 (Windows NT 10.0; Win64; x64) AppleWebKit/537.36 (KHTML, like Gecko) Chrome/120.0.0.0 Safari/537.36");
   ("Accept-Language", "de-DE,de;q=0.9,en;q=0.8");
   ("Accept", "text/html,application/xhtml+xml,application/xml;q=0.9,*/*;q=0.8")].

(** [self.html_session.get(job_url, headers=headers)] *)
Definition tls_request (job_url : string) : request :=
  {| req_channel := HtmlSession; req_method := GET; req_url := job_url;
     req_headers := fallback_headers; req_json := None; req_proxies := None;
     req_timeout := None; req_verify := None |}.

(** [req_lib.get(job_url, headers=headers, proxies=self._fallback_proxies,
    timeout=10, verify=self._ca_cert)] *)
Definition proxy_request (self : Indeed) (job_url : string) : request :=
  {| req_channel := ReqLib; req_method := GET; req_url := job_url;
     req_headers := fallback_headers; req_json := None;
     req_proxies := _fallback_proxies self;
     req_timeout := Some 10; req_verify := Some (_ca_cert self) |}.

(** The loop over the JSON-LD blocks: the first truthy
    [hiringOrganization.name]; a block that does not parse or is not a
    dict is skipped, any other exception leaves the loop. *)
Fixpoint first_organization_name (matches : list string) : res (option pyval) :=
  match matches with
  | [] => Ok None
  | m :: rest =>
      match rbind (json_loads m) (fun data =>
            rbind (get_default data "hiringOrganization" (PDict [])) (fun org =>
            get org "name")) with
      | Ok name => if truthy name then Ok (Some name) else first_organization_name rest
      | Raise JSONDecodeError | Raise AttributeError => first_organization_name rest
      | Raise e => Raise e
      end
  end.

Definition _fetch_company_name (job_url : string) : M pyval :=
  try_except
    (self <- get_self ;;
     response <- send (tls_request job_url) ;;
     response <-
       (if negb (ok response) &&
           (match _fallback_proxies self with Some _ => true | None => false end)
        then
          log_info (MsgTlsRetry (status_code response) job_url) ;;;
          send (proxy_request self job_url)
        else ret response) ;;
     if negb (ok response) then
       log_warning (MsgHttp (status_code response) job_url) ;;;
       ret PNone
     else
       found <- lift (first_organization_name (findall_ld_json (text response))) ;;
       match found with
       | Some name => ret name
       | None =>
           log_warning (MsgNoHiringOrganization job_url) ;;;
           ret PNone
       end)
    (fun e =>
       log_warning (MsgException job_url e) ;;;
       ret PNone).

(** *** Job normalizer *)

(** [datetime.fromtimestamp(ms / 1000).strftime("%Y-%m-%d")] for an [int] *)
Definition date_of_ms (ms : Z) : res string :=
  rbind (Float.truediv ms 1000) (fun timestamp_seconds =>
  rbind (fromtimestamp utc_offset timestamp_seconds) (fun ymd =>
  Ok (strftime_ymd pads_year ymd))).

(** [v / 1000] then the local date: an [int] (or a [bool], which is one)
    divides, anything else is a [TypeError]. *)
Definition date_posted_of (v : pyval) : res string :=
  match v with
  | PInt ms => date_of_ms ms
  | PBool b => date_of_ms (if b then 1 else 0)
  | _ => Raise TypeError
  end.

(** The industry label: [Iv1] removed, underscores turned into spaces,
    then [title()] and [strip()]. *)
Definition clean_industry (v : pyval) : res pyval :=
  match v with
  | PStr s => Ok (PStr (str_strip (str_title (str_replace (str_replace s "Iv1" EmptyString) "_" " "))))
  | _ => Raise AttributeError
  end.

(** The part of [_process_job] after the URL is recorded, in the order the
    source evaluates it; the constructors check the values they are given
    when they are called, [Location] among the arguments of [JobPost]. *)
Definition build_post (job : pyval) (job_url : string) : M JobPost :=
  self <- get_self ;;
  d <- lift (getitem job "description") ;;
  description <- lift (getitem d "html") ;;
  si <- lift (match scraper_input self with
              | Some si => Ok si
              | None => Raise AttributeError
              end) ;;
  description <- lift (match description_format si with
                       | MARKDOWN => markdown_converter description
                       | PLAIN => Ok description
                       end) ;;
  attributes <- lift (getitem job "attributes") ;;
  job_type <- lift (get_job_type attributes) ;;
  published <- lift (getitem job "datePublished") ;;
  date_posted <- lift (date_posted_of published) ;;
  e <- lift (getitem job "employer") ;;
  employer <- lift (if truthy e then get e "dossier" else Ok PNone) ;;
  employer_details <- lift (if truthy employer
                            then get_default employer "employerDetails" (PDict [])
                            else Ok (PDict [])) ;;
  rel_url <- lift (if truthy e then getitem e "relativeCompanyPageUrl" else Ok PNone) ;;
  e' <- lift (get job "employer") ;;
  company_name <- lift (if truthy e' then get e "name" else Ok PNone) ;;
  company_name <- (if truthy company_name
                   then ret company_name
                   else _fetch_company_name job_url) ;;
  key <- lift (getitem job "key") ;;
  title <- lift (getitem job "title") ;;
  let company_url :=
    if truthy e then Some (str_of_opt_str (base_url self) +:+ py_str rel_url) else None in
  company_url_direct <- lift (if truthy employer
                              then rbind (getitem employer "links")
                                         (fun l => getitem l "corporateWebsite")
                              else Ok PNone) ;;
  city <- lift (rbind (get_default job "location" (PDict [])) (fun l => get l "city")) ;;
  state <- lift (rbind (get_default job "location" (PDict [])) (fun l => get l "admin1Code")) ;;
  country <- lift (rbind (get_default job "location" (PDict [])) (fun l => get l "countryCode")) ;;
  let loc := {| loc_city := city; loc_state := state; loc_country := country |} in
  lift (validate_location loc) ;;;
  c <- lift (getitem job "compensation") ;;
  compensation <- lift (get_compensation c) ;;
  r <- lift (get job "recruit") ;;
  job_url_direct <- lift (if truthy r
                          then rbind (getitem job "recruit") (fun r => get r "viewJobUrl")
                          else Ok PNone) ;;
  emails <- lift (if truthy description
                  then extract_emails_from_text description
                  else Ok PNone) ;;
  is_remote <- lift (is_job_remote job description) ;;
  a <- lift (get employer_details "addresses") ;;
  company_addresses <- lift (if truthy a
                             then rbind (getitem employer_details "addresses") index0
                             else Ok PNone) ;;
  i <- lift (get employer_details "industry") ;;
  company_industry <- lift (if truthy i
                            then rbind (getitem employer_details "industry") clean_industry
                            else Ok PNone) ;;
  company_num_employees <- lift (get employer_details "employeesLocalizedLabel") ;;
  company_revenue <- lift (get employer_details "revenueLocalizedLabel") ;;
  company_description <- lift (get employer_details "briefDescription") ;;
  has_logo <- lift (if truthy employer
                    then rbind (get employer "images") (fun im => Ok (truthy im))
                    else Ok false) ;;
  company_logo <- lift (if has_logo
                        then rbind (getitem employer "images") (fun im => get im "squareLogoUrl")
                        else Ok PNone) ;;
  let post :=
    {| post_id := "in-" +:+ py_str key;
       title := title;
       description := description;
       company_name := company_name;
       company_url := company_url;
       company_url_direct := company_url_direct;
       post_location := loc;
       post_job_type := job_type;
       compensation := compensation;
       date_posted := date_posted;
       job_url := job_url;
       job_url_direct := job_url_direct;
       emails := emails;
       post_is_remote := is_remote;
       company_addresses := company_addresses;
       company_industry := company_industry;
       company_num_employees := company_num_employees;
       company_revenue := company_revenue;
       company_description := company_description;
       company_logo := company_logo |} in
  lift (validate_post post) ;;;
  ret post.

(** [self.seen_urls.add(job_url)] *)
Definition add_seen (job_url : string) : M unit :=
  fun s => (Ok tt, (set_seen_urls ({[ job_url ]} ∪ seen_urls (fst s)) (fst s), snd s)).

Definition _process_job (job : pyval) : M (option JobPost) :=
  self <- get_self ;;
  key <- lift (getitem job "key") ;;
  let job_url := str_of_opt_str (base_url self) +:+ "/viewjob?jk=" +:+ py_str key in
  if bool_decide (job_url ∈ seen_urls self) then ret None
  else
    add_seen job_url ;;;
    post <- build_post job job_url ;;
    ret (Some post).

(** *** Page retriever *)

Definition bs : string := String (ascii_of_nat 92) EmptyString.

(** The assembled query document. *)
Definition build_query (si : ScraperInput) (cursor : pyval) : string :=
  let filters := _build_filters si in
  let term :=
    if truthy_str (search_term si)
    then str_replace (str_of_opt_str (search_term si)) dq (bs +:+ dq)
    else EmptyString in
  job_search_query
    (if negb (String.eqb term EmptyString) then "what: " +:+ dq +:+ term +:+ dq else EmptyString)
    (if truthy_str (location si)
     then "location: {where: " +:+ dq +:+ str_of_opt_str (location si) +:+ dq +:+
          ", radius: " +:+ str_of_opt_int (distance si) +:+ ", radiusUnit: MILES}"
     else EmptyString)
    (str_of_opt_int (hours_old si))
    (if truthy cursor then "cursor: " +:+ dq +:+ py_str cursor +:+ dq else EmptyString)
    filters.

(** [self.session.post(self.api_url, headers=api_headers_temp, json=payload,
    timeout=10, verify=False)] *)
Definition api_request (self : Indeed) (si : ScraperInput) (cursor : pyval) : request :=
  {| req_channel := Session; req_method := POST; req_url := api_url self;
     req_headers := dict_set "indeed-co" (str_of_opt_str (api_country_code self)) api_headers;
     req_json := Some (build_query si cursor);
     req_proxies := None;
     req_timeout := Some 10; req_verify := Some VerifyOff |}.

(** [data["data"]["jobSearch"]["results"]] and
    [data["data"]["jobSearch"]["pageInfo"]["nextCursor"]] *)
Definition parse_page (response : response) : res (pyval * pyval) :=
  rbind (json response) (fun data =>
  rbind (getitem data "data") (fun d =>
  rbind (getitem d "jobSearch") (fun js =>
  rbind (getitem js "results") (fun results =>
  rbind (getitem js "pageInfo") (fun page_info =>
  rbind (getitem page_info "nextCursor") (fun next_cursor =>
  Ok (results, next_cursor))))))).

(** The [for] loop of [_scrape_page]. *)
Fixpoint process_jobs (items : list pyval) : M (list JobPost) :=
  match items with
  | [] => ret []
  | item :: rest =>
      job <- lift (getitem item "job") ;;
      processed_job <- _process_job job ;;
      job_list <- process_jobs rest ;;
      ret (match processed_job with
           | Some post => post :: job_list
           | None => job_list
           end)
  end.

Definition _scrape_page (cursor : pyval) : M (list JobPost * pyval) :=
  self <- get_self ;;
  si <- lift (match scraper_input self with
              | Some si => Ok si
              | None => Raise AttributeError
              end) ;;
  response <- send (api_request self si cursor) ;;
  if negb (ok response) then
    log_info (MsgStatus (status_code response)) ;;;
    ret ([], PNone)
  else
    page <- lift (parse_page response) ;;
    items <- lift (iter (fst page)) ;;
    job_list <- process_jobs items ;;
    ret (job_list, snd page).

(** *** Pagination controller *)

(** [l[lo:hi]] *)
Definition slice_index (i n : Z) : Z :=
  if i <? 0 then Z.max (i + n) 0 else Z.min i n.

Definition py_slice {A} (lo hi : Z) (l : list A) : list A :=
  let n := Z.of_nat (length l) in
  let a := slice_index lo n in
  let b := slice_index hi n in
  firstn (Z.to_nat (b - a)) (skipn (Z.to_nat a) l).

(** [math.ceil(scraper_input.results_wanted / self.jobs_per_page)] *)
Definition page_total (si : ScraperInput) (self : Indeed) : res Z :=
  rbind (Float.truediv (results_wanted si) (jobs_per_page self)) (fun quotient =>
  Ok (Float.ceil quotient)).

(** The [while] loop of [scrape]. [fuel] bounds the number of times the
    guard is evaluated; [None] means the bound was reached. *)
Fixpoint scrape_loop (fuel : nat) (si : ScraperInput) (job_list : list JobPost)
    (page : Z) (cursor : pyval) : M (option (list JobPost)) :=
  match fuel with
  | O => ret None
  | S fuel' =>
      self <- get_self ;;
      if Z.of_nat (size (seen_urls self)) <? results_wanted si + offset si then
        total <- lift (page_total si self) ;;
        log_info (MsgSearchPage page total) ;;;
        r <- _scrape_page cursor ;;
        match fst r with
        | [] =>
            log_info (MsgNoJobs page) ;;;
            ret (Some job_list)
        | _ :: _ => scrape_loop fuel' si (app job_list (fst r)) (page + 1) (snd r)
        end
      else ret (Some job_list)
  end.

Definition start_session (si : ScraperInput) : M unit :=
  fun s => (Ok tt, (set_session si (fst s), snd s)).

Definition scrape_with (fuel : nat) (si : ScraperInput) : M (option JobResponse) :=
  start_session si ;;;
  job_list <- scrape_loop fuel si [] 1 PNone ;;
  ret (option_map
         (fun l => {| jobs := py_slice (offset si) (offset si + results_wanted si) l |})
         job_list).

(** Each turn of the loop that does not leave it adds a URL to
    [seen_urls], so the guard is evaluated at most
    [results_wanted + offset + 1] times. *)
Definition scrape (si : ScraperInput) : M (option JobResponse) :=
  scrape_with (S (Z.to_nat (results_wanted si + offset si))) si.

End Methods.

(** * Definitions used by the statements *)

(** ** Text search *)

Fixpoint all_chars (P : ascii -> bool) (s : string) : bool :=
  match s with
  | EmptyString => true
  | String c s' => P c && all_chars P s'
  end.

(** A digit or the minus sign. *)
Definition is_int_char (c : ascii) : bool := is_digit c || Ascii.eqb c "-".

(** [compatible needle s]: one of the two is a prefix of the other, so a
    match of [needle] could start at the head of [s] followed by more text. *)
Fixpoint compatible (needle s : string) : bool :=
  match needle, s with
  | EmptyString, _ => true
  | _, EmptyString => true
  | String a n', String b s' => Ascii.eqb a b && compatible n' s'
  end.

(** No match of [needle] starts inside [pre], whatever follows. *)
Fixpoint no_start_in (needle pre : string) : bool :=
  match pre with
  | EmptyString => true
  | String _ p' => negb (compatible needle pre) && no_start_in needle p'
  end.

(** The text around the interpolated hour count. *)
Definition date_filter_head : string := Eval vm_compute in
    nl +:+ spaces 12 +:+ "filters: {" +:+
    nl +:+ spaces 16 +:+ "date: {" +:+
    nl +:+ spaces 18 +:+ "field: " +:+ dq +:+ "dateOnIndeed" +:+ dq +:+ "," +:+
    nl +:+ spaces 18 +:+ "start: " +:+ dq.

Definition date_filter_tail : string := Eval vm_compute in
    "h" +:+ dq +:+ nl +:+ spaces 16 +:+ "}" +:+ nl +:+ spaces 12 +:+ "}" +:+ nl +:+ spaces 12.

(** ** Calendar *)

(** A date of the Gregorian calendar. *)
Definition valid_date (ymd : Z * Z * Z) : bool :=
  let '(y, m, d) := ymd in
  (1 <=? m) && (m <=? 12) && (1 <=? d) && (d <=? days_in_month y m).

(** The year of a day given in days since 1970-01-01. *)
Definition year_of_day (z : Z) : Z := fst (fst (civil_from_days z)).

(** The days from 0000-03-01 to the first of March of year [y]. *)
Definition days_to_march (y : Z) : Z := 365 * y + y / 4 - y / 100 + y / 400.

(** What is checked for each day of the era that starts on 0000-03-01. *)
Definition era_day_ok (doe : Z) : bool :=
  let ymd := civil_from_days (doe - 719468) in
  valid_date ymd && Z.eqb (days_from_civil ymd) (doe - 719468).

Definition four_digits (s : string) : bool :=
  match s with
  | String a (String b (String c (String d EmptyString))) =>
      is_digit a && is_digit b && is_digit c && is_digit d
  | _ => false
  end.

Definition two_digits (s : string) : bool :=
  match s with
  | String a (String b EmptyString) => is_digit a && is_digit b
  | _ => false
  end.

(** ** Reasoning about methods *)

(** [wp m s Q]: running [m] from [s] ends, with a value or an exception,
    in an outcome and a state that satisfy [Q]. *)
Definition wp {A} (m : M A) (s : state) (Q : res A -> state -> Prop) : Prop :=
  Q (fst (m s)) (snd (m s)).

(** The timeout and verification arguments each client is called with. *)
Definition call_shape (r : request) : bool :=
  match req_channel r, req_timeout r, req_verify r with
  | Session, Some 10, Some VerifyOff => true
  | ReqLib, Some 10, Some _ => true
  | HtmlSession, None, None => true
  | _, _, _ => false
  end.

(** What a method may do to the instance and the world: [seen_urls] grows,
    every other attribute stays, requests and log records are appended. *)
Record extends (s s' : state) : Prop := {
  ext_seen : seen_urls (fst s) ⊆ seen_urls (fst s');
  ext_self : fst s' = set_seen_urls (seen_urls (fst s')) (fst s);
  ext_sent : exists new, sent (snd s') = app (sent (snd s)) new /\
                         forallb call_shape new = true;
  ext_logged : exists new, logged (snd s') = app (logged (snd s)) new
}.

(** ** Company-name fallback, as a function of the network *)

Section FallbackSpec.

Context `{Env}.

Definition is_some {A} (o : option A) : bool :=
  match o with Some _ => true | None => false end.

(** The requests one lookup sends: the browser-fingerprint request, and the
    proxied one when the first was answered, the answer is not ok and a
    proxy is configured. *)
Definition fallback_requests (self : Indeed) (w : World) (job_url : string) : list request :=
  tls_request job_url ::
  match net (sent w) (tls_request job_url) with
  | Ok response =>
      if negb (ok response) && is_some (_fallback_proxies self)
      then [proxy_request self job_url]
      else []
  | Raise _ => []
  end.

(** No tier gave an ok response. *)
Definition tiers_failed (self : Indeed) (w : World) (job_url : string) : bool :=
  match net (sent w) (tls_request job_url) with
  | Raise _ => true
  | Ok first =>
      if ok first then false
      else match _fallback_proxies self with
           | None => true
           | Some _ =>
               match net (app (sent w) [tls_request job_url]) (proxy_request self job_url) with
               | Raise _ => true
               | Ok second => negb (ok second)
               end
           end
  end.

End FallbackSpec.

(** ** Arrival order and deduplication, as functions *)

(** The URLs of a sequence that are neither in [seen] nor earlier in the
    sequence, in the order of the sequence. *)
Fixpoint fresh_urls (seen : gset string) (urls : list string) : list string :=
  match urls with
  | [] => []
  | u :: rest =>
      if bool_decide (u ∈ seen) then fresh_urls seen rest
      else u :: fresh_urls ({[ u ]} ∪ seen) rest
  end.

Section ArrivalSpec.

Context `{Env}.

(** The canonical job URL of a raw record. *)
Definition canonical_url (self : Indeed) (job : pyval) : res string :=
  rbind (getitem job "key") (fun key =>
  Ok (str_of_opt_str (base_url self) +:+ "/viewjob?jk=" +:+ py_str key)).

(** The canonical URLs of the entries of a result list, in order. *)
Fixpoint item_urls (self : Indeed) (items : list pyval) : res (list string) :=
  match items with
  | [] => Ok []
  | item :: rest =>
      rbind (getitem item "job") (fun job =>
      rbind (canonical_url self job) (fun u =>
      rbind (item_urls self rest) (fun us => Ok (u :: us))))
  end.

(** The URLs of the records the provider returns for the page asked with
    [cursor] from state [s], in the order of the response; none when the
    response is not ok. *)
Definition page_urls (cursor : pyval) (s : state) : res (list string) :=
  match scraper_input (fst s) with
  | None => Raise AttributeError
  | Some si =>
      rbind (net (sent (snd s)) (api_request (fst s) si cursor)) (fun response =>
      if ok response then
        rbind (parse_page response) (fun page =>
        rbind (iter (fst page)) (fun items => item_urls (fst s) items))
      else Ok [])
  end.

(** The guard of the [while] loop. *)
Definition wants_more (si : ScraperInput) (s : state) : bool :=
  Z.of_nat (size (seen_urls (fst s))) <? results_wanted si + offset si.

(** The number of URLs still wanted. *)
Definition missing (si : ScraperInput) (s : state) : nat :=
  Z.to_nat (results_wanted si + offset si - Z.of_nat (size (seen_urls (fst s)))).

(** The state in which the loop asks for a page: the guard held and the
    page number was logged, with the number of pages [total]. *)
Definition asking (page total : Z) (s : state) : state :=
  (fst s, {| sent := sent (snd s);
             logged := app (logged (snd s)) [Info (MsgSearchPage page total)] |}).

(** The state after the loop found no posting on a page. *)
Definition no_jobs (page : Z) (s : state) : state :=
  (fst s, {| sent := sent (snd s);
             logged := app (logged (snd s)) [Info (MsgNoJobs page)] |}).

(** The URLs that arrive during the loop, page after page. *)
Fixpoint arrivals (fuel : nat) (si : ScraperInput) (page : Z) (cursor : pyval)
    (s : state) : list string :=
  match fuel with
  | O => []
  | S fuel' =>
      if wants_more si s then
        match page_total si (fst s) with
        | Raise _ => []
        | Ok total =>
            let urls := match page_urls cursor (asking page total s) with
                        | Ok urls => urls
                        | Raise _ => []
                        end in
            match _scrape_page cursor (asking page total s) with
            | (Ok (_ :: _, cursor'), s') => app urls (arrivals fuel' si (page + 1) cursor' s')
            | _ => urls
            end
        end
      else []
  end.

(** The URLs that arrive during one call of [scrape]. *)
Definition session_arrivals (si : ScraperInput) (s : state) : list string :=
  arrivals (S (Z.to_nat (results_wanted si + offset si))) si 1 PNone
    (set_session si (fst s), snd s).

End ArrivalSpec.

(** ** The pagination controller of the spec *)

Section PaginationSpec.

Context `{Env}.

(** Following the spec (4.6): a state machine with the states RUNNING and
    DONE. RUNNING holds the job list, the page number and the cursor;
    [paginates si job_list page cursor s outcome s'] says that from there
    the machine reaches DONE with [outcome], the accumulated postings or
    the fault that ended the call, in state [s']. It continues while
    [seen_urls] holds fewer than [results_wanted + offset] URLs; a page
    that yields no posting ends it, whatever cursor comes with the page;
    otherwise the postings are appended and the cursor advances. The page
    retriever is [_scrape_page]. *)
Inductive paginates (si : ScraperInput) :
    list JobPost -> Z -> pyval -> state -> res (list JobPost) -> state -> Prop :=
  | target_met job_list page cursor s :
      wants_more si s = false ->
      paginates si job_list page cursor s (Ok job_list) s
  | empty_page job_list page cursor s total cursor' s' :
      wants_more si s = true ->
      page_total si (fst s) = Ok total ->
      _scrape_page cursor (asking page total s) = (Ok ([], cursor'), s') ->
      paginates si job_list page cursor s (Ok job_list) (no_jobs page s')
  | next_page job_list page cursor s total post jobs cursor' s' outcome s'' :
      wants_more si s = true ->
      page_total si (fst s) = Ok total ->
      _scrape_page cursor (asking page total s) = (Ok (post :: jobs, cursor'), s') ->
      paginates si (app job_list (post :: jobs)) (page + 1) cursor' s' outcome s'' ->
      paginates si job_list page cursor s outcome s''
  | progress_fault job_list page cursor s e :
      wants_more si s = true ->
      page_total si (fst s) = Raise e ->
      paginates si job_list page cursor s (Raise e) s
  | page_fault job_list page cursor s total e s' :
      wants_more si s = true ->
      page_total si (fst s) = Ok total ->
      _scrape_page cursor (asking page total s) = (Raise e, s') ->
      paginates si job_list page cursor s (Raise e) s'.

(** What [scrape] returns for an outcome of the machine: the slice of the
    job list, or the fault. *)
Definition sliced (si : ScraperInput) (outcome : res (list JobPost)) :
    res (option JobResponse) :=
  match outcome with
  | Ok job_list =>
      Ok (Some {| jobs := py_slice (offset si) (offset si + results_wanted si) job_list |})
  | Raise e => Raise e
  end.

End PaginationSpec.

(** ** Timeouts *)

(** The timeout argument each kind of call is made with. *)
Definition timeout_of_channel (c : channel) : option Z :=
  match c with
  | HtmlSession => None
  | Session | ReqLib => Some 10
  end.

(** Modelled from the spec: the sessions are built by [create_session] of
    jobspy.util, which is not among the sources. The spec gives every
    network call "a bounded per-request timeout (provider API: fixed short
    timeout; fallback fetch: a separate fixed short timeout)". A call that
    names a timeout is bounded by it; the browser-fingerprint session,
    whose call names none, bounds the fallback fetch by the fixed timeout
    it was built with, [html_session_timeout]; the two other clients have
    no timeout of their own. *)
Definition request_timeout `{Env} (r : request) : option Z :=
  match req_timeout r with
  | Some seconds => Some seconds
  | None =>
      match req_channel r with
      | HtmlSession => Some (Z.pos html_session_timeout)
      | Session | ReqLib => None
      end
  end.

(** ** The parts of a record *)

Section Parts.

Context `{Env}.

(** The entries [_process_job] subscripts without a guard, and the helpers
    it calls on them. *)
Record required : Type := {
  r_key : pyval;
  r_description : pyval;
  r_job_type : pyval;
  r_date : string;
  r_title : pyval;
  r_compensation : pyval;
  r_emails : pyval;
  r_remote : pyval
}.

Definition required_part (si : ScraperInput) (job : pyval) : res required :=
  rbind (getitem job "description") (fun d =>
  rbind (getitem d "html") (fun html =>
  rbind (match description_format si with
         | MARKDOWN => markdown_converter html
         | PLAIN => Ok html
         end) (fun description =>
  rbind (getitem job "attributes") (fun attributes =>
  rbind (get_job_type attributes) (fun job_type =>
  rbind (getitem job "datePublished") (fun published =>
  rbind (date_posted_of published) (fun date =>
  rbind (getitem job "key") (fun key =>
  rbind (getitem job "title") (fun title =>
  rbind (getitem job "compensation") (fun c =>
  rbind (get_compensation c) (fun compensation =>
  rbind (if truthy description
         then extract_emails_from_text description
         else Ok PNone) (fun emails =>
  rbind (is_job_remote job description) (fun remote =>
  Ok {| r_key := key; r_description := description; r_job_type := job_type;
        r_date := date; r_title := title; r_compensation := compensation;
        r_emails := emails; r_remote := remote |}))))))))))))).

(** What [_process_job] takes from the employer of a record. *)
Record employer_fields : Type := {
  ef_name : pyval;
  ef_company_url : option string;
  ef_company_url_direct : pyval;
  ef_addresses : pyval;
  ef_industry : pyval;
  ef_num_employees : pyval;
  ef_revenue : pyval;
  ef_description : pyval;
  ef_logo : pyval
}.


(** The expressions of [_process_job] that read [job["employer"]], the
    dossier and the employer details. *)
Definition employer_part (self : Indeed) (job : pyval) : res employer_fields :=
  rbind (getitem job "employer") (fun e =>
  rbind (if truthy e then get e "dossier" else Ok PNone) (fun employer =>
  rbind (if truthy employer
         then get_default employer "employerDetails" (PDict [])
         else Ok (PDict [])) (fun employer_details =>
  rbind (if truthy e then getitem e "relativeCompanyPageUrl" else Ok PNone) (fun rel_url =>
  rbind (get job "employer") (fun e' =>
  rbind (if truthy e' then get e "name" else Ok PNone) (fun name =>
  rbind (if truthy employer
         then rbind (getitem employer "links") (fun l => getitem l "corporateWebsite")
         else Ok PNone) (fun company_url_direct =>
  rbind (get employer_details "addresses") (fun a =>
  rbind (if truthy a
         then rbind (getitem employer_details "addresses") index0
         else Ok PNone) (fun addresses =>
  rbind (get employer_details "industry") (fun i =>
  rbind (if truthy i
         then rbind (getitem employer_details "industry") clean_industry
         else Ok PNone) (fun industry =>
  rbind (get employer_details "employeesLocalizedLabel") (fun num_employees =>
  rbind (get employer_details "revenueLocalizedLabel") (fun revenue =>
  rbind (get employer_details "briefDescription") (fun brief =>
  rbind (if truthy employer
         then rbind (get employer "images") (fun im => Ok (truthy im))
         else Ok false) (fun has_logo =>
  rbind (if has_logo
         then rbind (getitem employer "images") (fun im => get im "squareLogoUrl")
         else Ok PNone) (fun logo =>
  Ok {| ef_name := name;
        ef_company_url :=
          if truthy e then Some (str_of_opt_str (base_url self) +:+ py_str rel_url)
          else None;
        ef_company_url_direct := company_url_direct;
        ef_addresses := addresses; ef_industry := industry;
        ef_num_employees := num_employees; ef_revenue := revenue;
        ef_description := brief; ef_logo := logo |})))))))))))))))).


(** The three fields read from [job.get("location", {})]. *)
Definition location_fields (job : pyval) : res Location :=
  rbind (rbind (get_default job "location" (PDict [])) (fun l => get l "city")) (fun city =>
  rbind (rbind (get_default job "location" (PDict [])) (fun l => get l "admin1Code"))
        (fun state =>
  rbind (rbind (get_default job "location" (PDict [])) (fun l => get l "countryCode"))
        (fun country =>
  Ok {| loc_city := city; loc_state := state; loc_country := country |}))).

(** [Location(city=..., state=..., country=...)] *)
Definition location_part (job : pyval) : res Location :=
  rbind (location_fields job) (fun loc =>
  rbind (validate_location loc) (fun _ => Ok loc)).

(** [job["recruit"].get("viewJobUrl") if job.get("recruit") else None] *)
Definition recruit_part (job : pyval) : res pyval :=
  rbind (get job "recruit") (fun r =>
  if truthy r then rbind (getitem job "recruit") (fun r => get r "viewJobUrl")
  else Ok PNone).

(** The company name of the posting and the state after it is resolved:
    the name of the employer when it is truthy, what the lookup gives
    otherwise (the lookup does not raise). *)
Definition resolve_company_name (name : pyval) (job_url : string) (s : state) :
    pyval * state :=
  if truthy name then (name, s)
  else match _fetch_company_name job_url s with
       | (Ok found, s') => (found, s')
       | (Raise _, s') => (PNone, s')
       end.

(** The posting made of the parts. *)
Definition assemble (job_url : string) (req : required) (ef : employer_fields)
    (loc : Location) (direct name : pyval) : JobPost :=
  {| post_id := "in-" +:+ py_str (r_key req);
     title := r_title req;
     description := r_description req;
     company_name := name;
     company_url := ef_company_url ef;
     company_url_direct := ef_company_url_direct ef;
     post_location := loc;
     post_job_type := r_job_type req;
     compensation := r_compensation req;
     date_posted := r_date req;
     job_url := job_url;
     job_url_direct := direct;
     emails := r_emails req;
     post_is_remote := r_remote req;
     company_addresses := ef_addresses ef;
     company_industry := ef_industry ef;
     company_num_employees := ef_num_employees ef;
     company_revenue := ef_revenue ef;
     company_description := ef_description ef;
     company_logo := ef_logo ef |}.

(** The state in which [_process_job] builds a posting: the URL is
    recorded. *)
Definition recorded (job_url : string) (s : state) : state :=
  (set_seen_urls ({[ job_url ]} ∪ seen_urls (fst s)) (fst s), snd s).

End Parts.

(** * Sample inputs *)

Module Samples.

(** Criteria that set every filter field at once. *)
Definition all_filters (h : option Z) : ScraperInput :=
  {| search_term := Some "engineer"; location := None; distance := Some 50;
     hours_old := h; job_type := Some FULL_TIME; is_remote := true;
     easy_apply := true; results_wanted := 2; offset := 0;
     description_format := PLAIN; country := ("www", "US") |}.

(** Plain criteria asking for [wanted] postings. *)
Definition criteria (wanted : Z) : ScraperInput :=
  {| search_term := Some "engineer"; location := Some "Berlin"; distance := Some 50;
     hours_old := None; job_type := None; is_remote := false;
     easy_apply := false; results_wanted := wanted; offset := 0;
     description_format := PLAIN; country := ("www", "US") |}.

Definition no_salary : pyval := PDict [("baseSalary", PNone); ("estimated", PNone)].

Definition formatted (long : string) : (string * pyval) :=
  ("formatted", PDict [("long", PStr long)]).

(** A raw record with every object present, published at [ms]. *)
Definition dated_job (key : string) (ms : pyval) : pyval :=
  PDict [("key", PStr key);
         ("title", PStr "Engineer");
         ("description", PDict [("html", PStr "<p>Build things</p>")]);
         ("attributes", PList []);
         ("datePublished", ms);
         ("employer", PDict [("name", PStr "Acme");
                             ("relativeCompanyPageUrl", PStr "/cmp/Acme");
                             ("dossier", PNone)]);
         ("compensation", no_salary);
         ("location", PDict [("city", PStr "Berlin"); ("admin1Code", PStr "BE");
                             ("countryCode", PStr "DE"); formatted "Berlin, BE"]);
         ("recruit", PDict [("viewJobUrl", PStr "https://acme.example/jobs/1")])].

Definition full_job (key : string) : pyval := dated_job key (PInt 1700000000000).

(** A raw record with a null employer, a location that names no city, and
    no recruiting links. *)
Definition sparse_job (key : string) : pyval :=
  PDict [("key", PStr key);
         ("title", PStr "Engineer");
         ("description", PDict [("html", PStr "<p>Build things</p>")]);
         ("attributes", PList []);
         ("datePublished", PInt 1700000000000);
         ("employer", PNone);
         ("compensation", no_salary);
         ("location", PDict [formatted "Remote"])].




(** A record that has a key and nothing else. *)
Definition key_only_job (key : string) : pyval := PDict [("key", PStr key)].

(** The body of an API response. *)
Definition page_body (records : list pyval) (next_cursor : pyval) : pyval :=
  PDict [("data",
          PDict [("jobSearch",
                  PDict [("results", PList (map (fun j => PDict [("job", j)]) records));
                         ("pageInfo", PDict [("nextCursor", next_cursor)])])])].

Definition ok_response (body : pyval) : response :=
  {| ok := true; status_code := 200; text := EmptyString; json := Ok body |}.

Definition html_response (html : string) : response :=
  {| ok := true; status_code := 200; text := html; json := Raise JSONDecodeError |}.

Definition error_response (code : Z) : response :=
  {| ok := false; status_code := code; text := EmptyString; json := Raise JSONDecodeError |}.

(** An answer without a body whose status is below 400: the client
    reports it as ok. *)
Definition bodiless_response (code : Z) : response :=
  {| ok := true; status_code := code; text := EmptyString; json := Raise JSONDecodeError |}.

(** The collaborators, over a given network and in a given zone. The
    helpers insist on what they read of a record: the attribute list, the
    two salary entries of the compensation, the formatted location. The
    constructor of a posting insists on a title that is a string. The C
    library does not pad the year, a page is one JSON-LD block when it is
    not empty, and the only text that parses is the block of Acme. *)
Definition env_in (zone : Z -> Z) (network : list request -> request -> res response) : Env :=
  {| net := network;
     api_headers := [("content-type", "application/json")];
     job_search_query := fun what location hours cursor filters =>
       "query { jobSearch(" +:+ what +:+ " " +:+ location +:+ " " +:+ cursor +:+ ") " +:+
       filters +:+ " }";
     markdown_converter := fun v => Ok v;
     get_job_type := fun attributes => rbind (iter attributes) (fun _ => Ok (PList []));
     get_compensation := fun c =>
       rbind (getitem c "baseSalary") (fun _ =>
       rbind (getitem c "estimated") (fun _ => Ok PNone));
     is_job_remote := fun job _ =>
       rbind (getitem job "attributes") (fun _ =>
       rbind (getitem job "location") (fun l =>
       rbind (getitem l "formatted") (fun f =>
       rbind (getitem f "long") (fun _ => Ok (PBool false)))));
     extract_emails_from_text := fun _ => Ok PNone;
     str_title := fun s => s;
     str_strip := fun s => s;
     py_repr := fun _ => "<object>";
     findall_ld_json := fun t => if String.eqb t EmptyString then [] else [t];
     json_loads := fun t =>
       if String.eqb t "acme"
       then Ok (PDict [("hiringOrganization", PDict [("name", PStr "Acme")])])
       else Raise JSONDecodeError;
     utc_offset := zone;
     pads_year := false;
     validate_location := fun _ => Ok tt;
     validate_post := fun post =>
       match title post with PStr _ => Ok tt | _ => Raise ValueError end;
     html_session_timeout := 30%positive |}.

(** The same in UTC. *)
Definition env (network : list request -> request -> res response) : Env :=
  env_in (fun _ => 0) network.

(** The API always answers with the same page; the job pages are refused. *)
Definition same_page (records : list pyval) : list request -> request -> res response :=
  fun _ r =>
    match req_channel r with
    | Session => Ok (ok_response (page_body records (PStr "next")))
    | _ => Ok (error_response 403)
    end.

(** The API refuses every call. *)
Definition blocked : list request -> request -> res response :=
  fun _ _ => Ok (error_response 403).

(** The API answers its first call with a page and refuses the calls that
    follow; the job pages are refused. *)
Definition refused_after_first (records : list pyval) :
    list request -> request -> res response :=
  fun before r =>
    match req_channel r with
    | Session =>
        if existsb (fun r' => match req_channel r' with Session => true | _ => false end)
             before
        then Ok (error_response 503)
        else Ok (ok_response (page_body records (PStr "next")))
    | _ => Ok (error_response 403)
    end.

(** The API answers every call with status 304 and no body. *)
Definition not_modified : list request -> request -> res response :=
  fun _ _ => Ok (bodiless_response 304).

(** No call gets through. *)
Definition offline : list request -> request -> res response :=
  fun _ _ => Raise ConnectionError.

(** The browser-fingerprint client cannot connect; the proxied client
    gets the page. *)
Definition tls_down : list request -> request -> res response :=
  fun _ r =>
    match req_channel r with
    | HtmlSession => Raise ConnectionError
    | _ => Ok (html_response "acme")
    end.

(** The browser-fingerprint client is refused; the proxied client gets the
    page. *)
Definition tls_refused : list request -> request -> res response :=
  fun _ r =>
    match req_channel r with
    | HtmlSession => Ok (error_response 403)
    | _ => Ok (html_response "acme")
    end.

(** A new scraper without and with a proxy, in a new world. *)
Definition fresh : state := (__init__ ProxiesNone None, world0).

Definition proxied : state := (__init__ (ProxiesStr "http://proxy.example:8080") None, world0).

(** A scraper in the middle of a session. *)
Definition in_session (wanted : Z) (s : state) : state :=
  (set_session (criteria wanted) (fst s), snd s).

End Samples.

(** * Properties *)

(** ** Text search *)

Lemma all_chars_uint d :
  all_chars is_int_char (NilEmpty.string_of_uint d) = true.
Proof. induction d; simpl; auto. Qed.

Lemma all_chars_str_of_int z : all_chars is_int_char (str_of_int z) = true.
Proof.
  unfold str_of_int. destruct (Z.to_int z); simpl; apply all_chars_uint.
Qed.

(** A needle whose first character is no digit and no minus sign does not
    start inside the decimal rendering of an integer. *)
Lemma contains_skip_int c needle' digits rest :
  is_int_char c = false ->
  all_chars is_int_char digits = true ->
  contains (String c needle') (digits +:+ rest) = contains (String c needle') rest.
Proof.
  intros Hc. induction digits as [|a digits IH]; simpl; intros Hd; [reflexivity|].
  apply andb_true_iff in Hd as [Ha Hd].
  destruct (Ascii.eqb c a) eqn:E.
  - apply Ascii.eqb_eq in E. subst a. congruence.
  - simpl. auto.
Qed.

Lemma append_cons c s r : String c s +:+ r = String c (s +:+ r).
Proof. reflexivity. Qed.

Lemma append_nil r : EmptyString +:+ r = r.
Proof. reflexivity. Qed.

Lemma starts_with_incompatible needle s r :
  compatible needle s = false -> starts_with needle (s +:+ r) = false.
Proof.
  revert s. induction needle as [|a n' IH]; intros [|b s']; simpl; try discriminate.
  destruct (Ascii.eqb a b); simpl; auto.
Qed.

Lemma contains_skip_prefix needle pre r :
  no_start_in needle pre = true ->
  contains needle (pre +:+ r) = contains needle r.
Proof.
  induction pre as [|c p' IH]; intros Hp; [reflexivity|].
  cbn [no_start_in] in Hp.
  apply andb_true_iff in Hp as [Hc Hp]. apply negb_true_iff in Hc.
  rewrite append_cons. cbn [contains].
  rewrite <- append_cons, (starts_with_incompatible _ _ _ Hc). simpl. auto.
Qed.

Lemma date_filter_split start :
  date_filter start = date_filter_head +:+ start +:+ date_filter_tail.
Proof. reflexivity. Qed.

(** A needle that starts with a letter and occurs neither in the head nor in
    the tail of the date filter does not occur in the filter. *)
Lemma date_filter_lacks c needle' z :
  is_int_char c = false ->
  no_start_in (String c needle') date_filter_head = true ->
  contains (String c needle') date_filter_tail = false ->
  contains (String c needle') (date_filter (str_of_int z)) = false.
Proof.
  intros Hc Hhead Htail.
  rewrite date_filter_split, contains_skip_prefix by exact Hhead.
  rewrite contains_skip_int by (exact Hc || apply all_chars_str_of_int).
  exact Htail.
Qed.

(** ** Calendar *)

Lemma all_from_spec P n : forall lo,
  all_from lo n P = true -> forall z, lo <= z < lo + Z.of_nat n -> P z = true.
Proof.
  induction n as [|n IH]; intros lo Hall z Hz; [lia|].
  cbn [all_from] in Hall. apply andb_true_iff in Hall as [Hlo Hrest].
  destruct (Z.eq_dec z lo) as [->|Hne]; [exact Hlo|].
  apply (IH (lo + 1) Hrest). lia.
Qed.

Lemma all_from_range P lo n z :
  all_from lo (Z.to_nat n) P = true -> lo <= z < lo + n -> P z = true.
Proof. intros Hall Hz. apply (all_from_spec _ _ _ Hall). lia. Qed.

Lemma era_checked : all_from 0 (Z.to_nat 146097) era_day_ok = true.
Proof. vm_cast_no_check (eq_refl true). Qed.

Lemma years_checked : all_from 1000 (Z.to_nat 9000) (fun y => four_digits (str_of_int y)) = true.
Proof. vm_compute. reflexivity. Qed.

Lemma pad2_checked : all_from 1 (Z.to_nat 31) (fun n => two_digits (pad2 n)) = true.
Proof. vm_compute. reflexivity. Qed.

(** Moving by whole eras moves the year by 400 and nothing else. *)
Lemma civil_from_days_era z k :
  civil_from_days (z + 146097 * k) =
  let '(y, m, d) := civil_from_days z in (y + 400 * k, m, d).
Proof.
  unfold civil_from_days.
  replace (z + 146097 * k + 719468) with (z + 719468 + k * 146097) by lia.
  rewrite Z.div_add by lia.
  replace (z + 719468 + k * 146097 - ((z + 719468) / 146097 + k) * 146097)
    with (z + 719468 - (z + 719468) / 146097 * 146097) by lia.
  cbv zeta.
  match goal with |- context [if ?c then _ else _] =>
    destruct c; f_equal; f_equal; lia end.
Qed.

Lemma leap_era y k : is_leap (y + 400 * k) = is_leap y.
Proof.
  unfold is_leap.
  replace (y + 400 * k) with (y + (100 * k) * 4) at 1 by lia.
  replace (y + 400 * k) with (y + (4 * k) * 100) at 1 by lia.
  replace (y + 400 * k) with (y + k * 400) by lia.
  rewrite !Z.mod_add by lia. reflexivity.
Qed.

Lemma days_from_civil_era y m d k :
  days_from_civil (y + 400 * k, m, d) = days_from_civil (y, m, d) + 146097 * k.
Proof.
  unfold days_from_civil.
  destruct (m <=? 2).
  - replace (y + 400 * k - 1) with (y - 1 + k * 400) by lia.
    rewrite Z.div_add by lia.
    replace (y - 1 + k * 400 - ((y - 1) / 400 + k) * 400)
      with (y - 1 - (y - 1) / 400 * 400) by lia.
    cbv zeta. lia.
  - replace (y + 400 * k) with (y + k * 400) by lia.
    rewrite Z.div_add by lia.
    replace (y + k * 400 - (y / 400 + k) * 400) with (y - y / 400 * 400) by lia.
    cbv zeta. lia.
Qed.

(** Every day number is a valid date, and the date determines the day. *)
Lemma civil_from_days_correct z :
  valid_date (civil_from_days z) = true /\
  days_from_civil (civil_from_days z) = z.
Proof.
  set (k := (z + 719468) / 146097).
  set (doe := (z + 719468) mod 146097).
  assert (Hz : z = doe - 719468 + 146097 * k).
  { unfold doe, k. pose proof (Z.div_mod (z + 719468) 146097). lia. }
  assert (Hdoe : 0 <= doe < 0 + 146097).
  { unfold doe. pose proof (Z.mod_pos_bound (z + 719468) 146097). lia. }
  pose proof (all_from_range _ _ _ _ era_checked Hdoe) as Hok.
  unfold era_day_ok in Hok. apply andb_true_iff in Hok as [Hv Hr].
  apply Z.eqb_eq in Hr.
  rewrite Hz at 1 2. rewrite civil_from_days_era.
  destruct (civil_from_days (doe - 719468)) as [[y m] d].
  split.
  - unfold valid_date, days_in_month in *. rewrite leap_era. exact Hv.
  - rewrite days_from_civil_era, Hr. lia.
Qed.
Lemma is_ymd_string_strftime pads y m d :
  four_digits (year_string pads y) = true ->
  two_digits (pad2 m) = true ->
  two_digits (pad2 d) = true ->
  is_ymd_string (strftime_ymd pads (y, m, d)) = true.
Proof.
  unfold strftime_ymd. intros Hy Hm Hd.
  destruct (year_string pads y) as [|y1 [|y2 [|y3 [|y4 [|? ?]]]]]; try discriminate Hy.
  destruct (pad2 m) as [|m1 [|m2 [|? ?]]]; try discriminate Hm.
  destruct (pad2 d) as [|d1 [|d2 [|? ?]]]; try discriminate Hd.
  repeat (rewrite append_cons || rewrite append_nil).
  cbn -[is_digit] in *.
  rewrite !andb_true_iff in *. intuition auto.
Qed.

Lemma days_in_month_le y m : days_in_month y m <= 31.
Proof.
  unfold days_in_month.
  repeat match goal with |- context [if ?c then _ else _] => destruct c end; lia.
Qed.

Lemma padded_years_checked :
  all_from 1 (Z.to_nat 9999) (fun y => four_digits (year_string true y)) = true.
Proof. vm_compute. reflexivity. Qed.

Lemma year_string_from_1000 pads y : 1000 <= y -> year_string pads y = str_of_int y.
Proof.
  intros Hy. unfold year_string. destruct pads; [|reflexivity].
  destruct (Z.ltb_spec y 10); [lia|]. destruct (Z.ltb_spec y 100); [lia|].
  destruct (Z.ltb_spec y 1000); [lia|]. reflexivity.
Qed.

(** From year 1000 to year 9999 the rendering has the shape YYYY-MM-DD, and
    from year 1 on where the C library pads the year. *)
Lemma strftime_shape pads z :
  1 <= year_of_day z <= 9999 ->
  1000 <= year_of_day z \/ pads = true ->
  is_ymd_string (strftime_ymd pads (civil_from_days z)) = true.
Proof.
  unfold year_of_day.
  destruct (civil_from_days_correct z) as [Hv _].
  destruct (civil_from_days z) as [[y m] d]. cbn [fst]. intros Hy Hp.
  unfold valid_date in Hv.
  repeat (apply andb_true_iff in Hv as [Hv ?]).
  pose proof (days_in_month_le y m).
  apply is_ymd_string_strftime.
  - destruct Hp as [Hp| ->].
    + rewrite year_string_from_1000 by exact Hp.
      apply (all_from_range _ _ _ _ years_checked). lia.
    + apply (all_from_range _ _ _ _ padded_years_checked). lia.
  - apply (all_from_range _ _ _ _ pad2_checked). lia.
  - apply (all_from_range _ _ _ _ pad2_checked). lia.
Qed.

(** *** The order of days and years *)

Lemma days_to_march_next y :
  days_to_march y + 365 <= days_to_march (y + 1) <= days_to_march y + 366.
Proof. unfold days_to_march. Z.div_mod_to_equations. lia. Qed.

Lemma days_to_march_mono a b : a <= b -> days_to_march a + 365 * (b - a) <= days_to_march b.
Proof.
  intros Hab. replace b with (a + Z.of_nat (Z.to_nat (b - a))) by lia.
  induction (Z.to_nat (b - a)) as [|n IH].
  - replace (a + Z.of_nat 0) with a by lia. lia.
  - pose proof (days_to_march_next (a + Z.of_nat n)).
    replace (a + Z.of_nat (S n)) with (a + Z.of_nat n + 1) by lia. lia.
Qed.

(** The days of year [y] lie between its first of January and its last of
    December. *)
Lemma days_from_civil_bounds y m d :
  valid_date (y, m, d) = true ->
  days_to_march (y - 1) + 306 <= days_from_civil (y, m, d) + 719468 <= days_to_march y + 305.
Proof.
  unfold valid_date. intros Hv.
  repeat (apply andb_true_iff in Hv as [Hv ?]).
  apply Z.leb_le in Hv.
  repeat match goal with Hx : (_ <=? _) = true |- _ => apply Z.leb_le in Hx end.
  assert (Hd : d <= 31) by (pose proof (days_in_month_le y m); lia).
  assert (Hfeb : m = 2 -> d <= 29).
  { intros ->. unfold days_in_month in *. cbn in *. destruct (is_leap y); lia. }
  unfold days_from_civil, days_to_march.
  destruct (Z.leb_spec m 2) as [Hm|Hm].
  - destruct (Z.ltb_spec 2 m); [lia|].
    assert (Hc : m = 1 \/ m = 2) by lia.
    destruct Hc as [-> | ->]; [|specialize (Hfeb eq_refl)];
      cbv zeta; Z.div_mod_to_equations; lia.
  - destruct (Z.ltb_spec 2 m); [|lia].
    cbv zeta. Z.div_mod_to_equations. lia.
Qed.

Lemma day_bounds z :
  days_to_march (year_of_day z - 1) + 306 <= z + 719468 <= days_to_march (year_of_day z) + 305.
Proof.
  unfold year_of_day.
  destruct (civil_from_days_correct z) as [Hv Hr].
  destruct (civil_from_days z) as [[y m] d]. cbn [fst].
  rewrite <- Hr. by apply days_from_civil_bounds.
Qed.

Lemma year_of_day_mono z z' : z <= z' -> year_of_day z <= year_of_day z'.
Proof.
  intros Hz. pose proof (day_bounds z). pose proof (day_bounds z').
  destruct (Z.le_gt_cases (year_of_day z) (year_of_day z')) as [|Hgt]; [assumption|].
  pose proof (days_to_march_mono (year_of_day z') (year_of_day z - 1)). lia.
Qed.

(** Days less than a year apart lie in the same year or in two years that
    follow each other. *)
Lemma year_of_day_near z z' :
  z <= z' <= z + 365 -> year_of_day z <= year_of_day z' <= year_of_day z + 1.
Proof.
  intros Hz. split; [apply year_of_day_mono; lia|].
  pose proof (day_bounds z). pose proof (day_bounds z').
  destruct (Z.le_gt_cases (year_of_day z') (year_of_day z + 1)) as [|Hgt]; [assumption|].
  pose proof (days_to_march_mono (year_of_day z) (year_of_day z' - 1)).
  pose proof (days_to_march_next (year_of_day z)). lia.
Qed.

(** *** Floats *)

Lemma round_half_even_bounds n d :
  0 < d ->
  2 * (d * Float.round_half_even n d) - d <= 2 * n <= 2 * (d * Float.round_half_even n d) + d.
Proof.
  intros Hd. unfold Float.round_half_even.
  pose proof (Z.div_mod n d ltac:(lia)) as Hn.
  pose proof (Z.mod_pos_bound n d Hd) as Hr.
  set (q := n / d) in *. set (r := n mod d) in *.
  destruct (Z.ltb_spec (2 * r) d); [nia|].
  destruct (Z.ltb_spec d (2 * r)); [nia|].
  destruct (Z.even q); nia.
Qed.

Lemma ratio_log2_1000 n : 0 < n < 2 ^ 53 -> Float.ratio_log2 n 1000 <= 43.
Proof.
  intros Hn. unfold Float.ratio_log2.
  assert (Z.log2 n < 53) by (apply Z.log2_lt_pow2; lia).
  change (Z.log2 1000) with 9.
  match goal with |- context [if ?c then _ else _] => destruct c end; lia.
Qed.

(** The float quotient of a timestamp by 1000 has the whole seconds of the
    exact quotient, for every timestamp that a float holds exactly. *)
Lemma floor_truediv_1000 ms :
  - 2 ^ 53 < ms < 2 ^ 53 ->
  exists x, Float.truediv ms 1000 = Ok x /\ Float.floor x = ms / 1000.
Proof.
  intros Hms. unfold Float.truediv. cbn [Z.eqb].
  destruct (Z.eqb_spec ms 0) as [->|Hne].
  { eexists. split; reflexivity. }
  change (Z.abs 1000) with 1000. change (Z.sgn 1000) with 1.
  set (n := Z.abs ms).
  assert (Hn : 0 < n < 2 ^ 53) by (unfold n; lia).
  pose proof (ratio_log2_1000 n Hn) as Hk.
  set (e := Z.max (Float.ratio_log2 n 1000 - 52) (- 1074)).
  assert (He : - 1074 <= e <= - 9) by (unfold e; lia).
  destruct (Z.leb_spec 0 e); [lia|].
  set (S := 2 ^ (- e)).
  assert (HS : 512 <= S).
  { unfold S. change 512 with (2 ^ 9). apply Z.pow_le_mono_r; lia. }
  replace (2 ^ e) with 0 by (symmetry; apply Z.pow_neg_r; lia).
  rewrite Z.mul_0_r. cbn [Z.leb Z.compare].
  change (2 ^ 1024 <=? 0) with false. cbv iota.
  eexists. split; [reflexivity|].
  unfold Float.floor. cbn [Float.mant Float.expo].
  destruct (Z.leb_spec 0 e); [lia|]. fold S.
  set (m := Float.round_half_even (n * S) 1000).
  pose proof (round_half_even_bounds (n * S) 1000 ltac:(lia)) as Hm. fold m in Hm.
  pose proof (Z.div_mod n 1000 ltac:(lia)) as Hq.
  pose proof (Z.mod_pos_bound n 1000 ltac:(lia)) as Hr.
  set (Q := n / 1000) in *. set (R := n mod 1000) in *.
  destruct (Z.lt_ge_cases ms 0) as [Hneg|Hpos].
  - replace (Z.sgn ms) with (-1) by (symmetry; apply Z.sgn_neg; lia).
    assert (Hms' : ms = - n) by (unfold n; lia).
    destruct (Z.eq_dec R 0) as [HR|HR].
    + assert (m = Q * S) by nia.
      replace (-1 * 1 * m) with (- Q * S) by lia.
      rewrite Z.div_mul by lia.
      apply Z.div_unique with (r := 0); lia.
    + symmetry. transitivity (- (Q + 1)).
      * symmetry. apply Z.div_unique with (r := 1000 - R); lia.
      * apply Z.div_unique with (r := (Q + 1) * S - m); nia.
  - replace (Z.sgn ms) with 1 by (symmetry; apply Z.sgn_pos; lia).
    assert (Hms' : ms = n) by (unfold n; lia).
    rewrite Hms'. fold Q. replace (1 * 1 * m) with m by lia.
    symmetry. apply Z.div_unique with (r := m - Q * S); nia.
Qed.

(** *** The date of a timestamp *)

(** Decides the comparisons of a goal. *)
Ltac decide_comparisons :=
  repeat match goal with
         | |- context [Z.leb ?a ?b] => destruct (Z.leb_spec a b)
         | |- context [Z.ltb ?a ?b] => destruct (Z.ltb_spec a b)
         end;
  cbn [andb negb rbind]; try reflexivity; try discriminate; try lia.

Lemma day_range z : 1 <= year_of_day z <= 9999 -> - 719162 <= z <= 2932896.
Proof.
  intros Hy. pose proof (day_bounds z) as Hz.
  pose proof (days_to_march_mono 0 (year_of_day z - 1) ltac:(lia)) as Hlo.
  pose proof (days_to_march_mono (year_of_day z) 9999 ltac:(lia)) as Hhi.
  change (days_to_march 0) with 0 in Hlo.
  change (days_to_march 9999) with 3652059 in Hhi. lia.
Qed.

Lemma local_day_ok offset t :
  1 <= year_of_day ((t + offset t) / 86400) <= 9999 ->
  local_day offset t = Ok ((t + offset t) / 86400).
Proof.
  intros Hy. unfold local_day. fold (year_of_day ((t + offset t) / 86400)).
  change (2 ^ 31) with 2147483648. decide_comparisons.
Qed.

Lemma local_day_inv offset t day :
  local_day offset t = Ok day ->
  day = (t + offset t) / 86400 /\ 1 <= year_of_day day <= 9999.
Proof.
  unfold local_day. fold (year_of_day ((t + offset t) / 86400)).
  destruct (negb _); [discriminate|].
  destruct (Z.leb_spec 1 (year_of_day ((t + offset t) / 86400)));
    destruct (Z.leb_spec (year_of_day ((t + offset t) / 86400)) 9999);
    cbn [andb negb]; try discriminate.
  intros [= <-]. lia.
Qed.

(** What [fromtimestamp] answers when it answers. *)
Lemma fromtimestamp_inv offset x ymd :
  fromtimestamp offset x = Ok ymd ->
  let t := Float.floor x in
  ymd = civil_from_days ((t + offset t) / 86400) /\
  1 <= year_of_day ((t + offset t) / 86400) <= 9999.
Proof.
  unfold fromtimestamp. cbv zeta.
  destruct (negb _); [discriminate|].
  destruct (local_day offset (Float.floor x)) as [day|] eqn:Hday; [|discriminate].
  apply local_day_inv in Hday as [-> Hy]. cbn [rbind].
  destruct (local_day offset (Float.floor x - 86400)); [|discriminate]. cbn [rbind].
  match goal with |- context [rbind ?r _] => destruct r end; [|discriminate].
  cbn [rbind]. intros [= <-]. auto.
Qed.

(** In a zone within a day of UTC, an instant whose local day lies in the
    years 2 to 9998 is converted: the days [fromtimestamp] looks at beside
    it lie at most three days before and two days after. *)
Lemma fromtimestamp_ok offset x :
  (forall t, - 86400 <= offset t <= 86400) ->
  let t := Float.floor x in
  2 <= year_of_day ((t + offset t) / 86400) <= 9998 ->
  fromtimestamp offset x = Ok (civil_from_days ((t + offset t) / 86400)).
Proof.
  intros Hzone t Hy. unfold fromtimestamp. fold t.
  set (day := (t + offset t) / 86400) in *.
  pose proof (day_range day ltac:(lia)) as Hday.
  pose proof (Hzone t) as Ht.
  assert (Hdiv : 86400 * day <= t + offset t < 86400 * day + 86400).
  { unfold day. pose proof (Z.div_mod (t + offset t) 86400 ltac:(lia)).
    pose proof (Z.mod_pos_bound (t + offset t) 86400 ltac:(lia)). lia. }
  change (2 ^ 63) with 9223372036854775808.
  destruct (Z.leb_spec (- (9223372036854775808)) t); [|lia].
  destruct (Z.leb_spec t 9223372036854775808); [|lia].
  cbn [andb negb].
  rewrite local_day_ok by (fold day; lia). cbn [rbind]. fold day.
  assert (Hnear : forall t', t - 259200 <= t' + offset t' <= t + 259200 ->
                             local_day offset t' = Ok ((t' + offset t') / 86400)).
  { intros t' Ht'. apply local_day_ok.
    set (day' := (t' + offset t') / 86400).
    assert (day - 5 <= day' <= day + 5).
    { unfold day'. split.
      - apply Z.div_le_lower_bound; lia.
      - apply Z.div_le_upper_bound; lia. }
    destruct (Z.le_gt_cases day' day).
    + pose proof (year_of_day_near day' day ltac:(lia)). lia.
    + pose proof (year_of_day_near day day' ltac:(lia)). lia. }
  pose proof (Hzone (t - 86400)) as Ht1.
  rewrite (Hnear (t - 86400)) by lia. cbn [rbind].
  destruct (Z.ltb_spec (offset t - offset (t - 86400)) 0); [|reflexivity].
  pose proof (Hzone (t + (offset t - offset (t - 86400)))) as Ht2.
  rewrite Hnear by lia. reflexivity.
Qed.

Section DateLemmas.

Context `{Env}.

Lemma date_of_ms_inv ms str :
  - 2 ^ 53 < ms < 2 ^ 53 ->
  date_of_ms ms = Ok str ->
  let day := (ms / 1000 + utc_offset (ms / 1000)) / 86400 in
  str = strftime_ymd pads_year (civil_from_days day) /\ 1 <= year_of_day day <= 9999.
Proof.
  intros Hms. unfold date_of_ms.
  destruct (floor_truediv_1000 ms Hms) as (x & -> & Hx). cbn [rbind].
  destruct (fromtimestamp utc_offset x) as [ymd|] eqn:Hymd; [|discriminate].
  apply fromtimestamp_inv in Hymd. rewrite Hx in Hymd. destruct Hymd as [-> Hy].
  cbn [rbind]. intros [= <-]. auto.
Qed.

Lemma date_of_ms_in_range ms :
  (forall t, - 86400 <= utc_offset t <= 86400) ->
  let day := (ms / 1000 + utc_offset (ms / 1000)) / 86400 in
  2 <= year_of_day day <= 9998 ->
  date_of_ms ms = Ok (strftime_ymd pads_year (civil_from_days day)).
Proof.
  intros Hzone day Hy.
  assert (Hms : - 2 ^ 53 < ms < 2 ^ 53).
  { pose proof (day_range day ltac:(lia)) as Hday.
    pose proof (Hzone (ms / 1000)).
    unfold day in Hday.
    change (2 ^ 53) with 9007199254740992.
    Z.div_mod_to_equations. lia. }
  unfold date_of_ms.
  destruct (floor_truediv_1000 ms Hms) as (x & -> & Hx). cbn [rbind].
  rewrite fromtimestamp_ok; rewrite ?Hx; auto.
Qed.

End DateLemmas.
(** ** Deduplication in arrival order *)

Lemma fresh_urls_elem seen urls u :
  u ∈ fresh_urls seen urls -> (u ∉ seen) /\ (u ∈ urls).
Proof.
  revert seen. induction urls as [|v rest IH]; intros seen; cbn [fresh_urls].
  - intros Hin. inversion Hin.
  - case_bool_decide as Hv.
    + intros Hin. destruct (IH _ Hin). split; [assumption|]. by right.
    + intros Hin. apply elem_of_cons in Hin as [->|Hin].
      * split; [assumption|]. by left.
      * destruct (IH _ Hin) as [Hn ?]. split; [set_solver|]. by right.
Qed.

Lemma NoDup_fresh_urls seen urls : NoDup (fresh_urls seen urls).
Proof.
  revert seen. induction urls as [|v rest IH]; intros seen; cbn [fresh_urls].
  - constructor.
  - case_bool_decide as Hv; [apply IH|].
    constructor; [|apply IH].
    intros Hin. apply fresh_urls_elem in Hin as [Hn _]. set_solver.
Qed.

Lemma fresh_urls_app seen l1 l2 :
  fresh_urls seen (l1 ++ l2) =
  (fresh_urls seen l1 ++ fresh_urls (list_to_set l1 ∪ seen) l2)%list.
Proof.
  revert seen. induction l1 as [|v rest IH]; intros seen; cbn [fresh_urls app list_to_set].
  - by rewrite (left_id_L ∅ (∪)).
  - case_bool_decide as Hv.
    + rewrite IH. f_equal. f_equal. set_solver.
    + cbn [app]. rewrite IH. f_equal. f_equal. f_equal. set_solver.
Qed.

Lemma size_fresh_urls seen urls :
  size ((list_to_set urls ∪ seen) : gset string) =
  (size seen + length (fresh_urls seen urls))%nat.
Proof.
  revert seen. induction urls as [|v rest IH]; intros seen; cbn [fresh_urls list_to_set].
  - rewrite (left_id_L ∅ (∪)). cbn. lia.
  - case_bool_decide as Hv.
    + rewrite <- IH. f_equal. set_solver.
    + cbn [length].
      replace ({[v]} ∪ list_to_set rest ∪ seen) with (list_to_set rest ∪ ({[v]} ∪ seen))
        by set_solver.
      rewrite IH, size_union, size_singleton by set_solver. lia.
Qed.

Lemma fresh_urls_all_seen seen urls :
  (forall u, u ∈ urls -> u ∈ seen) -> fresh_urls seen urls = [].
Proof.
  induction urls as [|v rest IH]; intros Hall; cbn [fresh_urls]; [reflexivity|].
  rewrite bool_decide_eq_true_2 by (apply Hall; by left).
  apply IH. intros u Hu. apply Hall. by right.
Qed.

(** ** Methods *)

Section MethodLemmas.

Context `{Env}.

Lemma wp_ret {A} (a : A) s Q : wp (ret a) s Q <-> Q (Ok a) s.
Proof. reflexivity. Qed.

Lemma wp_lift {A} (r : res A) s Q : wp (lift r) s Q <-> Q r s.
Proof. reflexivity. Qed.

Lemma wp_get_self s Q : wp get_self s Q <-> Q (Ok (fst s)) s.
Proof. reflexivity. Qed.

Lemma wp_bind {A B} (m : M A) (f : A -> M B) s Q :
  wp (bind m f) s Q <->
  wp m s (fun r s' => match r with
                      | Ok a => wp (f a) s' Q
                      | Raise e => Q (Raise e) s'
                      end).
Proof. unfold wp, bind. destruct (m s) as [[a|e] s']; reflexivity. Qed.

Lemma wp_bind_intro {A B} (m : M A) (f : A -> M B) s Q :
  wp m s (fun r s' => match r with
                      | Ok a => wp (f a) s' Q
                      | Raise e => Q (Raise e) s'
                      end) ->
  wp (bind m f) s Q.
Proof. apply wp_bind. Qed.

Lemma wp_bind_lift {A B} (r : res A) (f : A -> M B) s Q :
  match r with
  | Ok a => wp (f a) s Q
  | Raise e => Q (Raise e) s
  end ->
  wp (bind (lift r) f) s Q.
Proof. intros Hr. apply wp_bind_intro. exact Hr. Qed.

Lemma wp_bind_self {B} (f : Indeed -> M B) s Q :
  wp (f (fst s)) s Q -> wp (bind get_self f) s Q.
Proof. intros Hf. apply wp_bind_intro. exact Hf. Qed.

Lemma wp_ret_intro {A} (a : A) s (Q : res A -> state -> Prop) :
  Q (Ok a) s -> wp (ret a) s Q.
Proof. auto. Qed.

Lemma wp_try_except {A} (m : M A) (h : exn -> M A) s Q :
  wp (try_except m h) s Q <->
  wp m s (fun r s' => match r with
                      | Ok a => Q (Ok a) s'
                      | Raise e => wp (h e) s' Q
                      end).
Proof. unfold wp, try_except. destruct (m s) as [[a|e] s']; reflexivity. Qed.

Lemma wp_mono {A} (m : M A) s (Q Q' : res A -> state -> Prop) :
  (forall r s', Q r s' -> Q' r s') -> wp m s Q -> wp m s Q'.
Proof. unfold wp. auto. Qed.

Lemma wp_run {A} (m : M A) s Q r s' : m s = (r, s') -> wp m s Q -> Q r s'.
Proof. unfold wp. intros ->. auto. Qed.

Lemma set_seen_urls_same self : set_seen_urls (seen_urls self) self = self.
Proof. destruct self; reflexivity. Qed.

Lemma set_seen_urls_twice X Y self :
  set_seen_urls X (set_seen_urls Y self) = set_seen_urls X self.
Proof. reflexivity. Qed.

Lemma extends_refl s : extends s s.
Proof.
  split.
  - reflexivity.
  - symmetry. apply set_seen_urls_same.
  - exists []. rewrite app_nil_r. auto.
  - exists []. rewrite app_nil_r. auto.
Qed.

Lemma extends_trans s1 s2 s3 : extends s1 s2 -> extends s2 s3 -> extends s1 s3.
Proof.
  intros [S1 F1 (n1 & E1 & P1) (l1 & L1)] [S2 F2 (n2 & E2 & P2) (l2 & L2)].
  split.
  - etransitivity; eassumption.
  - transitivity (set_seen_urls (seen_urls (fst s3)) (fst s2)); [exact F2|].
    rewrite F1. apply set_seen_urls_twice.
  - exists (app n1 n2). rewrite E2, E1, <- app_assoc, forallb_app, P1, P2. auto.
  - exists (app l1 l2). rewrite L2, L1, <- app_assoc. auto.
Qed.

(** *** Company-name fallback *)

Lemma first_organization_name_some matches name :
  first_organization_name matches = Ok (Some name) -> truthy name = true.
Proof.
  induction matches as [|m rest IH]; simpl; [discriminate|].
  destruct (rbind (json_loads m) _) as [v|e].
  - destruct (truthy v) eqn:E; [|exact IH]. intros [= <-]. exact E.
  - destruct e; auto; discriminate.
Qed.

(** The lookup never raises, leaves the instance alone, sends exactly
    [fallback_requests] and answers [None] when every tier failed. *)
Lemma fetch_company_name_spec job_url self w :
  exists name w',
    _fetch_company_name job_url (self, w) = (Ok name, (self, w')) /\
    sent w' = app (sent w) (fallback_requests self w job_url) /\
    (exists new, logged w' = app (logged w) new) /\
    (tiers_failed self w job_url = true -> name = PNone) /\
    (name <> PNone -> truthy name = true).
Proof.
  pose proof first_organization_name_some as Hname.
  unfold _fetch_company_name, try_except, bind, get_self, send, fallback_requests,
    tiers_failed, log_info, log_warning, ret, lift.
  cbn [fst snd sent logged].
  destruct (net (sent w) (tls_request job_url)) as [first|e]; cbn [fst snd sent logged];
    [destruct (ok first) eqn:Eok1; cbn [negb andb fst snd sent logged];
     [|destruct (_fallback_proxies self) as [p|]; cbn [is_some fst snd sent logged];
       [destruct (net (app (sent w) [tls_request job_url]) (proxy_request self job_url))
          as [second|e]; cbn [fst snd sent logged];
        [destruct (ok second) eqn:Eok2; cbn [negb fst snd sent logged]|]|]]|];
    rewrite ?Eok1, ?Eok2; cbn [negb fst snd sent logged];
    try (destruct (first_organization_name _) as [[name|]|e'] eqn:E);
    cbn [fst snd sent logged];
    eexists _, _; (split; [reflexivity|]); cbn [sent logged];
    rewrite <- ?app_assoc; repeat split; eauto; try congruence.
  exists []. symmetry. apply app_nil_r.
Qed.

Lemma forallb_fallback_requests self w job_url :
  forallb call_shape (fallback_requests self w job_url) = true.
Proof.
  unfold fallback_requests. cbn.
  destruct (net (sent w) (tls_request job_url)) as [r|e]; [|reflexivity].
  destruct (negb (ok r) && is_some (_fallback_proxies self)); reflexivity.
Qed.

Lemma wp_fetch_company_name job_url s (Q : res pyval -> state -> Prop) :
  (forall name w',
     sent w' = app (sent (snd s)) (fallback_requests (fst s) (snd s) job_url) ->
     extends s (fst s, w') ->
     (tiers_failed (fst s) (snd s) job_url = true -> name = PNone) ->
     Q (Ok name) (fst s, w')) ->
  wp (_fetch_company_name job_url) s Q.
Proof.
  destruct s as [self w]. intros HQ.
  destruct (fetch_company_name_spec job_url self w) as (name & w' & E & Hs & Hl & Hn & _).
  unfold wp. rewrite E. cbn [fst snd] in *. apply HQ; auto.
  split; cbn [fst snd].
  - reflexivity.
  - symmetry. apply set_seen_urls_same.
  - eexists. split; [exact Hs|]. apply forallb_fallback_requests.
  - exact Hl.
Qed.

(** One step of a method body: a pure expression that may raise. *)
Ltac wp_pure :=
  match goal with
  | |- wp (bind (lift ?r) _) _ _ =>
      let E := fresh "E" in
      apply wp_bind_lift; destruct r eqn:E
  end.

(** What [build_post] guarantees: only the lookup touches the world, and a
    posting carries the URL it was built for and the date of its
    [datePublished] field. *)
Lemma wp_build_post job url s :
  wp (build_post job url) s (fun r s' =>
    fst s' = fst s /\ extends s s' /\
    forall post, r = Ok post ->
      job_url post = url /\
      exists v, getitem job "datePublished" = Ok v /\
                date_posted_of v = Ok (date_posted post)).
Proof.
  pose proof (extends_refl s) as Hs.
  unfold build_post.
  apply wp_bind_self.
  repeat (wp_pure; [|split; [|split]; auto; congruence]).
  apply wp_bind_intro.
  match goal with |- wp (if ?b then _ else _) _ _ => destruct b end.
  - apply wp_ret_intro.
    repeat (wp_pure; [|split; [|split]; auto; congruence]).
    apply wp_ret_intro. split; [|split]; auto.
    intros post [= <-]. cbn. eauto.
  - apply wp_fetch_company_name. intros name w' _ Hext _.
    repeat (wp_pure; [|split; [|split]; auto; congruence]).
    apply wp_ret_intro. split; [|split]; auto.
    intros post [= <-]. cbn. eauto.
Qed.

(** *** Job normalizer *)

Lemma extends_add_seen url s :
  extends s (set_seen_urls ({[ url ]} ∪ seen_urls (fst s)) (fst s), snd s).
Proof.
  split; cbn [fst snd].
  - set_solver.
  - reflexivity.
  - exists []. rewrite app_nil_r. auto.
  - exists []. rewrite app_nil_r. auto.
Qed.

Lemma extends_base_url s s' : extends s s' -> base_url (fst s') = base_url (fst s).
Proof. intros [_ E _ _]. rewrite E. reflexivity. Qed.

Lemma extends_scraper_input s s' :
  extends s s' -> scraper_input (fst s') = scraper_input (fst s).
Proof. intros [_ E _ _]. rewrite E. reflexivity. Qed.

(** A record without a key raises before anything is recorded. *)
Lemma process_job_no_key job s e :
  canonical_url (fst s) job = Raise e -> _process_job job s = (Raise e, s).
Proof.
  unfold canonical_url, _process_job, bind, get_self, lift. cbn [fst snd].
  destruct (getitem job "key"); cbn; [discriminate|]. intros [= ->]. reflexivity.
Qed.

(** A record whose URL is in [seen_urls] yields nothing and changes nothing. *)
Lemma process_job_seen job s url :
  canonical_url (fst s) job = Ok url -> url ∈ seen_urls (fst s) ->
  _process_job job s = (Ok None, s).
Proof.
  unfold canonical_url, _process_job, bind, get_self, lift. cbn [fst snd].
  destruct (getitem job "key"); cbn; [|discriminate]. intros [= ->] Hin.
  rewrite bool_decide_eq_true_2 by exact Hin. reflexivity.
Qed.

(** A record whose URL is new: the URL is recorded whatever happens next,
    and a posting, if one is built, carries it. *)
Lemma process_job_fresh job s url :
  canonical_url (fst s) job = Ok url -> url ∉ seen_urls (fst s) ->
  exists r s',
    _process_job job s = (r, s') /\
    seen_urls (fst s') = {[ url ]} ∪ seen_urls (fst s) /\
    extends s s' /\
    r <> Ok None /\
    forall post, r = Ok (Some post) ->
      job_url post = url /\
      exists v, getitem job "datePublished" = Ok v /\
                date_posted_of v = Ok (date_posted post).
Proof.
  unfold canonical_url, _process_job, bind at 1 2, get_self, lift. cbn [fst snd].
  destruct (getitem job "key") as [key|]; cbn [rbind]; [|discriminate].
  intros [= Hurl] Hnew. rewrite Hurl.
  rewrite bool_decide_eq_false_2 by exact Hnew.
  unfold bind, add_seen. cbn [fst snd].
  set (s1 := (set_seen_urls ({[ url ]} ∪ seen_urls (fst s)) (fst s), snd s)).
  pose proof (wp_build_post job url s1) as Hb. unfold wp in Hb.
  destruct (build_post job url s1) as [[post|e] s2]; cbn [fst snd] in Hb;
    destruct Hb as (Hself & Hext & Hpost);
    eexists _, _; (split; [reflexivity|]).
  - rewrite Hself. split; [reflexivity|]. split; [|split; [congruence|]].
    + eapply extends_trans; [apply extends_add_seen | exact Hext].
    + intros p [= <-]. apply (Hpost post eq_refl).
  - rewrite Hself. split; [reflexivity|]. split; [|split; congruence].
    eapply extends_trans; [apply extends_add_seen | exact Hext].
Qed.

(** *** Page retriever *)

Lemma canonical_url_extends s s' job :
  extends s s' -> canonical_url (fst s') job = canonical_url (fst s) job.
Proof. intros Hext. unfold canonical_url. by rewrite (extends_base_url _ _ Hext). Qed.

Lemma item_urls_extends s s' items :
  extends s s' -> item_urls (fst s') items = item_urls (fst s) items.
Proof.
  intros Hext. induction items as [|item rest IH]; cbn [item_urls]; [reflexivity|].
  destruct (getitem item "job") as [job|]; cbn [rbind]; [|reflexivity].
  by rewrite (canonical_url_extends _ _ _ Hext), IH.
Qed.

(** The three cases of [_process_job], for use in a method body. *)
Lemma wp_process_job job s (Q : res (option JobPost) -> state -> Prop) :
  match canonical_url (fst s) job with
  | Raise e => Q (Raise e) s
  | Ok url =>
      if bool_decide (url ∈ seen_urls (fst s)) then Q (Ok None) s
      else forall r s',
             seen_urls (fst s') = {[ url ]} ∪ seen_urls (fst s) ->
             extends s s' ->
             r <> Ok None ->
             (forall post, r = Ok (Some post) -> job_url post = url) ->
             Q r s'
  end ->
  wp (_process_job job) s Q.
Proof.
  unfold wp. destruct (canonical_url (fst s) job) as [url|e] eqn:Hurl.
  - case_bool_decide as Hin.
    + by rewrite (process_job_seen _ _ _ Hurl Hin).
    + destruct (process_job_fresh _ _ _ Hurl Hin) as (r & s' & -> & ? & ? & ? & Hp).
      intros HQ. apply HQ; auto. intros post Hr. by destruct (Hp post Hr).
  - by rewrite (process_job_no_key _ _ _ Hurl).
Qed.

(** The loop over a result list: the world is only extended, and when the
    loop ends without an exception its postings are the first occurrences
    of the URLs that were not seen, in the order of the list. *)
Lemma wp_process_jobs items : forall s,
  wp (process_jobs items) s (fun r s' =>
    extends s s' /\
    forall job_list, r = Ok job_list ->
      exists urls,
        item_urls (fst s) items = Ok urls /\
        map job_url job_list = fresh_urls (seen_urls (fst s)) urls /\
        seen_urls (fst s') = list_to_set urls ∪ seen_urls (fst s)).
Proof.
  induction items as [|item rest IH]; intros s; cbn [process_jobs item_urls].
  { apply wp_ret_intro. split; [apply extends_refl|]. intros ? [= <-]. exists [].
    cbn. split; [reflexivity|]. split; [reflexivity|]. set_solver. }
  wp_pure; cbn [rbind].
  2:{ split; [apply extends_refl|]. intros ? Hx; discriminate Hx. }
  apply wp_bind_intro, wp_process_job.
  destruct (canonical_url (fst s) a) as [url|e] eqn:Hurl; cbn [rbind].
  2:{ split; [apply extends_refl|]. intros ? Hx; discriminate Hx. }
  case_bool_decide as Hin.
  - apply wp_bind_intro. eapply wp_mono; [|apply IH].
    intros [jl|e] s1 [Hext Hok].
    + apply wp_ret_intro. split; [exact Hext|]. intros ? [= <-].
      destruct (Hok _ eq_refl) as (urls & -> & Hmap & Hseen). exists (url :: urls).
      cbn [rbind fresh_urls]. rewrite bool_decide_eq_true_2 by exact Hin.
      split; [reflexivity|]. split; [exact Hmap|]. rewrite Hseen. set_solver.
    + split; [exact Hext|]. intros ? Hx; discriminate Hx.
  - intros r s1 Hs1 Hext1 Hr Hp.
    destruct r as [[post|]|e]; [| congruence |].
    + apply wp_bind_intro. eapply wp_mono; [|apply IH].
      intros [jl|e] s2 [Hext Hok].
      * apply wp_ret_intro. split; [eapply extends_trans; eassumption|]. intros ? [= <-].
        destruct (Hok _ eq_refl) as (urls & Hurls & Hmap & Hseen). exists (url :: urls).
        rewrite (item_urls_extends _ _ _ Hext1) in Hurls. rewrite Hurls.
        cbn [rbind fresh_urls map]. rewrite bool_decide_eq_false_2 by exact Hin.
        rewrite (Hp post eq_refl), Hmap, Hs1.
        split; [reflexivity|]. split; [reflexivity|]. rewrite Hseen, Hs1. set_solver.
      * split; [eapply extends_trans; eassumption|]. intros ? Hx; discriminate Hx.
    + split; [exact Hext1|]. intros ? Hx; discriminate Hx.
Qed.

Lemma wp_send r s (Q : res response -> state -> Prop) :
  Q (net (sent (snd s)) r)
    (fst s, {| sent := app (sent (snd s)) [r]; logged := logged (snd s) |}) ->
  wp (send r) s Q.
Proof. auto. Qed.

Lemma wp_log_info m s (Q : res unit -> state -> Prop) :
  Q (Ok tt) (fst s, {| sent := sent (snd s); logged := app (logged (snd s)) [Info m] |}) ->
  wp (log_info m) s Q.
Proof. auto. Qed.

Lemma extends_sent r s :
  call_shape r = true ->
  extends s (fst s, {| sent := app (sent (snd s)) [r]; logged := logged (snd s) |}).
Proof.
  intros Hr. split; cbn [fst snd sent logged].
  - reflexivity.
  - symmetry. apply set_seen_urls_same.
  - exists [r]. cbn. rewrite Hr. auto.
  - exists []. by rewrite app_nil_r.
Qed.

Lemma extends_logged l s :
  extends s (fst s, {| sent := sent (snd s); logged := app (logged (snd s)) l |}).
Proof.
  split; cbn [fst snd sent logged].
  - reflexivity.
  - symmetry. apply set_seen_urls_same.
  - exists []. by rewrite app_nil_r.
  - by exists l.
Qed.

(** One page: the world is only extended; without an exception, the
    postings are the first occurrences of the unseen URLs of the response,
    in its order, and these URLs are all recorded. *)
Lemma wp_scrape_page cursor s :
  wp (_scrape_page cursor) s (fun r s' =>
    extends s s' /\
    forall page, r = Ok page ->
      exists urls,
        page_urls cursor s = Ok urls /\
        map job_url (fst page) = fresh_urls (seen_urls (fst s)) urls /\
        seen_urls (fst s') = list_to_set urls ∪ seen_urls (fst s)).
Proof.
  unfold _scrape_page, page_urls. apply wp_bind_self.
  wp_pure.
  2:{ split; [apply extends_refl|]. intros ? Hx; discriminate Hx. }
  destruct (scraper_input (fst s)) as [si|]; [|discriminate]. injection E as <-.
  apply wp_bind_intro, wp_send.
  pose proof (extends_sent (api_request (fst s) si cursor) s eq_refl) as Hsent.
  destruct (net (sent (snd s)) (api_request (fst s) si cursor)) as [response|e];
    cbn [rbind].
  2:{ split; [exact Hsent|]. intros ? Hx; discriminate Hx. }
  destruct (ok response); cbn [negb].
  - wp_pure; cbn [rbind].
    2:{ split; [exact Hsent|]. intros ? Hx; discriminate Hx. }
    wp_pure; cbn [rbind].
    2:{ split; [exact Hsent|]. intros ? Hx; discriminate Hx. }
    apply wp_bind_intro. eapply wp_mono; [|apply wp_process_jobs].
    intros [jl|e] s2 [Hext Hok]; cbn [fst snd] in *.
    + apply wp_ret_intro. split; [eapply extends_trans; eassumption|].
      intros ? [= <-]. apply (Hok _ eq_refl).
    + split; [eapply extends_trans; eassumption|]. intros ? Hx; discriminate Hx.
  - apply wp_bind_intro, wp_log_info, wp_ret_intro.
    split; [eapply extends_trans; [exact Hsent|apply extends_logged]|].
    intros ? [= <-]. exists []. cbn. split; [reflexivity|]. split; [reflexivity|].
    set_solver.
Qed.

(** *** Pagination controller *)

(** The loop: the world is only extended; with more fuel than URLs are
    missing the loop ends by itself; and what it adds to the job list are
    the first occurrences of the unseen URLs, in the order of arrival. *)
Lemma wp_scrape_loop fuel : forall si acc page cursor s,
  wp (scrape_loop fuel si acc page cursor) s (fun r s' =>
    extends s s' /\
    ((missing si s < fuel)%nat -> r <> Ok None) /\
    forall out, r = Ok (Some out) ->
      exists rest,
        out = app acc rest /\
        map job_url rest =
          fresh_urls (seen_urls (fst s)) (arrivals fuel si page cursor s)).
Proof.
  induction fuel as [|fuel IH]; intros si acc page cursor s.
  { apply wp_ret_intro. split; [apply extends_refl|]. split; [lia|]. discriminate. }
  cbn [scrape_loop arrivals]. apply wp_bind_self. fold (wants_more si s).
  destruct (wants_more si s) eqn:Hguard.
  2:{ apply wp_ret_intro. split; [apply extends_refl|]. split; [discriminate|].
      intros ? [= <-]. exists []. by rewrite app_nil_r. }
  apply wp_bind_lift.
  destruct (page_total si (fst s)) as [total|e] eqn:Htotal.
  2:{ split; [apply extends_refl|]. split; discriminate. }
  apply wp_bind_intro, wp_log_info. fold (asking page total s).
  pose proof (extends_logged [Info (MsgSearchPage page total)] s) as Hask.
  fold (asking page total s) in Hask.
  destruct (_scrape_page cursor (asking page total s)) as [r1 s1] eqn:Epage.
  pose proof (wp_run _ _ _ _ _ Epage (wp_scrape_page cursor (asking page total s)))
    as [Hext1 Hpage].
  apply wp_bind_intro. unfold wp at 1. rewrite Epage. cbn [fst snd].
  destruct r1 as [[jl c]|e].
  2:{ split; [eapply extends_trans; eassumption|]. split; discriminate. }
  destruct (Hpage _ eq_refl) as (urls & Hurls & Hmap & Hseen).
  cbn [fst snd] in *. rewrite Hurls.
  change (fst (asking page total s)) with (fst s) in Hmap, Hseen.
  destruct jl as [|post jl].
  - apply wp_bind_intro, wp_log_info, wp_ret_intro.
    split; [eapply extends_trans; [eapply extends_trans; eassumption|apply extends_logged]|].
    split; [discriminate|]. intros ? [= <-]. exists []. rewrite app_nil_r.
    split; [reflexivity|]. exact Hmap.
  - eapply wp_mono; [|apply IH]. cbv beta.
    intros r2 s2 (Hext2 & Hfuel & Hout).
    split; [eapply extends_trans; [eapply extends_trans; eassumption|exact Hext2]|].
    split.
    + intros Hm. apply Hfuel.
      assert (Hsize : size (seen_urls (fst s1)) =
                      (size (seen_urls (fst s)) + S (length jl))%nat).
      { rewrite Hseen, size_fresh_urls, <- Hmap. cbn. by rewrite length_map. }
      unfold wants_more in Hguard. apply Z.ltb_lt in Hguard.
      unfold missing in *. lia.
    + intros out Hr. destruct (Hout out Hr) as (rest & -> & Hrest).
      exists (app (post :: jl) rest). split; [by rewrite <- app_assoc|].
      by rewrite map_app, Hmap, Hrest, fresh_urls_app, Hseen.
Qed.

End MethodLemmas.


(** ** The parts of a record *)

Lemma getitem_get v k x : getitem v k = Ok x -> get v k = Ok x.
Proof.
  unfold getitem, get, get_default. destruct v; try discriminate.
  destruct (assoc k d); [auto|discriminate].
Qed.

Lemma wp_outcome {A} (m : M A) s (r : res A) (s' : state) :
  wp m s (fun r0 s0 => r0 = r /\ s0 = s') -> m s = (r, s').
Proof. unfold wp. destruct (m s) as [r0 s0]. cbn. by intros [-> ->]. Qed.

(** Rewriting with the known outcomes of the pure steps. *)
Ltac known :=
  repeat first
    [ match goal with
      | Hx : truthy ?v = _ |- context [truthy ?v] => rewrite Hx
      | Hx : scraper_input ?v = _ |- context [scraper_input ?v] => rewrite Hx
      | Hx : ?r = Ok _ |- context [?r] => rewrite Hx
      end
    | progress cbn [rbind fst snd] ].

(** Naming the outcomes of the steps of a part that evaluates. *)
Ltac steps_of Hpart :=
  repeat match type of Hpart with
         | rbind ?x _ = Ok _ =>
             let E := fresh "E" in
             destruct x eqn:E; cbn [rbind] in Hpart; [|discriminate Hpart]
         end.

(** A new scraper has seen no URL. *)
Lemma new_scraper_unseen wanted url :
  url ∉ seen_urls (fst (Samples.in_session wanted Samples.fresh)).
Proof. apply not_elem_of_empty. Qed.

Section PartLemmas.

Context `{Env}.

(** The lookup, as [resolve_company_name] has it. *)
Lemma resolve_company_name_lookup name url s :
  truthy name = false ->
  _fetch_company_name url s =
  (Ok (fst (resolve_company_name name url s)), snd (resolve_company_name name url s)).
Proof.
  intros Hn. unfold resolve_company_name. rewrite Hn.
  destruct s as [self w].
  destruct (fetch_company_name_spec url self w) as (found & w' & -> & _). reflexivity.
Qed.

(** A record whose URL is new is normalized into the posting made of its
    parts when the parts evaluate and the constructor accepts the posting;
    the state is the one the lookup leaves, or the one with the URL
    recorded when the employer has a name. *)
Lemma process_job_builds job s si url req ef loc direct :
  scraper_input (fst s) = Some si ->
  canonical_url (fst s) job = Ok url ->
  url ∉ seen_urls (fst s) ->
  required_part si job = Ok req ->
  employer_part (fst s) job = Ok ef ->
  location_part job = Ok loc ->
  recruit_part job = Ok direct ->
  validate_post
    (assemble url req ef loc direct
       (fst (resolve_company_name (ef_name ef) url (recorded url s)))) = Ok tt ->
  _process_job job s =
  (Ok (Some (assemble url req ef loc direct
               (fst (resolve_company_name (ef_name ef) url (recorded url s))))),
   snd (resolve_company_name (ef_name ef) url (recorded url s))).
Proof.
  intros Hsi Hurl Hnew Hreq Hef Hloc Hdirect Hvalid.
  unfold canonical_url in Hurl.
  destruct (getitem job "key") as [key|] eqn:Hkey; cbn [rbind] in Hurl; [|discriminate].
  injection Hurl as Hurl.
  unfold required_part in Hreq. rewrite Hkey in Hreq. steps_of Hreq.
  injection Hreq as <-.
  unfold employer_part in Hef. steps_of Hef. injection Hef as <-.
  unfold location_part in Hloc.
  destruct (location_fields job) as [fields|] eqn:Hfields; cbn [rbind] in Hloc;
    [|discriminate].
  steps_of Hloc. injection Hloc as <-.
  unfold location_fields in Hfields. steps_of Hfields. injection Hfields as <-.
  unfold recruit_part in Hdirect.
  destruct (get job "recruit") as [r|] eqn:Hr; cbn [rbind] in Hdirect; [|discriminate].
  cbn [ef_name] in *. unfold assemble in *.
  cbn [r_key r_description r_job_type r_date r_title r_compensation r_emails r_remote
       ef_company_url ef_company_url_direct ef_addresses ef_industry ef_num_employees
       ef_revenue ef_description ef_logo] in *.
  set (resolved := resolve_company_name _ url (recorded url s)) in *.
  apply wp_outcome. unfold _process_job.
  apply wp_bind_self. apply wp_bind_lift. rewrite Hkey, Hurl.
  rewrite bool_decide_eq_false_2 by exact Hnew.
  apply wp_bind_intro. unfold wp at 1, add_seen. cbn [fst snd].
  fold (recorded url s).
  apply wp_bind_intro. unfold build_post.
  apply wp_bind_self.
  change (fst (recorded url s)) with (set_seen_urls ({[ url ]} ∪ seen_urls (fst s)) (fst s)).
  cbn [set_seen_urls scraper_input base_url].
  repeat (known; apply wp_bind_lift). known.
  apply wp_bind_intro.
  match goal with
  | |- wp (if truthy ?n then _ else _) _ _ =>
      destruct (truthy n) eqn:Hname;
      [ assert (Hres : resolved = (n, recorded url s))
          by (unfold resolved, resolve_company_name; by rewrite Hname)
      | pose proof (resolve_company_name_lookup n url (recorded url s) Hname) as Hlook ]
  end.
  - rewrite Hres in *. cbn [fst snd] in *.
    apply wp_ret_intro.
    repeat (known; apply wp_bind_lift). known.
    do 2 apply wp_ret_intro. auto.
  - fold resolved in Hlook.
    unfold wp at 1. rewrite Hlook. cbn [fst snd].
    repeat (known; apply wp_bind_lift). known.
    do 2 apply wp_ret_intro. auto.
Qed.

End PartLemmas.

(** ** Slices *)

Lemma py_slice_window {A} (l : list A) (o r : Z) :
  0 <= o -> 0 <= r ->
  py_slice o (o + r) l = firstn (Z.to_nat r) (skipn (Z.to_nat o) l).
Proof.
  intros Ho Hr. unfold py_slice, slice_index.
  destruct (Z.ltb_spec o 0); [lia|]. destruct (Z.ltb_spec (o + r) 0); [lia|].
  destruct (Z.le_gt_cases (Z.of_nat (length l)) o) as [Hlen|Hlen].
  - rewrite !Z.min_r by lia. rewrite Z.sub_diag. cbn [Z.to_nat firstn].
    rewrite (drop_ge l (Z.to_nat o)) by lia. by destruct (Z.to_nat r).
  - rewrite (Z.min_l o) by lia.
    destruct (Z.le_gt_cases (o + r) (Z.of_nat (length l))) as [Hfit|Hfit].
    + rewrite Z.min_l by lia. f_equal. lia.
    + rewrite Z.min_r by lia.
      rewrite !take_ge; [reflexivity| |]; rewrite length_drop; lia.
Qed.

Lemma py_slice_nil {A} (lo hi : Z) : py_slice lo hi (@nil A) = [].
Proof. unfold py_slice. by rewrite drop_nil, take_nil. Qed.

Lemma py_slice_elem {A} (lo hi : Z) (l : list A) x : x ∈ py_slice lo hi l -> x ∈ l.
Proof.
  unfold py_slice. intros Hin.
  apply (subseteq_drop (Z.to_nat (slice_index lo (Z.of_nat (length l)))) l).
  eapply subseteq_take. exact Hin.
Qed.

(** ** Filter builder *)

Lemma contains_app_l needle pre r :
  contains needle pre = true -> contains needle (pre +:+ r) = true.
Proof.
  assert (Hs : forall n s, starts_with n s = true -> starts_with n (s +:+ r) = true).
  { induction n as [|a n IH]; intros [|b s]; simpl; try discriminate; auto.
    intros Hab. apply andb_true_iff in Hab as [-> Hn]. simpl. auto. }
  induction pre as [|c p IH]; cbn [contains].
  - destruct needle; [|discriminate]. intros _. destruct r; reflexivity.
  - intros Hc. rewrite append_cons. cbn [contains]. rewrite <- append_cons.
    apply orb_true_iff in Hc as [Hc|Hc].
    + rewrite (Hs _ _ Hc). reflexivity.
    + rewrite IH by assumption. apply orb_true_r.
Qed.

(** C4, as amended: when [hours_old] is set to a non-zero number, the
    fragment is the date-window filter for that number of hours, whatever
    the easy-apply, job-type and remote fields hold; it names
    [dateOnIndeed] and contains none of the marks of the easy-apply filter
    ([indeedApplyScope], [keyword]) or of the job-type/remote composite
    filter ([composite], [attributes], [keyword]). *)
Theorem build_filters_hours_old (si : ScraperInput) (h : Z) :
  hours_old si = Some h -> h <> 0 ->
  _build_filters si = date_filter (str_of_int h) /\
  contains "dateOnIndeed" (_build_filters si) = true /\
  contains "indeedApplyScope" (_build_filters si) = false /\
  contains "composite" (_build_filters si) = false /\
  contains "attributes" (_build_filters si) = false /\
  contains "keyword" (_build_filters si) = false.
Proof.
  intros Hh Hz.
  assert (E : _build_filters si = date_filter (str_of_int h)).
  { unfold _build_filters. rewrite Hh. simpl.
    destruct (Z.eqb_spec h 0) as [->|_]; [contradiction|]. reflexivity. }
  rewrite E. split; [reflexivity|]. split.
  - rewrite date_filter_split. apply contains_app_l. reflexivity.
  - repeat split; apply date_filter_lacks; reflexivity.
Qed.

Lemma build_filters_hours_old_witness :
  _build_filters (Samples.all_filters (Some 24)) = date_filter "24" /\
  contains "indeedApplyScope" (_build_filters (Samples.all_filters (Some 24))) = false.
Proof.
  destruct (build_filters_hours_old (Samples.all_filters (Some 24)) 24) as (E & _ & A & _).
  - reflexivity.
  - lia.
  - split; [exact E | exact A].
Defined.

(** C4, as stated, fails when [hours_old] is set to zero: the test of the
    source is a truthiness test, and with easy-apply set the fragment is
    the easy-apply filter. *)
Lemma build_filters_hours_old_zero :
  hours_old (Samples.all_filters (Some 0)) = Some 0 /\
  _build_filters (Samples.all_filters (Some 0)) = easy_apply_filter /\
  contains "indeedApplyScope" (_build_filters (Samples.all_filters (Some 0))) = true /\
  contains "dateOnIndeed" (_build_filters (Samples.all_filters (Some 0))) = false.
Proof. vm_compute. auto. Qed.

(** ** Posting date *)

Lemma date_of_1700000000 (pads : bool) (off : Z) :
  -43200 <= off <= 50400 ->
  strftime_ymd pads (civil_from_days ((1700000000 + off) / 86400)) =
  if off <? 6400 then "2023-11-14" else "2023-11-15".
Proof.
  intros Hoff. destruct (Z.ltb_spec off 6400).
  - replace ((1700000000 + off) / 86400) with 19675; [by destruct pads|].
    apply Z.div_unique with (r := 80000 + off); lia.
  - replace ((1700000000 + off) / 86400) with 19676; [by destruct pads|].
    apply Z.div_unique with (r := off - 6400); lia.
Qed.

(** The date of a posting is the date of the [datePublished] entry of its
    record. *)
Lemma process_job_date `{Env} job s post s' :
  _process_job job s = (Ok (Some post), s') ->
  exists v, getitem job "datePublished" = Ok v /\
            date_posted_of v = Ok (date_posted post).
Proof.
  intros Hrun.
  destruct (canonical_url (fst s) job) as [url|e] eqn:Hurl.
  2:{ rewrite (process_job_no_key _ _ _ Hurl) in Hrun. discriminate. }
  destruct (decide (url ∈ seen_urls (fst s))) as [Hin|Hnew].
  { rewrite (process_job_seen _ _ _ Hurl Hin) in Hrun. discriminate. }
  destruct (process_job_fresh _ _ _ Hurl Hnew) as (r & s1 & E & _ & _ & _ & Hp).
  rewrite E in Hrun. injection Hrun as -> ->. by destruct (Hp post eq_refl).
Qed.

(** C9, as amended. The date of a posting is computed from the
    [datePublished] entry of its record and from nothing else of the record
    or the session, and a record whose parts evaluate is normalized into a
    posting with that date. For an integer number of milliseconds whose
    local day lies in the years 1000 to 9998, in a zone within a day of
    UTC, the date is the string YYYY-MM-DD of that day of the Gregorian
    calendar (time of day dropped, no zone in the string). Whenever a
    timestamp that a float holds exactly is converted at all, the date is
    the rendering of its local day, of the form YYYY-MM-DD from the year
    1000 on, and from the year 1 on where the C library pads the year. And
    1700000000000 gives "2023-11-14" in every zone less than 6400 seconds
    ahead of UTC and "2023-11-15" in the zones further east. *)
Theorem date_posted_is_calendar_day `{Env} :
  (forall job s post s',
     _process_job job s = (Ok (Some post), s') ->
     exists v, getitem job "datePublished" = Ok v /\
               date_posted_of v = Ok (date_posted post)) /\
  (forall job s si url req ef loc direct,
     scraper_input (fst s) = Some si ->
     canonical_url (fst s) job = Ok url ->
     url ∉ seen_urls (fst s) ->
     required_part si job = Ok req ->
     employer_part (fst s) job = Ok ef ->
     location_part job = Ok loc ->
     recruit_part job = Ok direct ->
     validate_post
       (assemble url req ef loc direct
          (fst (resolve_company_name (ef_name ef) url (recorded url s)))) = Ok tt ->
     exists post s' v,
       _process_job job s = (Ok (Some post), s') /\
       getitem job "datePublished" = Ok v /\
       date_posted_of v = Ok (date_posted post)) /\
  (forall ms,
     let day := (ms / 1000 + utc_offset (ms / 1000)) / 86400 in
     (forall t, - 86400 <= utc_offset t <= 86400) ->
     1000 <= year_of_day day <= 9998 ->
     date_posted_of (PInt ms) = Ok (strftime_ymd pads_year (civil_from_days day)) /\
     is_ymd_string (strftime_ymd pads_year (civil_from_days day)) = true /\
     valid_date (civil_from_days day) = true /\
     days_from_civil (civil_from_days day) = day) /\
  (forall ms str,
     let day := (ms / 1000 + utc_offset (ms / 1000)) / 86400 in
     - 2 ^ 53 < ms < 2 ^ 53 ->
     date_posted_of (PInt ms) = Ok str ->
     str = strftime_ymd pads_year (civil_from_days day) /\
     1 <= year_of_day day <= 9999 /\
     valid_date (civil_from_days day) = true /\
     (1000 <= year_of_day day \/ pads_year = true -> is_ymd_string str = true)) /\
  ((forall t, - 86400 <= utc_offset t <= 86400) ->
   -43200 <= utc_offset 1700000000 <= 50400 ->
   date_posted_of (PInt 1700000000000) =
   Ok (if utc_offset 1700000000 <? 6400 then "2023-11-14" else "2023-11-15")).
Proof.
  split; [|split; [|split; [|split]]].
  - apply @process_job_date.
  - intros job s si url req ef loc direct Hsi Hurl Hnew Hreq Hef Hloc Hdirect Hvalid.
    pose proof (process_job_builds _ _ _ _ _ _ _ _
                  Hsi Hurl Hnew Hreq Hef Hloc Hdirect Hvalid) as Hrun.
    destruct (process_job_date _ _ _ _ Hrun) as (v & Hv & Hdate).
    eexists _, _, v. split; [exact Hrun|]. by split.
  - intros ms day Hzone Hy.
    destruct (civil_from_days_correct day) as [Hv Hd].
    split; [|split; [|split]]; auto.
    + cbn [date_posted_of]. apply date_of_ms_in_range; [exact Hzone|]. fold day. lia.
    + apply strftime_shape; [lia|]. left. lia.
  - intros ms str day Hms Hstr.
    destruct (date_of_ms_inv ms str Hms Hstr) as [-> Hy]. fold day in Hy |- *.
    destruct (civil_from_days_correct day) as [Hv _].
    split; [reflexivity|]. split; [exact Hy|]. split; [exact Hv|].
    intros Hp. by apply strftime_shape.
  - intros Hzone Hoff.
    rewrite <- (date_of_1700000000 pads_year _ Hoff).
    cbn [date_posted_of]. rewrite date_of_ms_in_range; [| exact Hzone |].
    + reflexivity.
    + change (1700000000000 / 1000) with 1700000000. unfold year_of_day.
      destruct (Z.ltb_spec (utc_offset 1700000000) 6400).
      * replace ((1700000000 + utc_offset 1700000000) / 86400) with 19675;
          [vm_compute; split; discriminate|].
        apply Z.div_unique with (r := 80000 + utc_offset 1700000000); lia.
      * replace ((1700000000 + utc_offset 1700000000) / 86400) with 19676;
          [vm_compute; split; discriminate|].
        apply Z.div_unique with (r := utc_offset 1700000000 - 6400); lia.
Qed.

Lemma date_posted_is_calendar_day_witness :
  let E := Samples.env Samples.blocked in
  let s := Samples.in_session 2 Samples.fresh in
  exists post s',
    @_process_job E (Samples.full_job "k1") s = (Ok (Some post), s') /\
    date_posted post = "2023-11-14" /\
    is_ymd_string (date_posted post) = true.
Proof.
  intros E s.
  destruct (@date_posted_is_calendar_day E) as (_ & Hbuilt & Hday & _ & Hfix).
  edestruct (Hbuilt (Samples.full_job "k1") s (Samples.criteria 2)
               "https://www.indeed.com/viewjob?jk=k1")
    as (post & s' & v & Hrun & Hv & Hdate).
  - reflexivity.
  - reflexivity.
  - apply new_scraper_unseen.
  - vm_compute. reflexivity.
  - vm_compute. reflexivity.
  - vm_compute. reflexivity.
  - vm_compute. reflexivity.
  - vm_compute. reflexivity.
  - injection Hv as <-.
    destruct (Hday 1700000000000) as (Hstr & Hshape & _).
    { cbn. intros _. lia. }
    { vm_compute. split; discriminate. }
    set (str := strftime_ymd _ _) in Hstr, Hshape. clearbody str.
    rewrite Hdate in Hstr. injection Hstr as Hstr.
    rewrite Hfix in Hdate by (cbn; intros; lia). injection Hdate as Hdate.
    exists post, s'. split; [exact Hrun|]. split; [by rewrite <- Hdate|].
    rewrite Hstr. exact Hshape.
Defined.

(** C9, as stated for every raw record, fails outside these years and for
    what is no timestamp. Where the C library does not pad the year, a
    timestamp of the year 999 gives a posting dated "999-12-31", which has
    not the form YYYY-MM-DD; a timestamp of the year 10000 makes the
    normalizer raise [ValueError]; and a null [datePublished] makes it
    raise [TypeError]. *)
Lemma date_posted_outside_years :
  let E := Samples.env Samples.blocked in
  let s := Samples.in_session 2 Samples.fresh in
  (exists post,
     fst (@_process_job E (Samples.dated_job "k1" (PInt (-30610224000001))) s) =
       Ok (Some post) /\
     date_posted post = "999-12-31" /\
     is_ymd_string (date_posted post) = false) /\
  fst (@_process_job E (Samples.dated_job "k1" (PInt 253402300800000)) s) =
    Raise ValueError /\
  fst (@_process_job E (Samples.dated_job "k1" PNone) s) = Raise TypeError.
Proof.
  intros E s. split; [|split].
  - eexists. split; [vm_compute; reflexivity|]. split; reflexivity.
  - vm_compute. reflexivity.
  - vm_compute. reflexivity.
Qed.

(** ** Deduplication *)

(** A URL that is recorded stays recorded, and the record is skipped. *)
Lemma process_job_skipped `{Env} job s url s2 :
  canonical_url (fst s) job = Ok url ->
  extends s s2 -> url ∈ seen_urls (fst s2) ->
  _process_job job s2 = (Ok None, s2).
Proof.
  intros Hurl Hext Hin. apply process_job_seen with (url := url); [|exact Hin].
  by rewrite (canonical_url_extends _ _ _ Hext).
Qed.

(** C10: when the URL of a record is not in [seen_urls], normalizing the
    record adds the URL to the set, whether a posting is built or an
    exception is raised, so the outcome for the set depends on the key of
    the record alone; nothing is taken back, and in every later state of
    the session the record, and any record with the same URL, is skipped. *)
Theorem process_job_records_url_first `{Env} (job : pyval) (s : state) (url : string) :
  canonical_url (fst s) job = Ok url ->
  url ∉ seen_urls (fst s) ->
  seen_urls (fst (snd (_process_job job s))) = {[ url ]} ∪ seen_urls (fst s) /\
  fst (_process_job job s) <> Ok None /\
  forall job' s2,
    canonical_url (fst s) job' = Ok url ->
    extends (snd (_process_job job s)) s2 ->
    _process_job job' s2 = (Ok None, s2).
Proof.
  intros Hurl Hnew.
  destruct (process_job_fresh _ _ _ Hurl Hnew) as (r & s1 & E & Hseen & Hext & Hr & _).
  rewrite E. cbn [fst snd]. split; [exact Hseen|]. split; [exact Hr|].
  intros job' s2 Hurl' Hext2.
  apply process_job_skipped with (s := s) (url := url); auto.
  - eapply extends_trans; eassumption.
  - apply (ext_seen _ _ Hext2). rewrite Hseen. set_solver.
Qed.

Lemma process_job_records_url_first_witness :
  let E := Samples.env Samples.blocked in
  let s := Samples.in_session 2 Samples.fresh in
  let out := @_process_job E (Samples.key_only_job "k1") s in
  fst out = Raise (KeyError "description") /\
  seen_urls (fst (snd out)) = {[ "https://www.indeed.com/viewjob?jk=k1" ]} ∪ ∅ /\
  @_process_job E (Samples.full_job "k1") (snd out) = (Ok None, snd out).
Proof.
  intros E s out.
  destruct (@process_job_records_url_first E (Samples.key_only_job "k1") s
              "https://www.indeed.com/viewjob?jk=k1") as (Hseen & _ & Hskip).
  - reflexivity.
  - cbn. set_solver.
  - split; [reflexivity|]. split; [exact Hseen|].
    apply Hskip; [reflexivity|apply extends_refl].
Defined.

(** C2: within a session, a record that was normalized into a posting
    yields nothing when it is normalized again, at once or later, and so
    does every record with the same URL; the postings of a page, and the
    postings a session accumulates, have pairwise different URLs, none of
    which was in [seen_urls] before. *)
Theorem process_job_deduplicates `{Env} :
  (forall job s post s1,
     _process_job job s = (Ok (Some post), s1) ->
     canonical_url (fst s) job = Ok (job_url post) /\
     forall job' s2,
       canonical_url (fst s) job' = Ok (job_url post) ->
       extends s1 s2 ->
       _process_job job' s2 = (Ok None, s2)) /\
  (forall items s job_list s',
     process_jobs items s = (Ok job_list, s') ->
     NoDup (map job_url job_list) /\
     forall post, post ∈ job_list ->
       (job_url post ∉ seen_urls (fst s)) /\ (job_url post ∈ seen_urls (fst s'))) /\
  (forall fuel si page cursor s out s',
     scrape_loop fuel si [] page cursor s = (Ok (Some out), s') ->
     NoDup (map job_url out) /\
     forall post, post ∈ out -> job_url post ∉ seen_urls (fst s)).
Proof.
  split; [|split].
  - intros job s post s1 Hrun.
    destruct (canonical_url (fst s) job) as [url|e] eqn:Hurl.
    2:{ rewrite (process_job_no_key _ _ _ Hurl) in Hrun. discriminate. }
    destruct (decide (url ∈ seen_urls (fst s))) as [Hin|Hnew].
    { rewrite (process_job_seen _ _ _ Hurl Hin) in Hrun. discriminate. }
    destruct (process_job_fresh _ _ _ Hurl Hnew) as (r & s1' & E & Hseen & Hext & _ & Hp).
    rewrite E in Hrun. injection Hrun as -> ->.
    destruct (Hp post eq_refl) as [<- _]. split; [reflexivity|].
    intros job' s2 Hurl' Hext2.
    apply process_job_skipped with (s := s) (url := job_url post); auto.
    + eapply extends_trans; eassumption.
    + apply (ext_seen _ _ Hext2). rewrite Hseen. set_solver.
  - intros items s job_list s' Hrun.
    destruct (wp_run _ _ _ _ _ Hrun (wp_process_jobs items s)) as [_ Hok].
    destruct (Hok _ eq_refl) as (urls & _ & Hmap & Hseen).
    split; [rewrite Hmap; apply NoDup_fresh_urls|].
    intros post Hin.
    assert (Hu : job_url post ∈ fresh_urls (seen_urls (fst s)) urls).
    { rewrite <- Hmap. by apply list_elem_of_fmap_2. }
    apply fresh_urls_elem in Hu as [Hn Hu]. split; [exact Hn|].
    rewrite Hseen. set_solver.
  - intros fuel si page cursor s out s' Hrun.
    destruct (wp_run _ _ _ _ _ Hrun (wp_scrape_loop fuel si [] page cursor s))
      as (_ & _ & Hout).
    destruct (Hout _ eq_refl) as (rest & -> & Hmap). cbn [app].
    split; [rewrite Hmap; apply NoDup_fresh_urls|].
    intros post Hin.
    assert (Hu : job_url post ∈
                 fresh_urls (seen_urls (fst s)) (arrivals fuel si page cursor s)).
    { rewrite <- Hmap. by apply list_elem_of_fmap_2. }
    by apply fresh_urls_elem in Hu as [Hn _].
Qed.

Lemma process_job_deduplicates_witness :
  let E := Samples.env (Samples.same_page []) in
  let s := Samples.in_session 2 Samples.fresh in
  let first := @_process_job E (Samples.full_job "k1") s in
  (exists post, fst first = Ok (Some post)) /\
  @_process_job E (Samples.full_job "k1") (snd first) = (Ok None, snd first).
Proof.
  intros E s first.
  destruct (@_process_job E (Samples.full_job "k1") s) as [r s1] eqn:Hrun.
  assert (Hr : exists post, r = Ok (Some post) /\
                            job_url post = "https://www.indeed.com/viewjob?jk=k1").
  { apply (f_equal fst) in Hrun. vm_compute in Hrun. subst r. eexists. split; reflexivity. }
  destruct Hr as (post & -> & Hpost_url).
  destruct (@process_job_deduplicates E) as (Hsame & _).
  destruct (Hsame _ _ _ _ Hrun) as (_ & Hskip).
  split; [by exists post|]. subst first. cbn [fst snd]. apply Hskip.
  - rewrite Hpost_url. reflexivity.
  - apply extends_refl.
Defined.

(** ** Pagination *)

Lemma scrape_loop_step `{Env} fuel si acc page cursor s :
  scrape_loop (S fuel) si acc page cursor s =
  if wants_more si s then
    match page_total si (fst s) with
    | Ok total =>
        match _scrape_page cursor (asking page total s) with
        | (Ok ([], _), s') => (Ok (Some acc), no_jobs page s')
        | (Ok (post :: job_list, cursor'), s') =>
            scrape_loop fuel si (app acc (post :: job_list)) (page + 1) cursor' s'
        | (Raise e, s') => (Raise e, s')
        end
    | Raise e => (Raise e, s)
    end
  else (Ok (Some acc), s).
Proof.
  cbn [scrape_loop]. unfold bind at 1, get_self. cbn [fst snd]. fold (wants_more si s).
  destruct (wants_more si s); [|reflexivity].
  unfold bind at 1, lift. cbn [fst snd].
  destruct (page_total si (fst s)) as [total|e]; [|reflexivity].
  unfold bind at 1, log_info. cbn [fst snd]. fold (asking page total s).
  unfold bind at 1.
  destruct (_scrape_page cursor (asking page total s)) as [[[[|post jl] c]|e] s'];
    reflexivity.
Qed.

Lemma scrape_page_not_ok `{Env} cursor s si response :
  scraper_input (fst s) = Some si ->
  net (sent (snd s)) (api_request (fst s) si cursor) = Ok response ->
  ok response = false ->
  _scrape_page cursor s =
  (Ok ([], PNone),
   (fst s, {| sent := app (sent (snd s)) [api_request (fst s) si cursor];
              logged := app (logged (snd s)) [Info (MsgStatus (status_code response))] |})).
Proof.
  intros Hsi Hnet Hok.
  unfold _scrape_page, bind, get_self, lift, send, log_info, ret. cbn [fst snd].
  rewrite Hsi, Hnet. cbn [fst snd]. rewrite Hok. reflexivity.
Qed.

Lemma scrape_unfold `{Env} si s :
  scrape si s =
  match scrape_loop (S (Z.to_nat (results_wanted si + offset si))) si [] 1 PNone
          (set_session si (fst s), snd s) with
  | (Ok job_list, s') =>
      (Ok (option_map
             (fun l => {| jobs := py_slice (offset si) (offset si + results_wanted si) l |})
             job_list), s')
  | (Raise e, s') => (Raise e, s')
  end.
Proof. reflexivity. Qed.

(** The bound of [scrape] is never reached. *)
Lemma scrape_ends `{Env} si s : fst (scrape si s) <> Ok None.
Proof.
  rewrite scrape_unfold.
  set (s0 := (set_session si (fst s), snd s)).
  set (fuel := S (Z.to_nat (results_wanted si + offset si))).
  pose proof (wp_scrape_loop fuel si [] 1 PNone s0) as Hloop. unfold wp in Hloop.
  destruct (scrape_loop fuel si [] 1 PNone s0) as [[[l|]|e] s']; cbn [fst snd] in *;
    try discriminate.
  destruct Hloop as (_ & Hfuel & _). exfalso. apply Hfuel; [|reflexivity].
  unfold missing, fuel. lia.
Qed.

(** A page with postings brings as many new URLs. *)
Lemma scrape_page_size `{Env} cursor s job_list cursor' s' :
  _scrape_page cursor s = (Ok (job_list, cursor'), s') ->
  size (seen_urls (fst s')) = (size (seen_urls (fst s)) + length job_list)%nat.
Proof.
  intros Hpage.
  destruct (wp_run _ _ _ _ _ Hpage (wp_scrape_page cursor s)) as [_ Hok].
  destruct (Hok _ eq_refl) as (urls & _ & Hmap & Hseen). cbn [fst] in Hmap.
  by rewrite Hseen, size_fresh_urls, <- Hmap, length_map.
Qed.

(** The loop of the source does what the state machine of the spec does,
    when it may evaluate its guard more often than URLs are missing. *)
Lemma scrape_loop_paginates `{Env} fuel : forall si acc page cursor s,
  (missing si s < fuel)%nat ->
  exists outcome s',
    paginates si acc page cursor s outcome s' /\
    scrape_loop fuel si acc page cursor s =
    (match outcome with Ok job_list => Ok (Some job_list) | Raise e => Raise e end, s').
Proof.
  induction fuel as [|fuel IH]; intros si acc page cursor s Hfuel; [lia|].
  rewrite scrape_loop_step.
  destruct (wants_more si s) eqn:Hguard.
  2:{ exists (Ok acc), s. split; [by constructor|reflexivity]. }
  destruct (page_total si (fst s)) as [total|e] eqn:Htotal.
  2:{ exists (Raise e), s. split; [by apply progress_fault|reflexivity]. }
  destruct (_scrape_page cursor (asking page total s)) as [[[[|post jl] c]|e] s'] eqn:Hpage.
  - exists (Ok acc), (no_jobs page s'). split; [|reflexivity].
    by apply empty_page with (total := total) (cursor' := c).
  - destruct (IH si (app acc (post :: jl)) (page + 1) c s') as (outcome & s'' & Hp & Hrun).
    { apply scrape_page_size in Hpage. cbn [asking fst length] in Hpage.
      unfold wants_more in Hguard. apply Z.ltb_lt in Hguard.
      unfold missing in *. lia. }
    exists outcome, s''. split; [|exact Hrun].
    by apply next_page with (total := total) (post := post) (jobs := jl) (cursor' := c)
                            (s' := s').
  - exists (Raise e), s'. split; [|reflexivity].
    by apply page_fault with (total := total).
Qed.

(** C1, as amended. A call of [scrape] is a run of the pagination
    controller: it ends, with the slice of the postings the controller
    accumulated or with the fault that stopped it. The controller asks for
    a page only while [seen_urls] holds fewer than [results_wanted +
    offset] URLs, and a page without a new posting ends the call with what
    was accumulated, whatever cursor comes with the page. A response that
    the client reports as not ok is logged and gives the empty list and the
    cursor [None] after the one request; it ends the controller, on
    whatever page it comes, with the postings accumulated before, without a
    further request and without an exception. *)
Theorem pagination_ends_on_empty_page `{Env} (si : ScraperInput) (s : state) :
  let s0 := (set_session si (fst s), snd s) in
  (exists outcome s',
     paginates si [] 1 PNone s0 outcome s' /\ scrape si s = (sliced si outcome, s')) /\
  (wants_more si s0 = false -> scrape si s = (Ok (Some {| jobs := [] |}), s0)) /\
  (forall total cursor' s',
     wants_more si s0 = true ->
     page_total si (fst s0) = Ok total ->
     _scrape_page PNone (asking 1 total s0) = (Ok ([], cursor'), s') ->
     scrape si s = (Ok (Some {| jobs := [] |}), no_jobs 1 s')) /\
  (forall cursor s1 response,
     scraper_input (fst s1) = Some si ->
     net (sent (snd s1)) (api_request (fst s1) si cursor) = Ok response ->
     ok response = false ->
     _scrape_page cursor s1 =
     (Ok ([], PNone),
      (fst s1, {| sent := app (sent (snd s1)) [api_request (fst s1) si cursor];
                  logged := app (logged (snd s1))
                              [Info (MsgStatus (status_code response))] |}))) /\
  (forall job_list page cursor s1 total response,
     wants_more si s1 = true ->
     page_total si (fst s1) = Ok total ->
     scraper_input (fst s1) = Some si ->
     net (sent (snd s1)) (api_request (fst s1) si cursor) = Ok response ->
     ok response = false ->
     paginates si job_list page cursor s1 (Ok job_list)
       (fst s1, {| sent := app (sent (snd s1)) [api_request (fst s1) si cursor];
                   logged := app (logged (snd s1))
                               [Info (MsgSearchPage page total);
                                Info (MsgStatus (status_code response));
                                Info (MsgNoJobs page)] |})) /\
  (forall total response,
     wants_more si s0 = true ->
     page_total si (fst s0) = Ok total ->
     net (sent (snd s)) (api_request (fst s0) si PNone) = Ok response ->
     ok response = false ->
     scrape si s =
     (Ok (Some {| jobs := [] |}),
      (fst s0, {| sent := app (sent (snd s)) [api_request (fst s0) si PNone];
                  logged := app (logged (snd s))
                              [Info (MsgSearchPage 1 total);
                               Info (MsgStatus (status_code response));
                               Info (MsgNoJobs 1)] |}))).
Proof.
  intros s0.
  assert (Hempty : forall total cursor' s',
             wants_more si s0 = true ->
             page_total si (fst s0) = Ok total ->
             _scrape_page PNone (asking 1 total s0) = (Ok ([], cursor'), s') ->
             scrape si s = (Ok (Some {| jobs := [] |}), no_jobs 1 s')).
  { intros total c s' Hg Ht Hp. rewrite scrape_unfold, scrape_loop_step. fold s0.
    rewrite Hg, Ht, Hp. cbn [option_map]. by rewrite py_slice_nil. }
  assert (Hrefused : forall page cursor s1 total response,
             scraper_input (fst s1) = Some si ->
             net (sent (snd s1)) (api_request (fst s1) si cursor) = Ok response ->
             ok response = false ->
             _scrape_page cursor (asking page total s1) =
             (Ok ([], PNone),
              (fst s1, {| sent := app (sent (snd s1)) [api_request (fst s1) si cursor];
                          logged := app (app (logged (snd s1))
                                           [Info (MsgSearchPage page total)])
                                      [Info (MsgStatus (status_code response))] |}))).
  { intros page cursor s1 total response Hsi Hnet Hok.
    by rewrite (scrape_page_not_ok cursor (asking page total s1) si response Hsi Hnet Hok). }
  split; [|split; [|split; [|split; [|split]]]].
  - destruct (scrape_loop_paginates (S (Z.to_nat (results_wanted si + offset si)))
                si [] 1 PNone s0) as (outcome & s' & Hp & Hrun).
    { unfold missing. lia. }
    exists outcome, s'. split; [exact Hp|].
    rewrite scrape_unfold. fold s0. rewrite Hrun. by destruct outcome.
  - intros Hg. rewrite scrape_unfold, scrape_loop_step. fold s0. rewrite Hg.
    cbn [option_map]. by rewrite py_slice_nil.
  - exact Hempty.
  - intros cursor s1 response. apply scrape_page_not_ok.
  - intros job_list page cursor s1 total response Hg Ht Hsi Hnet Hok.
    pose proof (empty_page si job_list page cursor s1 total PNone _ Hg Ht
                  (Hrefused page cursor s1 total response Hsi Hnet Hok)) as Hp.
    unfold no_jobs in Hp. cbn [fst snd sent logged] in Hp.
    by rewrite <- !app_assoc in Hp.
  - intros total response Hg Ht Hnet Hok.
    rewrite (Hempty total PNone _ Hg Ht (Hrefused 1 PNone s0 total response eq_refl Hnet Hok)).
    unfold no_jobs. cbn [fst snd sent logged]. by rewrite <- !app_assoc.
Qed.

Lemma pagination_ends_on_empty_page_witness :
  let E := Samples.env Samples.blocked in
  exists w,
    @scrape E (Samples.criteria 2) Samples.fresh =
      (Ok (Some {| jobs := [] |}), (set_session (Samples.criteria 2) (fst Samples.fresh), w)) /\
    map req_channel (sent w) = [Session] /\
    logged w = [Info (MsgSearchPage 1 1); Info (MsgStatus 403); Info (MsgNoJobs 1)].
Proof.
  intros E.
  destruct (@pagination_ends_on_empty_page E (Samples.criteria 2) Samples.fresh)
    as (_ & _ & _ & _ & _ & Hrefused).
  eexists. split.
  - apply (Hrefused 1 (Samples.error_response 403)); reflexivity.
  - split; reflexivity.
Defined.

(** C1, as stated for any status outside 200..299, fails: an answer with
    status 304 is ok for the client, so [_scrape_page] reads its body as a
    page; the body is empty, [json()] raises, and so does [scrape], with
    nothing logged about the status. *)
Lemma status_below_400_is_read_as_page :
  let E := Samples.env Samples.not_modified in
  let out := @scrape E (Samples.criteria 2) Samples.fresh in
  status_code (Samples.bodiless_response 304) = 304 /\
  ok (Samples.bodiless_response 304) = true /\
  fst out = Raise JSONDecodeError /\
  logged (snd (snd out)) = [Info (MsgSearchPage 1 1)].
Proof. vm_compute. auto. Qed.

(** ** The returned slice *)

(** What [scrape] returns, in terms of the loop. *)
Lemma scrape_result `{Env} si s response s' :
  scrape si s = (Ok (Some response), s') ->
  exists acc,
    scrape_loop (S (Z.to_nat (results_wanted si + offset si))) si [] 1 PNone
      (set_session si (fst s), snd s) = (Ok (Some acc), s') /\
    jobs response = py_slice (offset si) (offset si + results_wanted si) acc /\
    map job_url acc = fresh_urls (seen_urls (fst s)) (session_arrivals si s).
Proof.
  rewrite scrape_unfold. unfold session_arrivals.
  set (s0 := (set_session si (fst s), snd s)).
  set (fuel := S (Z.to_nat (results_wanted si + offset si))).
  pose proof (wp_scrape_loop fuel si [] 1 PNone s0) as Hloop. unfold wp in Hloop.
  destruct (scrape_loop fuel si [] 1 PNone s0) as [[[acc|]|e] s1]; cbn [fst snd] in *;
    try discriminate.
  intros [= <- <-]. exists acc. split; [reflexivity|]. split; [reflexivity|].
  destruct Hloop as (_ & _ & Hout). by destruct (Hout _ eq_refl) as (rest & -> & Hm).
Qed.

(** C3: for a non-negative [results_wanted] r and [offset] o, what
    [scrape] returns is the slice from o to o + r of the accumulated job
    list, so at most r postings; the accumulated list holds one posting for
    each URL that arrived during the call and was not in [seen_urls], in
    the order in which the provider delivered the records, page after
    page. *)
Theorem scrape_returns_slice `{Env} (si : ScraperInput) (s : state)
    (response : JobResponse) (s' : state) :
  0 <= results_wanted si ->
  0 <= offset si ->
  scrape si s = (Ok (Some response), s') ->
  exists acc : list JobPost,
    map job_url acc = fresh_urls (seen_urls (fst s)) (session_arrivals si s) /\
    NoDup (map job_url acc) /\
    jobs response =
      firstn (Z.to_nat (results_wanted si)) (skipn (Z.to_nat (offset si)) acc) /\
    Z.of_nat (length (jobs response)) <= results_wanted si.
Proof.
  intros Hr Ho Hrun.
  destruct (scrape_result _ _ _ _ Hrun) as (acc & _ & Hjobs & Hmap).
  exists acc. split; [exact Hmap|]. split; [rewrite Hmap; apply NoDup_fresh_urls|].
  rewrite Hjobs, py_slice_window by assumption. split; [reflexivity|].
  rewrite length_take. lia.
Qed.

Lemma scrape_returns_slice_witness :
  let E := Samples.env (Samples.same_page [Samples.full_job "a"; Samples.full_job "b";
                                           Samples.full_job "a"; Samples.full_job "c"]) in
  exists response,
    fst (@scrape E (Samples.criteria 2) Samples.fresh) = Ok (Some response) /\
    map job_url (jobs response) =
      ["https://www.indeed.com/viewjob?jk=a"; "https://www.indeed.com/viewjob?jk=b"] /\
    Z.of_nat (length (jobs response)) <= 2.
Proof.
  intros E.
  destruct (@scrape E (Samples.criteria 2) Samples.fresh) as [r s'] eqn:Hrun.
  assert (Hr : exists response,
             r = Ok (Some response) /\
             map job_url (jobs response) =
               ["https://www.indeed.com/viewjob?jk=a"; "https://www.indeed.com/viewjob?jk=b"]).
  { apply (f_equal fst) in Hrun. vm_compute in Hrun. subst r. eexists. split; reflexivity. }
  destruct Hr as (response & -> & Hurls).
  destruct (@scrape_returns_slice E (Samples.criteria 2) Samples.fresh response s')
    as (acc & _ & _ & _ & Hlen).
  - cbn. lia.
  - cbn. lia.
  - exact Hrun.
  - exists response. split; [reflexivity|]. split; [exact Hurls | exact Hlen].
Defined.

(** ** Scope of the seen URLs *)

Lemma process_job_extends `{Env} job s : extends s (snd (_process_job job s)).
Proof.
  change (wp (_process_job job) s (fun _ s' => extends s s')).
  apply wp_process_job.
  destruct (canonical_url (fst s) job); [|apply extends_refl].
  case_bool_decide; [apply extends_refl|]. auto.
Qed.

Lemma scrape_page_extends `{Env} cursor s : extends s (snd (_scrape_page cursor s)).
Proof.
  change (wp (_scrape_page cursor) s (fun _ s' => extends s s')).
  eapply wp_mono; [|apply wp_scrape_page]. by intros ? ? [? _].
Qed.

Lemma scrape_loop_extends `{Env} fuel si acc page cursor s :
  extends s (snd (scrape_loop fuel si acc page cursor s)).
Proof.
  change (wp (scrape_loop fuel si acc page cursor) s (fun _ s' => extends s s')).
  eapply wp_mono; [|apply wp_scrape_loop]. by intros ? ? [? _].
Qed.

(** What [scrape] does to the world: the session attributes are set, and
    from there on the world is only extended. *)
Lemma scrape_extends `{Env} si s :
  extends (set_session si (fst s), snd s) (snd (scrape si s)).
Proof.
  rewrite scrape_unfold.
  pose proof (scrape_loop_extends (S (Z.to_nat (results_wanted si + offset si)))
                si [] 1 PNone (set_session si (fst s), snd s)) as Hext.
  by destruct (scrape_loop _ si [] 1 PNone _) as [[?|?] ?].
Qed.

(** C7, as amended: [seen_urls] belongs to the scraper instance. It is
    empty when the instance is made, and [scrape] does not empty it: the
    set only grows through a call of [scrape], of [_scrape_page] and of
    [_process_job]; a call of [scrape] that finds the target already met by
    the URLs of earlier calls returns no posting and sends no request; and
    no posting that [scrape] returns has a URL that was in the set when the
    call began. *)
Theorem seen_urls_belong_to_instance `{Env} :
  (forall prox ca_cert, seen_urls (__init__ prox ca_cert) = ∅) /\
  (forall si s, seen_urls (fst s) ⊆ seen_urls (fst (snd (scrape si s)))) /\
  (forall cursor s, seen_urls (fst s) ⊆ seen_urls (fst (snd (_scrape_page cursor s)))) /\
  (forall job s, seen_urls (fst s) ⊆ seen_urls (fst (snd (_process_job job s)))) /\
  (forall si s,
     results_wanted si + offset si <= Z.of_nat (size (seen_urls (fst s))) ->
     scrape si s = (Ok (Some {| jobs := [] |}), (set_session si (fst s), snd s))) /\
  (forall si s response s' post,
     scrape si s = (Ok (Some response), s') ->
     post ∈ jobs response ->
     job_url post ∉ seen_urls (fst s)).
Proof.
  split; [reflexivity|]. split; [|split; [|split; [|split]]].
  - intros si s. apply (ext_seen _ _ (scrape_extends si s)).
  - intros cursor s. apply (ext_seen _ _ (scrape_page_extends cursor s)).
  - intros job s. apply (ext_seen _ _ (process_job_extends job s)).
  - intros si s Hfull. rewrite scrape_unfold, scrape_loop_step.
    unfold wants_more. cbn [fst snd set_session seen_urls].
    destruct (Z.ltb_spec (Z.of_nat (size (seen_urls (fst s))))
                (results_wanted si + offset si)); [lia|].
    cbn [option_map]. by rewrite py_slice_nil.
  - intros si s response s' post Hrun Hin.
    destruct (scrape_result _ _ _ _ Hrun) as (acc & _ & Hjobs & Hmap).
    rewrite Hjobs in Hin. apply py_slice_elem in Hin.
    assert (Hu : job_url post ∈ fresh_urls (seen_urls (fst s)) (session_arrivals si s)).
    { rewrite <- Hmap. by apply list_elem_of_fmap_2. }
    by apply fresh_urls_elem in Hu as [Hn _].
Qed.

Lemma seen_urls_belong_to_instance_witness :
  let E := Samples.env (Samples.same_page [Samples.full_job "a"; Samples.full_job "b"]) in
  let later := snd (@scrape E (Samples.criteria 2) Samples.fresh) in
  @scrape E (Samples.criteria 2) later =
  (Ok (Some {| jobs := [] |}), (set_session (Samples.criteria 2) (fst later), snd later)).
Proof.
  intros E later.
  destruct (@seen_urls_belong_to_instance E) as (_ & _ & _ & _ & Hfull & _).
  apply Hfull. vm_compute. discriminate.
Defined.

(** C7, as stated, fails: a second call of [scrape] on the same scraper
    begins with the two URLs of the first call in [seen_urls]; they meet
    its target, so it returns nothing and sends no request, where the same
    call on a new scraper returns two postings. *)
Lemma second_scrape_starts_with_seen_urls :
  let E := Samples.env (Samples.same_page [Samples.full_job "a"; Samples.full_job "b"]) in
  let first := @scrape E (Samples.criteria 2) Samples.fresh in
  let second := @scrape E (Samples.criteria 2) (snd first) in
  let anew := @scrape E (Samples.criteria 2) (fst Samples.fresh, snd (snd first)) in
  size (seen_urls (fst (snd first))) = 2%nat /\
  fst second = Ok (Some {| jobs := [] |}) /\
  sent (snd (snd second)) = sent (snd (snd first)) /\
  (exists response, fst anew = Ok (Some response) /\ length (jobs response) = 2%nat).
Proof.
  intros E first second anew. split; [|split; [|split]].
  - vm_compute. reflexivity.
  - vm_compute. reflexivity.
  - vm_compute. reflexivity.
  - eexists. split; vm_compute; reflexivity.
Qed.

(** ** Timeouts *)

(** C8: every request that a call of [scrape] sends is made with a bounded
    timeout. The calls of the API session and of the proxied client name a
    timeout of 10 seconds; the call of the browser-fingerprint session
    names none and is bounded by the timeout of that session, which
    [create_session] sets. *)
Theorem requests_carry_timeouts `{Env} (si : ScraperInput) (s : state) :
  exists new,
    sent (snd (snd (scrape si s))) = app (sent (snd s)) new /\
    forall r, r ∈ new ->
      req_timeout r = timeout_of_channel (req_channel r) /\
      exists seconds,
        request_timeout r = Some seconds /\ 0 < seconds /\
        (req_channel r <> HtmlSession -> seconds = 10).
Proof.
  destruct (ext_sent _ _ (scrape_extends si s)) as (new & Hsent & Hshape).
  exists new. split; [exact Hsent|].
  intros r Hin. rewrite forallb_forall in Hshape.
  apply list_elem_of_In in Hin. specialize (Hshape r Hin).
  unfold call_shape in Hshape. unfold request_timeout.
  destruct (req_channel r), (req_timeout r) as [[|[]|]|]; try discriminate;
    cbn [timeout_of_channel].
  all: repeat match goal with
       | Hx : (match ?p with _ => _ end) = true |- _ => destruct p; try discriminate
       end.
  all: split; [reflexivity|]; eexists; split; [reflexivity|]; split; [lia|];
    intros Hc; try reflexivity; contradiction.
Qed.

Lemma requests_carry_timeouts_witness :
  let E := Samples.env (Samples.same_page [Samples.sparse_job "b"]) in
  let requests := sent (snd (snd (@scrape E (Samples.criteria 1) Samples.fresh))) in
  map (fun r => (req_channel r, req_timeout r)) requests =
    [(Session, Some 10); (HtmlSession, None)] /\
  forall r, r ∈ requests -> exists seconds, @request_timeout E r = Some seconds /\ 0 < seconds.
Proof.
  intros E requests. split; [vm_compute; reflexivity|].
  destruct (@requests_carry_timeouts E (Samples.criteria 1) Samples.fresh)
    as (new & Hsent & Hnew).
  intros r Hin. subst requests. rewrite Hsent in Hin. cbn [sent snd Samples.fresh world0 app] in Hin.
  destruct (Hnew r Hin) as (_ & seconds & Hs & Hpos & _). eauto.
Defined.

(** ** Company-name fallback *)

(** C5, as amended: the lookup never raises and leaves the scraper as it
    is. Its first request goes through the browser-fingerprint session.
    When that request is answered, the answer is not ok and a proxy is
    configured, exactly one more request follows, through the plain client
    with the proxy, a timeout and the [verify] argument taken from the
    CA-certificate setting (verification off when no certificate is
    configured). When the first request raises, when its answer is ok, or
    when no proxy is configured, no second request is made. When no tier
    gives an ok answer the lookup returns [None]. *)
Theorem fetch_company_name_tiers `{Env} (url : string) (self : Indeed) (w : World) :
  exists name w',
    _fetch_company_name url (self, w) = (Ok name, (self, w')) /\
    sent w' = app (sent w) (fallback_requests self w url) /\
    (tiers_failed self w url = true -> name = PNone) /\
    (forall e,
       net (sent w) (tls_request url) = Raise e ->
       sent w' = app (sent w) [tls_request url] /\ name = PNone) /\
    (forall first,
       net (sent w) (tls_request url) = Ok first -> ok first = true ->
       sent w' = app (sent w) [tls_request url]) /\
    (forall first,
       net (sent w) (tls_request url) = Ok first -> ok first = false ->
       _fallback_proxies self = None ->
       sent w' = app (sent w) [tls_request url] /\ name = PNone) /\
    (forall first p,
       net (sent w) (tls_request url) = Ok first -> ok first = false ->
       _fallback_proxies self = Some p ->
       sent w' = app (sent w) [tls_request url; proxy_request self url] /\
       req_channel (proxy_request self url) = ReqLib /\
       req_proxies (proxy_request self url) = Some p /\
       req_timeout (proxy_request self url) = Some 10 /\
       req_verify (proxy_request self url) = Some (_ca_cert self)) /\
    (forall prox, _ca_cert (__init__ prox None) = VerifyOff).
Proof.
  destruct (fetch_company_name_spec url self w) as (name & w' & E & Hsent & _ & Hfail & _).
  exists name, w'. split; [exact E|]. split; [exact Hsent|]. split; [exact Hfail|].
  unfold fallback_requests, tiers_failed in *.
  split; [|split; [|split; [|split]]].
  - intros e He. rewrite He in *. auto.
  - intros first Hf Hok. rewrite Hf, Hok in *. exact Hsent.
  - intros first Hf Hok Hp. rewrite Hf, Hok, Hp in *. cbn in *. auto.
  - intros first p Hf Hok Hp. rewrite Hf, Hok, Hp in *. cbn in *. auto.
  - reflexivity.
Qed.

Lemma fetch_company_name_tiers_witness :
  let E := Samples.env Samples.tls_refused in
  exists name w',
    @_fetch_company_name E "https://www.indeed.com/viewjob?jk=b" Samples.proxied =
      (Ok name, (fst Samples.proxied, w')) /\
    map req_channel (sent w') = [HtmlSession; ReqLib].
Proof.
  intros E.
  destruct (@fetch_company_name_tiers E "https://www.indeed.com/viewjob?jk=b"
              (fst Samples.proxied) (snd Samples.proxied))
    as (name & w' & Hrun & _ & _ & _ & _ & _ & Hproxy & _).
  exists name, w'. split; [exact Hrun|].
  destruct (Hproxy (Samples.error_response 403)
              ("http://proxy.example:8080", "http://proxy.example:8080"))
    as (-> & _); reflexivity.
Defined.

(** C5, as stated, fails twice. When the browser-fingerprint request
    raises, a configured proxy is not tried: one request is sent and the
    lookup returns [None]. And when the proxy is tried on a scraper made
    without a CA certificate, the request is sent with verification off. *)
Lemma fallback_skips_proxy_after_exception :
  let down := @_fetch_company_name (Samples.env Samples.tls_down) "u" Samples.proxied in
  let refused := @_fetch_company_name (Samples.env Samples.tls_refused) "u" Samples.proxied in
  _fallback_proxies (fst Samples.proxied) =
    Some ("http://proxy.example:8080", "http://proxy.example:8080") /\
  fst down = Ok PNone /\
  map req_channel (sent (snd (snd down))) = [HtmlSession] /\
  map (fun r => (req_channel r, req_verify r)) (sent (snd (snd refused))) =
    [(HtmlSession, None); (ReqLib, Some VerifyOff)].
Proof. vm_compute. auto. Qed.

(** ** Sparse records *)

Section SparseParts.

Context `{Env}.




End SparseParts.



(** * Further properties of the module *)

(** ** Filter builder: which filter is emitted *)

(** The three kinds of filter, and the kind the criteria select: the first
    of hours-old, easy-apply and job-type-or-remote that is set. *)
Inductive filter_kind : Type := DateWindow | EasyApply | Composite.

Definition selected_filter (si : ScraperInput) : option filter_kind :=
  if truthy_int (hours_old si) then Some DateWindow
  else if easy_apply si then Some EasyApply
  else if is_some (job_type si) || is_remote si then Some Composite
  else None.

(** The kinds whose mark occurs in a fragment: [dateOnIndeed],
    [indeedApplyScope], [composite]. *)
Definition filter_marks (fragment : string) : bool * bool * bool :=
  (contains "dateOnIndeed" fragment,
   contains "indeedApplyScope" fragment,
   contains "composite" fragment).

Definition marks_of (k : option filter_kind) : bool * bool * bool :=
  match k with
  | Some DateWindow => (true, false, false)
  | Some EasyApply => (false, true, false)
  | Some Composite => (false, false, true)
  | None => (false, false, false)
  end.

Lemma build_filters_date si :
  truthy_int (hours_old si) = true ->
  _build_filters si = date_filter (str_of_opt_int (hours_old si)).
Proof. unfold _build_filters. by intros ->. Qed.

Lemma filter_marks_date z :
  filter_marks (date_filter (str_of_int z)) = (true, false, false).
Proof.
  unfold filter_marks.
  rewrite (date_filter_lacks "i" "ndeedApplyScope" z) by reflexivity.
  rewrite (date_filter_lacks "c" "omposite" z) by reflexivity.
  rewrite date_filter_split, contains_app_l by reflexivity. reflexivity.
Qed.

(** X1: for all criteria the fragment carries the mark of the selected
    filter and of no other: hours-old wins over easy-apply, easy-apply over
    job type and remote, and with nothing set no mark occurs. *)
Theorem build_filters_emits_selected_kind (si : ScraperInput) :
  filter_marks (_build_filters si) = marks_of (selected_filter si).
Proof.
  unfold selected_filter.
  destruct (truthy_int (hours_old si)) eqn:Hh.
  - rewrite (build_filters_date _ Hh).
    destruct (hours_old si) as [h|]; [|discriminate]. apply filter_marks_date.
  - unfold _build_filters. rewrite Hh.
    destruct (easy_apply si); [reflexivity|].
    destruct (job_type si) as [[]|], (is_remote si); reflexivity.
Qed.

(** The fragment is empty exactly when no filter field is set. *)
Lemma build_filters_empty_iff (si : ScraperInput) :
  _build_filters si = EmptyString <-> selected_filter si = None.
Proof.
  unfold selected_filter, _build_filters.
  destruct (truthy_int (hours_old si)).
  { rewrite date_filter_split. split; discriminate. }
  destruct (easy_apply si); [split; discriminate|].
  destruct (job_type si) as [[]|], (is_remote si); cbn; split; try discriminate; reflexivity.
Qed.

#[global] Instance JobType_eq_dec : EqDecision JobType.
Proof. solve_decision. Defined.

(** X2: in the composite filter the key list holds the code of the job
    type exactly when that job type is asked for, and the remote code
    exactly when remote is asked for. *)
Theorem composite_filter_keys (si : ScraperInput) (t : JobType) :
  truthy_int (hours_old si) = false ->
  easy_apply si = false ->
  contains (job_type_key_mapping t) (_build_filters si) =
    bool_decide (job_type si = Some t) /\
  contains "DSQF7" (_build_filters si) = is_remote si.
Proof.
  intros Hh He. unfold _build_filters. rewrite Hh, He.
  destruct (job_type si) as [[]|], (is_remote si), t; split; reflexivity.
Qed.

Lemma composite_filter_keys_witness :
  contains "CF3CP" (_build_filters (Samples.criteria 2)) = false /\
  contains "DSQF7" (_build_filters (Samples.criteria 2)) = false.
Proof.
  destruct (composite_filter_keys (Samples.criteria 2) FULL_TIME) as [Hk Hr];
    [reflexivity|reflexivity|].
  split; [exact Hk | exact Hr].
Defined.

(** ** Filter builder: brackets and quotes *)

(** Reading a fragment from left to right: whether a string literal is
    open, and the closing brackets awaited outside string literals. The
    result is [None] when a closing bracket comes that is not awaited. *)
Fixpoint brackets (in_string : bool) (awaited : list ascii) (s : string)
    : option (bool * list ascii) :=
  match s with
  | EmptyString => Some (in_string, awaited)
  | String c s' =>
      if Ascii.eqb c (ascii_of_nat 34) then brackets (negb in_string) awaited s'
      else if in_string then brackets true awaited s'
      else if Ascii.eqb c "{" then brackets false ("}"%char :: awaited) s'
      else if Ascii.eqb c "[" then brackets false ("]"%char :: awaited) s'
      else if Ascii.eqb c "}" || Ascii.eqb c "]" then
        match awaited with
        | top :: rest => if Ascii.eqb c top then brackets false rest s' else None
        | [] => None
        end
      else brackets false awaited s'
  end.

Definition well_bracketed (s : string) : bool :=
  match brackets false [] s with
  | Some (false, []) => true
  | _ => false
  end.

Lemma brackets_app x y : forall b awaited,
  brackets b awaited (x +:+ y) =
  match brackets b awaited x with
  | Some (b', awaited') => brackets b' awaited' y
  | None => None
  end.
Proof.
  induction x as [|c x IH]; intros b awaited; [reflexivity|].
  rewrite append_cons. cbn [brackets].
  repeat match goal with
         | |- context [if ?c then _ else _] => destruct c
         | |- context [match ?l with [] => _ | _ :: _ => _ end] => destruct l
         end; auto.
Qed.

Lemma brackets_int digits : forall b awaited,
  all_chars is_int_char digits = true ->
  brackets b awaited digits = Some (b, awaited).
Proof.
  induction digits as [|c digits IH]; intros b awaited Hd; [reflexivity|].
  cbn [all_chars] in Hd. apply andb_true_iff in Hd as [Hc Hd].
  cbn [brackets].
  assert (Hn : forall x, is_int_char x = false -> Ascii.eqb c x = false).
  { intros x Hx. destruct (Ascii.eqb_spec c x) as [->|]; congruence. }
  rewrite (Hn (ascii_of_nat 34)), (Hn "{"%char), (Hn "["%char), (Hn "}"%char),
    (Hn "]"%char) by reflexivity.
  cbn [orb]. destruct b; auto.
Qed.

(** X3: for all criteria the fragment closes every brace and bracket it
    opens, in order, and every string literal it opens. *)
Theorem build_filters_well_bracketed (si : ScraperInput) :
  well_bracketed (_build_filters si) = true.
Proof.
  unfold well_bracketed.
  destruct (truthy_int (hours_old si)) eqn:Hh.
  - rewrite (build_filters_date _ Hh).
    destruct (hours_old si) as [h|]; [|discriminate]. cbn [str_of_opt_int].
    rewrite date_filter_split, brackets_app.
    change (brackets false [] date_filter_head)
      with (Some (true, ["}"%char; "}"%char])).
    cbv beta iota. rewrite brackets_app, brackets_int by apply all_chars_str_of_int.
    reflexivity.
  - unfold _build_filters. rewrite Hh.
    destruct (easy_apply si); [reflexivity|].
    destruct (job_type si) as [[]|], (is_remote si); reflexivity.
Qed.

(** ** Query assembler: the search term *)

(** A backslash before every double quote. *)
Fixpoint quotes_escaped (after_backslash : bool) (s : string) : bool :=
  match s with
  | EmptyString => true
  | String c s' =>
      if Ascii.eqb c (ascii_of_nat 34) then after_backslash && quotes_escaped false s'
      else quotes_escaped (Ascii.eqb c (ascii_of_nat 92)) s'
  end.

(** [term.replace('"', '\\"')], the escaping of [_scrape_page]. *)
Definition escape_quotes (term : string) : string := str_replace term dq (bs +:+ dq).

Lemma escape_quotes_cons c term :
  escape_quotes (String c term) =
  if Ascii.eqb (ascii_of_nat 34) c
  then String (ascii_of_nat 92) (String (ascii_of_nat 34) (escape_quotes term))
  else String c (escape_quotes term).
Proof.
  unfold escape_quotes, str_replace. cbn [replace_from starts_with dq].
  destruct (Ascii.eqb (ascii_of_nat 34) c); reflexivity.
Qed.

Lemma escape_quotes_head term : starts_with dq (escape_quotes term) = false.
Proof.
  destruct term as [|c term]; [reflexivity|].
  rewrite escape_quotes_cons.
  destruct (Ascii.eqb (ascii_of_nat 34) c) eqn:E; [reflexivity|].
  cbn. by rewrite E.
Qed.

(** X4: in the escaped search term every double quote comes right after a
    backslash. *)
Theorem escaped_term_quotes (term : string) (after_backslash : bool) :
  quotes_escaped after_backslash (escape_quotes term) = true.
Proof.
  revert after_backslash. induction term as [|c term IH]; intros b; [reflexivity|].
  rewrite escape_quotes_cons.
  destruct (Ascii.eqb (ascii_of_nat 34) c) eqn:E.
  - cbn. apply IH.
  - cbn [quotes_escaped]. rewrite Ascii.eqb_sym, E. apply IH.
Qed.

(** X5: escaping loses nothing: replacing each backslash-quote pair of the
    escaped term by a quote gives the search term back. *)
Theorem escaped_term_round_trip (term : string) :
  str_replace (escape_quotes term) (bs +:+ dq) dq = term.
Proof.
  unfold str_replace.
  change (bs +:+ dq) with (String (ascii_of_nat 92) (String (ascii_of_nat 34) EmptyString)).
  induction term as [|c term IH]; [reflexivity|].
  rewrite escape_quotes_cons.
  pose proof (escape_quotes_head term) as Hh. unfold dq in Hh.
  destruct (Ascii.eqb (ascii_of_nat 34) c) eqn:E.
  - apply Ascii.eqb_eq in E. subst c. cbn. by rewrite IH.
  - cbn [replace_from].
    change (starts_with (String (ascii_of_nat 92) (String (ascii_of_nat 34) EmptyString))
              (String c (escape_quotes term)))
      with (Ascii.eqb (ascii_of_nat 92) c &&
            starts_with (String (ascii_of_nat 34) EmptyString) (escape_quotes term)).
    rewrite Hh, andb_false_r. by rewrite IH.
Qed.

(** The search term reaches the query template through [escape_quotes]. *)
Lemma build_query_what `{Env} si cursor term :
  search_term si = Some term -> term <> EmptyString ->
  exists location hours cursor_clause,
    build_query si cursor =
    job_search_query ("what: " +:+ dq +:+ escape_quotes term +:+ dq)
      location hours cursor_clause (_build_filters si).
Proof.
  intros Ht Hne. unfold build_query. rewrite Ht. cbn [truthy_str str_of_opt_str].
  fold (escape_quotes term).
  destruct (String.eqb_spec term EmptyString) as [|_]; [contradiction|]. cbn [negb].
  destruct term as [|c term]; [contradiction|].
  rewrite escape_quotes_cons.
  destruct (Ascii.eqb (ascii_of_nat 34) c); cbn [String.eqb negb]; eauto.
Qed.

(** ** Page retriever: the headers of the API call *)

(** [d.get(k)] for a dict of headers. *)
Fixpoint header (k : string) (d : list (string * string)) : option string :=
  match d with
  | [] => None
  | (k', v) :: d' => if String.eqb k k' then Some v else header k d'
  end.

Lemma header_dict_set k v d k' :
  header k' (dict_set k v d) = if String.eqb k' k then Some v else header k' d.
Proof.
  induction d as [|[k0 v0] d IH]; cbn [dict_set header].
  - destruct (String.eqb k' k); reflexivity.
  - destruct (String.eqb_spec k k0) as [->|Hne]; cbn [header].
    + destruct (String.eqb k' k0); reflexivity.
    + rewrite IH. destruct (String.eqb_spec k' k0) as [->|]; [|reflexivity].
      destruct (String.eqb_spec k0 k) as [->|]; [contradiction|reflexivity].
Qed.

Lemma length_dict_set k v d :
  length (dict_set k v d) = if is_some (header k d) then length d else S (length d).
Proof.
  induction d as [|[k0 v0] d IH]; cbn [dict_set header]; [reflexivity|].
  destruct (String.eqb k k0); cbn [length is_some]; [reflexivity|].
  rewrite IH. destruct (header k d); reflexivity.
Qed.

(** X6: the API call carries the country code of the session in its
    [indeed-co] header, whatever [api_headers] holds under that name, and
    every other header of [api_headers] as it is; [api_headers] itself is
    a copy and gains at most this one entry. *)
Theorem api_request_headers `{Env} (self : Indeed) (si : ScraperInput) (cursor : pyval)
    (name : string) :
  header name (req_headers (api_request self si cursor)) =
    (if String.eqb name "indeed-co"
     then Some (str_of_opt_str (api_country_code self))
     else header name api_headers) /\
  length (req_headers (api_request self si cursor)) =
    (if is_some (header "indeed-co" api_headers)
     then length api_headers
     else S (length api_headers)) /\
  api_country_code (set_session si self) = Some (snd (country si)).
Proof.
  cbn [api_request req_headers]. split; [apply header_dict_set|].
  split; [apply length_dict_set|reflexivity].
Qed.

(** ** Company-name fallback: the JSON-LD blocks and the log *)

Section Fallback.

Context `{Env}.

(** [json.loads(match).get("hiringOrganization", {}).get("name")] *)
Definition block_name (block : string) : res pyval :=
  rbind (json_loads block) (fun data =>
  rbind (get_default data "hiringOrganization" (PDict [])) (fun org =>
  get org "name")).

(** A block the loop passes over: it does not parse, it is not a dict (or
    its organization is not), or it names no organization. *)
Definition passed_over (block : string) : Prop :=
  block_name block = Raise JSONDecodeError \/
  block_name block = Raise AttributeError \/
  exists name, block_name block = Ok name /\ truthy name = false.

Lemma first_organization_name_cons block rest :
  first_organization_name (block :: rest) =
  match block_name block with
  | Ok name => if truthy name then Ok (Some name) else first_organization_name rest
  | Raise JSONDecodeError | Raise AttributeError => first_organization_name rest
  | Raise e => Raise e
  end.
Proof. reflexivity. Qed.

Lemma first_organization_name_passed before rest :
  Forall passed_over before ->
  first_organization_name (before ++ rest) = first_organization_name rest.
Proof.
  induction 1 as [|block before Hb _ IH]; [reflexivity|].
  cbn [app]. rewrite first_organization_name_cons.
  destruct Hb as [-> | [-> | (name & -> & ->)]]; exact IH.
Qed.

(** The number of warnings among log records. *)
Definition warnings (l : list log_record) : nat :=
  length (List.filter (fun r => match r with Warning _ => true | Info _ => false end) l).

Definition is_none (v : pyval) : bool :=
  match v with PNone => true | _ => false end.

(** X7: when the page is fetched, the company name is the name of the first
    JSON-LD block, in the order of the page, that parses to a dict naming an
    organization; blocks before it that do not parse, are not dicts or name
    nothing are passed over, and blocks after it are not read. Nothing is
    logged and one request is sent. *)
Theorem fetch_company_name_first_block (url : string) (self : Indeed) (w : World)
    (page : response) (before : list string) (block : string) (after : list string)
    (name : pyval) :
  net (sent w) (tls_request url) = Ok page ->
  ok page = true ->
  findall_ld_json (text page) = (before ++ block :: after)%list ->
  Forall passed_over before ->
  block_name block = Ok name ->
  truthy name = true ->
  _fetch_company_name url (self, w) =
  (Ok name, (self, {| sent := app (sent w) [tls_request url]; logged := logged w |})).
Proof.
  intros Hnet Hok Hblocks Hbefore Hname Htruthy.
  unfold _fetch_company_name, try_except, bind, get_self, send, ret, lift.
  cbn [fst snd sent logged]. rewrite Hnet. cbn [fst snd sent logged].
  rewrite Hok. cbn [negb andb fst snd sent logged]. rewrite Hok. cbn [negb].
  rewrite Hblocks, (first_organization_name_passed _ _ Hbefore),
    first_organization_name_cons, Hname, Htruthy.
  reflexivity.
Qed.

(** X8: the lookup returns [None] exactly when it logs a warning, and then
    it logs one: a refused page, a page without a usable organization name
    and an exception each leave one warning; a name leaves none. *)
Theorem fetch_company_name_warns_iff_none (url : string) (self : Indeed) (w : World) :
  exists name w' new,
    _fetch_company_name url (self, w) = (Ok name, (self, w')) /\
    logged w' = app (logged w) new /\
    warnings new = (if is_none name then 1 else 0)%nat.
Proof.
  pose proof first_organization_name_some as Hname.
  unfold _fetch_company_name, try_except, bind, get_self, send,
    log_info, log_warning, ret, lift.
  cbn [fst snd sent logged].
  destruct (net (sent w) (tls_request url)) as [first|e]; cbn [fst snd sent logged];
    [destruct (ok first) eqn:Eok1; cbn [negb andb fst snd sent logged];
     [|destruct (_fallback_proxies self) as [p|]; cbn [is_some fst snd sent logged];
       [destruct (net (app (sent w) [tls_request url]) (proxy_request self url))
          as [second|e]; cbn [fst snd sent logged];
        [destruct (ok second) eqn:Eok2; cbn [negb fst snd sent logged]|]|]]|];
    rewrite ?Eok1, ?Eok2; cbn [negb fst snd sent logged];
    try (destruct (first_organization_name _) as [[name|]|e'] eqn:E);
    cbn [fst snd sent logged];
    eexists _, _, _; (split; [reflexivity|]); cbn [sent logged];
    rewrite <- ?app_assoc;
    (split; [first [reflexivity | symmetry; apply app_nil_r]|]);
    try reflexivity.
  all: apply Hname in E; destruct name; try discriminate; reflexivity.
Qed.

End Fallback.

(** A page with two JSON-LD blocks, of which the first does not parse. *)
Module MoreSamples.

Definition two_blocks : Env :=
  {| net := fun _ _ => Ok (Samples.html_response "acme");
     api_headers := [("content-type", "application/json"); ("indeed-co", "XX")];
     job_search_query := fun what location hours cursor filters => what +:+ filters;
     markdown_converter := fun v => Ok v;
     get_job_type := fun _ => Ok PNone;
     get_compensation := fun _ => Ok PNone;
     is_job_remote := fun _ _ => Ok (PBool false);
     extract_emails_from_text := fun _ => Ok PNone;
     str_title := fun s => s;
     str_strip := fun s => s;
     py_repr := fun _ => "<object>";
     findall_ld_json := fun t => ["{broken"; t; "never read"];
     json_loads := fun t =>
       if String.eqb t "acme"
       then Ok (PDict [("hiringOrganization", PDict [("name", PStr "Acme")])])
       else Raise JSONDecodeError;
     utc_offset := fun _ => 0;
     pads_year := false;
     validate_location := fun _ => Ok tt;
     validate_post := fun _ => Ok tt;
     html_session_timeout := 30%positive |}.

End MoreSamples.

Lemma fetch_company_name_first_block_witness :
  @_fetch_company_name MoreSamples.two_blocks "u" Samples.fresh =
  (Ok (PStr "Acme"),
   (fst Samples.fresh, {| sent := [tls_request "u"]; logged := [] |})).
Proof.
  apply (@fetch_company_name_first_block MoreSamples.two_blocks "u" (fst Samples.fresh)
           (snd Samples.fresh) (Samples.html_response "acme")
           ["{broken"] "acme" ["never read"] (PStr "Acme")); try reflexivity.
  constructor; [left; reflexivity | constructor].
Defined.

(** ** Which requests the methods send *)

(** One pure step of a method body, by cases on its outcome. *)
Ltac wp_case :=
  match goal with
  | |- wp (bind (lift ?r) _) _ _ =>
      let E := fresh "E" in
      apply wp_bind_lift; destruct r eqn:E
  end.

Section Traces.

Context `{Env}.

(** The company name the API gives:
    [job["employer"].get("name") if job.get("employer") else None]. *)
Definition api_company_name (job : pyval) : res pyval :=
  rbind (getitem job "employer") (fun e => if truthy e then get e "name" else Ok PNone).

(** A request of the company-name lookup of a scraper: through the
    browser-fingerprint session, or through the proxy the scraper has. *)
Definition lookup_request (self : Indeed) (r : request) : Prop :=
  exists url,
    r = tls_request url \/
    (r = proxy_request self url /\ is_some (_fallback_proxies self) = true).

(** A request of the page retriever. *)
Definition page_request (self : Indeed) (r : request) : Prop :=
  exists si cursor, scraper_input self = Some si /\ r = api_request self si cursor.

Definition is_api (r : request) : bool :=
  match req_channel r with Session => true | _ => false end.

(** The number of API calls among requests. *)
Definition api_calls (l : list request) : nat := length (List.filter is_api l).

(** What a method that only looks up company names does to the world. *)
Definition sends_lookups (s s' : state) : Prop :=
  extends s s' /\
  exists new, sent (snd s') = app (sent (snd s)) new /\ Forall (lookup_request (fst s)) new.

Lemma Forall_fallback_requests self w url :
  Forall (lookup_request self) (fallback_requests self w url).
Proof.
  unfold fallback_requests. constructor; [exists url; by left|].
  destruct (net (sent w) (tls_request url)) as [r|e]; [|constructor].
  destruct (negb (ok r)); cbn [andb]; [|constructor].
  destruct (is_some (_fallback_proxies self)) eqn:Hp; constructor; [|constructor].
  exists url. right. by split.
Qed.

Lemma lookup_request_extends s s' r :
  extends s s' -> lookup_request (fst s') r -> lookup_request (fst s) r.
Proof. intros [_ E _ _]. rewrite E. intros Hr. exact Hr. Qed.

Lemma page_request_extends s s' r :
  extends s s' -> page_request (fst s') r -> page_request (fst s) r.
Proof. intros [_ E _ _]. rewrite E. intros Hr. exact Hr. Qed.

Lemma sends_lookups_refl s : sends_lookups s s.
Proof.
  split; [apply extends_refl|]. exists []. by rewrite app_nil_r.
Qed.

Lemma sends_lookups_trans s1 s2 s3 :
  sends_lookups s1 s2 -> sends_lookups s2 s3 -> sends_lookups s1 s3.
Proof.
  intros [E1 (n1 & S1 & F1)] [E2 (n2 & S2 & F2)].
  split; [eapply extends_trans; eassumption|].
  exists (app n1 n2). rewrite S2, S1, <- app_assoc. split; [reflexivity|].
  apply Forall_app. split; [exact F1|].
  eapply Forall_impl; [exact F2|]. intros r. apply lookup_request_extends, E1.
Qed.

Lemma api_calls_app l1 l2 : api_calls (l1 ++ l2) = (api_calls l1 + api_calls l2)%nat.
Proof. unfold api_calls. by rewrite List.filter_app, length_app. Qed.

Lemma api_calls_lookups self l : Forall (lookup_request self) l -> api_calls l = 0%nat.
Proof.
  induction 1 as [|r l Hr _ IH]; [reflexivity|].
  unfold api_calls in *. cbn [List.filter].
  destruct Hr as (url & [-> | [-> _]]); exact IH.
Qed.

Lemma api_company_name_intro job e e' name :
  getitem job "employer" = Ok e ->
  get job "employer" = Ok e' ->
  (if truthy e' then get e "name" else Ok PNone) = Ok name ->
  api_company_name job = Ok name.
Proof.
  intros He He' Hn. rewrite (getitem_get _ _ _ He) in He'. injection He' as <-.
  unfold api_company_name. rewrite He. exact Hn.
Qed.

(** The lookup, with what it returns. *)
Lemma wp_fetch_company_name_full url s (Q : res pyval -> state -> Prop) :
  (forall name w',
     sent w' = app (sent (snd s)) (fallback_requests (fst s) (snd s) url) ->
     extends s (fst s, w') ->
     (name = PNone \/ truthy name = true) ->
     Q (Ok name) (fst s, w')) ->
  wp (_fetch_company_name url) s Q.
Proof.
  destruct s as [self w]. intros HQ.
  destruct (fetch_company_name_spec url self w) as (name & w' & E & Hs & Hl & _ & Ht).
  unfold wp. rewrite E. cbn [fst snd] in *. apply HQ; auto.
  - split; cbn [fst snd].
    + reflexivity.
    + symmetry. apply set_seen_urls_same.
    + eexists. split; [exact Hs|]. apply forallb_fallback_requests.
    + exact Hl.
  - destruct name; auto; right; apply Ht; discriminate.
Qed.

(** What [build_post] sends and what it puts in the posting: the lookup
    runs exactly when the API gave no company name. *)
Lemma wp_build_post_trace job url s :
  wp (build_post job url) s (fun r s' =>
    (s' = s \/
     exists w', s' = (fst s, w') /\ extends s s' /\
                sent w' = app (sent (snd s)) (fallback_requests (fst s) (snd s) url)) /\
    forall post, r = Ok post ->
      exists key name,
        getitem job "key" = Ok key /\
        post_id post = "in-" +:+ py_str key /\
        job_url post = url /\
        api_company_name job = Ok name /\
        if truthy name
        then s' = s /\ company_name post = name
        else sent (snd s') = app (sent (snd s)) (fallback_requests (fst s) (snd s) url) /\
             (company_name post = PNone \/ truthy (company_name post) = true)).
Proof.
  unfold build_post.
  apply wp_bind_self.
  repeat (wp_case; [|split; [by left|discriminate]]).
  apply wp_bind_intro.
  match goal with |- wp (if ?b then _ else _) _ _ => destruct b eqn:Hn end.
  - apply wp_ret_intro.
    repeat (wp_case; [|split; [by left|discriminate]]).
    apply wp_ret_intro. split; [by left|].
    intros post [= <-]. eexists _, _.
    split; [reflexivity|]. cbn [post_id job_url company_name].
    split; [reflexivity|]. split; [reflexivity|].
    split; [eapply api_company_name_intro; eassumption|].
    rewrite Hn. by split.
  - apply wp_fetch_company_name_full. intros name w' Hsent Hext Hname.
    repeat (wp_case; [|split; [right; eauto|discriminate]]).
    apply wp_ret_intro. split; [right; eauto|].
    intros post [= <-]. eexists _, _.
    split; [reflexivity|]. cbn [post_id job_url company_name fst snd].
    split; [reflexivity|]. split; [reflexivity|].
    split; [eapply api_company_name_intro; eassumption|].
    rewrite Hn. by split.
Qed.

(** The same for [_process_job] on a record whose URL is new. *)
Lemma process_job_fresh_trace job s url :
  canonical_url (fst s) job = Ok url -> url ∉ seen_urls (fst s) ->
  exists r s',
    _process_job job s = (r, s') /\
    (snd s' = snd s \/
     sent (snd s') = app (sent (snd s)) (fallback_requests (fst s) (snd s) url)) /\
    forall post, r = Ok (Some post) ->
      exists key name,
        getitem job "key" = Ok key /\
        post_id post = "in-" +:+ py_str key /\
        job_url post = url /\
        api_company_name job = Ok name /\
        if truthy name
        then snd s' = snd s /\ company_name post = name
        else sent (snd s') = app (sent (snd s)) (fallback_requests (fst s) (snd s) url) /\
             (company_name post = PNone \/ truthy (company_name post) = true).
Proof.
  unfold canonical_url, _process_job, bind at 1 2, get_self, lift. cbn [fst snd].
  destruct (getitem job "key") as [key|] eqn:Hkey; cbn [rbind]; [|discriminate].
  intros [= Hurl] Hnew. rewrite Hurl.
  rewrite bool_decide_eq_false_2 by exact Hnew.
  unfold bind, add_seen. cbn [fst snd].
  set (s1 := (set_seen_urls ({[ url ]} ∪ seen_urls (fst s)) (fst s), snd s)).
  pose proof (wp_build_post_trace job url s1) as Hb. unfold wp in Hb.
  destruct (build_post job url s1) as [[post|e] s2]; cbn [fst snd] in Hb;
    destruct Hb as (Hsent & Hpost);
    eexists _, _; (split; [reflexivity|]); cbn [fst snd].
  - split.
    + destruct Hsent as [-> | (w' & -> & _ & Hs)]; [by left|right; exact Hs].
    + intros p [= <-]. destruct (Hpost post eq_refl) as (k & n & Hk & Hid & Hu & Hn & Hc).
      exists k, n. split; [congruence|]. do 3 (split; [assumption|]).
      destruct (truthy n); [|exact Hc]. destruct Hc as [-> Hc]. by split.
  - split; [|discriminate].
    destruct Hsent as [-> | (w' & -> & _ & Hs)]; [by left|right; exact Hs].
Qed.

(** X9: [_process_job] returns [None] only for a record whose URL is
    already in [seen_urls], and then it changes nothing: neither the set,
    nor the requests sent, nor the log. A record whose key cannot be read
    raises and changes nothing either. *)
Theorem process_job_none_means_seen (job : pyval) (s : state) :
  (forall s',
     _process_job job s = (Ok None, s') ->
     s' = s /\
     exists url, canonical_url (fst s) job = Ok url /\ url ∈ seen_urls (fst s)) /\
  (forall e,
     getitem job "key" = Raise e -> _process_job job s = (Raise e, s)).
Proof.
  split.
  - intros s' Hrun.
    destruct (canonical_url (fst s) job) as [url|e] eqn:Hurl.
    2:{ rewrite (process_job_no_key _ _ _ Hurl) in Hrun. discriminate. }
    destruct (decide (url ∈ seen_urls (fst s))) as [Hin|Hnew].
    + rewrite (process_job_seen _ _ _ Hurl Hin) in Hrun. injection Hrun as <-. eauto.
    + destruct (process_job_fresh _ _ _ Hurl Hnew) as (r & s1 & E & _ & _ & Hr & _).
      rewrite E in Hrun. injection Hrun as -> _. contradiction.
  - intros e He. apply process_job_no_key. unfold canonical_url. by rewrite He.
Qed.

(** X10: a posting names its record twice, consistently: the identifier is
    [in-] followed by the key and the job URL is the view-job address of
    the same key on the base URL of the session. *)
Theorem posting_id_and_url_share_key (job : pyval) (s : state) (post : JobPost)
    (s' : state) :
  _process_job job s = (Ok (Some post), s') ->
  exists key,
    getitem job "key" = Ok key /\
    post_id post = "in-" +:+ py_str key /\
    job_url post = str_of_opt_str (base_url (fst s)) +:+ "/viewjob?jk=" +:+ py_str key.
Proof.
  intros Hrun.
  destruct (canonical_url (fst s) job) as [url|e] eqn:Hurl.
  2:{ rewrite (process_job_no_key _ _ _ Hurl) in Hrun. discriminate. }
  destruct (decide (url ∈ seen_urls (fst s))) as [Hin|Hnew].
  { rewrite (process_job_seen _ _ _ Hurl Hin) in Hrun. discriminate. }
  destruct (process_job_fresh_trace _ _ _ Hurl Hnew) as (r & s1 & E & _ & Hp).
  rewrite E in Hrun. injection Hrun as -> ->.
  destruct (Hp post eq_refl) as (key & _ & Hk & Hid & Hu & _).
  exists key. split; [exact Hk|]. split; [exact Hid|].
  rewrite Hu. unfold canonical_url in Hurl. rewrite Hk in Hurl. by injection Hurl as <-.
Qed.

(** X11: the company name of a posting is the name the API gives when that
    name is truthy, and then normalizing the record sends no request and
    logs nothing; otherwise the requests of one fallback lookup for the job
    URL are sent, and the name is what the lookup found, [None] or a truthy
    value. *)
Theorem company_name_source (job : pyval) (s : state) (post : JobPost) (s' : state) :
  _process_job job s = (Ok (Some post), s') ->
  exists name,
    api_company_name job = Ok name /\
    if truthy name
    then company_name post = name /\ snd s' = snd s
    else sent (snd s') =
           app (sent (snd s)) (fallback_requests (fst s) (snd s) (job_url post)) /\
         (company_name post = PNone \/ truthy (company_name post) = true).
Proof.
  intros Hrun.
  destruct (canonical_url (fst s) job) as [url|e] eqn:Hurl.
  2:{ rewrite (process_job_no_key _ _ _ Hurl) in Hrun. discriminate. }
  destruct (decide (url ∈ seen_urls (fst s))) as [Hin|Hnew].
  { rewrite (process_job_seen _ _ _ Hurl Hin) in Hrun. discriminate. }
  destruct (process_job_fresh_trace _ _ _ Hurl Hnew) as (r & s1 & E & _ & Hp).
  rewrite E in Hrun. injection Hrun as -> ->.
  destruct (Hp post eq_refl) as (key & name & _ & _ & Hu & Hn & Hc).
  exists name. split; [exact Hn|]. rewrite Hu.
  destruct (truthy name); [|exact Hc]. destruct Hc. by split.
Qed.

Lemma process_job_sends job s : sends_lookups s (snd (_process_job job s)).
Proof.
  destruct (canonical_url (fst s) job) as [url|e] eqn:Hurl.
  2:{ rewrite (process_job_no_key _ _ _ Hurl). apply sends_lookups_refl. }
  destruct (decide (url ∈ seen_urls (fst s))) as [Hin|Hnew].
  { rewrite (process_job_seen _ _ _ Hurl Hin). apply sends_lookups_refl. }
  destruct (process_job_fresh _ _ _ Hurl Hnew) as (r & s1 & E & _ & Hext & _).
  destruct (process_job_fresh_trace _ _ _ Hurl Hnew) as (r' & s1' & E' & Hsent & _).
  rewrite E in E'. injection E' as <- <-. rewrite E. cbn [snd].
  split; [exact Hext|].
  destruct Hsent as [Hs | Hs].
  - exists []. rewrite Hs, app_nil_r. by split.
  - eexists. split; [exact Hs|]. apply Forall_fallback_requests.
Qed.

Lemma wp_process_jobs_sends items : forall s,
  wp (process_jobs items) s (fun _ s' => sends_lookups s s').
Proof.
  induction items as [|item rest IH]; intros s; cbn [process_jobs].
  { apply wp_ret_intro, sends_lookups_refl. }
  wp_case; [|apply sends_lookups_refl].
  apply wp_bind_intro. unfold wp at 1.
  pose proof (process_job_sends a s) as Hjob.
  destruct (_process_job a s) as [[p|e] s1]; cbn [fst snd] in *; [|exact Hjob].
  apply wp_bind_intro. eapply wp_mono; [|apply IH].
  intros [jl|e] s2 Hs2.
  - apply wp_ret_intro. eapply sends_lookups_trans; eassumption.
  - eapply sends_lookups_trans; eassumption.
Qed.

(** One page: nothing is sent without a session; with one, the API call
    comes first and only company-name lookups follow. *)
Lemma wp_scrape_page_sends cursor s :
  wp (_scrape_page cursor) s (fun _ s' =>
    match scraper_input (fst s) with
    | None => s' = s
    | Some si =>
        exists new,
          sent (snd s') = app (sent (snd s)) (api_request (fst s) si cursor :: new) /\
          Forall (lookup_request (fst s)) new
    end).
Proof.
  unfold _scrape_page. apply wp_bind_self.
  destruct (scraper_input (fst s)) as [si|]; apply wp_bind_lift; [|reflexivity].
  apply wp_bind_intro, wp_send.
  set (s1 := (fst s, {| sent := app (sent (snd s)) [api_request (fst s) si cursor];
                        logged := logged (snd s) |})).
  assert (Hdone : exists new,
             sent (snd s1) = app (sent (snd s)) (api_request (fst s) si cursor :: new) /\
             Forall (lookup_request (fst s)) new).
  { exists []. by split. }
  destruct (net (sent (snd s)) (api_request (fst s) si cursor)) as [response|e];
    [|exact Hdone].
  destruct (ok response); cbn [negb].
  - wp_case; [|exact Hdone]. wp_case; [|exact Hdone].
    apply wp_bind_intro. eapply wp_mono; [|apply wp_process_jobs_sends].
    assert (Hmore : forall s2, sends_lookups s1 s2 ->
               exists new,
                 sent (snd s2) = app (sent (snd s)) (api_request (fst s) si cursor :: new) /\
                 Forall (lookup_request (fst s)) new).
    { intros s2 [_ (new & Hs & Hf)]. exists new. split; [|exact Hf].
      rewrite Hs. cbn [s1 snd sent]. by rewrite <- app_assoc. }
    intros [jl|e] s2 Hs2; [apply wp_ret_intro|]; by apply Hmore.
  - apply wp_bind_intro, wp_log_info, wp_ret_intro. exact Hdone.
Qed.

(** A request of the scraper: a lookup or an API call. *)
Definition scraper_request (self : Indeed) (r : request) : Prop :=
  lookup_request self r \/ page_request self r.

Lemma scraper_request_extends s s' r :
  extends s s' -> scraper_request (fst s') r -> scraper_request (fst s) r.
Proof.
  intros Hext [Hr|Hr]; [left|right].
  - eapply lookup_request_extends; eassumption.
  - eapply page_request_extends; eassumption.
Qed.

Lemma api_calls_page_requests self si cursor new :
  Forall (lookup_request self) new ->
  api_calls (api_request self si cursor :: new) = 1%nat.
Proof.
  intros Hnew. change (api_request self si cursor :: new)
    with (app [api_request self si cursor] new).
  by rewrite api_calls_app, (api_calls_lookups _ _ Hnew).
Qed.

Lemma wants_more_missing si s : wants_more si s = true -> (1 <= missing si s)%nat.
Proof. unfold wants_more, missing. intros Hg%Z.ltb_lt. lia. Qed.

(** The loop: it sends only requests of the scraper, among them at most as
    many API calls as URLs are missing; and when it ends by itself the
    URLs that arrived are in [seen_urls]. *)
Lemma wp_scrape_loop_trace fuel : forall si acc page cursor s,
  wp (scrape_loop fuel si acc page cursor) s (fun r s' =>
    (exists new,
       sent (snd s') = app (sent (snd s)) new /\
       Forall (scraper_request (fst s)) new /\
       (api_calls new <= missing si s)%nat) /\
    forall out, r = Ok (Some out) ->
      seen_urls (fst s') =
      list_to_set (arrivals fuel si page cursor s) ∪ seen_urls (fst s)).
Proof.
  induction fuel as [|fuel IH]; intros si acc page cursor s.
  { apply wp_ret_intro. split; [|discriminate].
    exists []. rewrite app_nil_r. split; [reflexivity|]. split; [constructor|cbn; lia]. }
  unfold wp. rewrite scrape_loop_step. cbn [arrivals].
  destruct (wants_more si s) eqn:Hguard; cbn [fst snd].
  2:{ split; [|intros _ _; set_solver].
      exists []. rewrite app_nil_r. split; [reflexivity|]. split; [constructor|cbn; lia]. }
  apply wants_more_missing in Hguard as Hmiss.
  destruct (page_total si (fst s)) as [total|e] eqn:Htotal; cbn [fst snd].
  2:{ split; [|discriminate].
      exists []. rewrite app_nil_r. split; [reflexivity|]. split; [constructor|cbn; lia]. }
  pose proof (extends_logged [Info (MsgSearchPage page total)] s) as Hask.
  fold (asking page total s) in Hask.
  destruct (_scrape_page cursor (asking page total s)) as [r1 s1] eqn:Epage.
  pose proof (wp_run _ _ _ _ _ Epage (wp_scrape_page cursor (asking page total s)))
    as [Hext1 Hpage].
  pose proof (wp_run _ _ _ _ _ Epage (wp_scrape_page_sends cursor (asking page total s)))
    as Hsends.
  change (fst (asking page total s)) with (fst s) in Hsends, Hpage.
  change (sent (snd (asking page total s))) with (sent (snd s)) in Hsends.
  assert (Hnew1 : exists new,
             sent (snd s1) = app (sent (snd s)) new /\
             Forall (scraper_request (fst s)) new /\ (api_calls new <= 1)%nat).
  { destruct (scraper_input (fst s)) as [si'|] eqn:Hsi.
    - destruct Hsends as (new & Hs & Hf). eexists. split; [exact Hs|]. split.
      + constructor; [right; by exists si', cursor|].
        eapply Forall_impl; [exact Hf|]. intros r Hr. by left.
      + by rewrite (api_calls_page_requests _ _ _ _ Hf).
    - subst s1. exists []. rewrite app_nil_r. split; [reflexivity|].
      split; [constructor|cbn; lia]. }
  destruct Hnew1 as (new1 & Hs1 & Hf1 & Hc1).
  destruct r1 as [[[|post jl] c]|e]; cbn [fst snd].
  - split.
    + exists new1. split; [exact Hs1|]. split; [exact Hf1|lia].
    + intros out _. destruct (Hpage _ eq_refl) as (urls & -> & _ & Hseen). exact Hseen.
  - pose proof (IH si (app acc (post :: jl)) (page + 1) c s1) as Hrest. unfold wp in Hrest.
    destruct Hrest as [(new2 & Hs2 & Hf2 & Hc2) Hout].
    destruct (Hpage _ eq_refl) as (urls & Hurls & Hmap & Hseen). rewrite Hurls.
    cbn [fst] in Hmap.
    assert (Hext : extends s s1) by (eapply extends_trans; eassumption).
    split.
    + exists (app new1 new2). rewrite Hs2, Hs1, <- app_assoc. split; [reflexivity|].
      split.
      * apply Forall_app. split; [exact Hf1|].
        eapply Forall_impl; [exact Hf2|]. intros r. by apply scraper_request_extends.
      * rewrite api_calls_app.
        assert (Hsize : size (seen_urls (fst s1)) =
                        (size (seen_urls (fst s)) + S (length jl))%nat).
        { rewrite Hseen, size_fresh_urls, <- Hmap. cbn. by rewrite length_map. }
        unfold missing in *. lia.
    + intros out Hr. rewrite (Hout out Hr), Hseen, list_to_set_app_L. set_solver.
  - split; [|discriminate].
    exists new1. split; [exact Hs1|]. split; [exact Hf1|lia].
Qed.

(** The attributes of a request, by the client that sends it. *)
Definition request_in_order (self : Indeed) (r : request) : Prop :=
  match req_channel r with
  | Session =>
      req_method r = POST /\ req_url r = api_url self /\
      req_proxies r = None /\ req_verify r = Some VerifyOff
  | HtmlSession =>
      req_method r = GET /\ req_json r = None /\ req_proxies r = None
  | ReqLib =>
      req_method r = GET /\ req_json r = None /\
      req_proxies r = _fallback_proxies self /\
      is_some (_fallback_proxies self) = true /\
      req_verify r = Some (_ca_cert self)
  end.

Lemma scraper_request_in_order self r : scraper_request self r -> request_in_order self r.
Proof.
  intros [(url & [-> | [-> Hp]]) | (si & cursor & _ & ->)]; cbn; auto.
Qed.

Lemma scrape_trace si s :
  exists new,
    sent (snd (snd (scrape si s))) = app (sent (snd s)) new /\
    Forall (scraper_request (set_session si (fst s))) new /\
    (api_calls new <= missing si s)%nat.
Proof.
  rewrite scrape_unfold.
  set (s0 := (set_session si (fst s), snd s)).
  pose proof (wp_scrape_loop_trace (S (Z.to_nat (results_wanted si + offset si)))
                si [] 1 PNone s0) as [Hloop _].
  unfold wp in Hloop.
  by destruct (scrape_loop _ si [] 1 PNone s0) as [[?|?] ?].
Qed.

(** X12: a call of [scrape] makes at most as many API calls as URLs are
    missing when it begins, [results_wanted + offset] less the size of
    [seen_urls]; none when that number is not positive. Every page that
    does not end the loop brings a new URL, so the loop cannot go on
    without end. *)
Theorem scrape_api_calls_bounded (si : ScraperInput) (s : state) :
  exists new,
    sent (snd (snd (scrape si s))) = app (sent (snd s)) new /\
    (api_calls new <=
     Z.to_nat (results_wanted si + offset si - Z.of_nat (size (seen_urls (fst s)))))%nat.
Proof.
  destruct (scrape_trace si s) as (new & Hs & _ & Hc). by exists new.
Qed.

(** X13: during a call of [scrape] every API call is a POST to the API
    endpoint, without proxy and with verification off; every request of
    the browser-fingerprint session is a GET without proxy; and a request
    goes through the proxied client only when the scraper has a fallback
    proxy, as a GET with that proxy and the CA-certificate setting of the
    scraper. *)
Theorem scrape_requests_in_order (si : ScraperInput) (s : state) :
  exists new,
    sent (snd (snd (scrape si s))) = app (sent (snd s)) new /\
    Forall (request_in_order (fst s)) new.
Proof.
  destruct (scrape_trace si s) as (new & Hs & Hf & _). exists new.
  split; [exact Hs|].
  eapply Forall_impl; [exact Hf|]. intros r Hr.
  apply scraper_request_in_order in Hr. exact Hr.
Qed.

Lemma scrape_seen_size si s response s' :
  scrape si s = (Ok (Some response), s') ->
  exists acc : list JobPost,
    jobs response = py_slice (offset si) (offset si + results_wanted si) acc /\
    size (seen_urls (fst s')) = (size (seen_urls (fst s)) + length acc)%nat.
Proof.
  intros Hrun.
  destruct (scrape_result _ _ _ _ Hrun) as (acc & Hloop & Hjobs & Hmap).
  exists acc. split; [exact Hjobs|].
  destruct (wp_run _ _ _ _ _ Hloop (wp_scrape_loop_trace _ _ _ _ _ _)) as [_ Hseen].
  rewrite (Hseen _ eq_refl). cbn [fst set_session seen_urls].
  fold (session_arrivals si s).
  rewrite size_fresh_urls, <- Hmap. by rewrite length_map.
Qed.

(** X14: when [scrape] returns, [seen_urls] has grown by exactly the number
    of postings the call accumulated, of which the result is a slice; so it
    has grown by at least the number of postings returned. *)
Theorem scrape_seen_grows_by_postings (si : ScraperInput) (s : state)
    (response : JobResponse) (s' : state) :
  scrape si s = (Ok (Some response), s') ->
  exists acc : list JobPost,
    jobs response = py_slice (offset si) (offset si + results_wanted si) acc /\
    size (seen_urls (fst s')) = (size (seen_urls (fst s)) + length acc)%nat /\
    (size (seen_urls (fst s)) + length (jobs response) <= size (seen_urls (fst s')))%nat.
Proof.
  intros Hrun. destruct (scrape_seen_size _ _ _ _ Hrun) as (acc & Hjobs & Hsize).
  exists acc. split; [exact Hjobs|]. split; [exact Hsize|].
  rewrite Hsize, Hjobs. unfold py_slice. rewrite length_take, length_drop. lia.
Qed.

(** X15: a new scraper that has seen at least [results_wanted + offset]
    URLs when [scrape] returns gives exactly [results_wanted] postings;
    fewer come back only when the provider ran out of new postings. *)
Theorem scrape_returns_all_wanted (si : ScraperInput) (s : state)
    (response : JobResponse) (s' : state) :
  0 <= results_wanted si ->
  0 <= offset si ->
  seen_urls (fst s) = ∅ ->
  scrape si s = (Ok (Some response), s') ->
  wants_more si s' = false ->
  Z.of_nat (length (jobs response)) = results_wanted si.
Proof.
  intros Hr Ho Hempty Hrun Hfull.
  destruct (scrape_seen_size _ _ _ _ Hrun) as (acc & -> & Hsize).
  rewrite Hempty, size_empty in Hsize.
  unfold wants_more in Hfull. apply Z.ltb_ge in Hfull.
  rewrite py_slice_window, length_take, length_drop by assumption. lia.
Qed.

(** The state in which the first page of a call of [scrape] fails: the
    progress line is logged and the request is sent. *)
Definition first_page_failed (si : ScraperInput) (total : Z) (s : state) : state :=
  (set_session si (fst s),
   {| sent := app (sent (snd s)) [api_request (set_session si (fst s)) si PNone];
      logged := app (logged (snd s)) [Info (MsgSearchPage 1 total)] |}).

Lemma scrape_first_page si s total s1 e :
  wants_more si s = true ->
  page_total si (fst s) = Ok total ->
  _scrape_page PNone (asking 1 total (set_session si (fst s), snd s)) = (Raise e, s1) ->
  scrape si s = (Raise e, s1).
Proof.
  intros Hg Ht Hpage. rewrite scrape_unfold, scrape_loop_step.
  change (wants_more si (set_session si (fst s), snd s)) with (wants_more si s).
  change (page_total si (fst (set_session si (fst s), snd s))) with (page_total si (fst s)).
  by rewrite Hg, Ht, Hpage.
Qed.

(** X16: a fault on the first turn of the loop is a fault of [scrape].
    When the page count of the progress line cannot be computed (the
    quotient is too large for a float, or [jobs_per_page] is zero),
    [scrape] raises before any request is sent. Otherwise, when the first
    API call raises, or when its response is ok but has no result list that
    can be read and iterated, [scrape] raises the same exception after
    that one request; it returns no postings and does not retry. *)
Theorem scrape_raises_on_first_page_fault (si : ScraperInput) (s : state) (e : exn) :
  wants_more si s = true ->
  (page_total si (fst s) = Raise e ->
   scrape si s = (Raise e, (set_session si (fst s), snd s))) /\
  (forall total,
     page_total si (fst s) = Ok total ->
     (net (sent (snd s)) (api_request (set_session si (fst s)) si PNone) = Raise e ->
      scrape si s = (Raise e, first_page_failed si total s)) /\
     (forall response,
        net (sent (snd s)) (api_request (set_session si (fst s)) si PNone) = Ok response ->
        ok response = true ->
        rbind (parse_page response) (fun page => iter (fst page)) = Raise e ->
        scrape si s = (Raise e, first_page_failed si total s))).
Proof.
  intros Hg. split; [|intros total Ht; split].
  - intros Ht. rewrite scrape_unfold, scrape_loop_step.
    change (wants_more si (set_session si (fst s), snd s)) with (wants_more si s).
    change (page_total si (fst (set_session si (fst s), snd s)))
      with (page_total si (fst s)).
    by rewrite Hg, Ht.
  - intros Hnet. apply scrape_first_page with (total := total); [exact Hg|exact Ht|].
    unfold _scrape_page, bind, get_self, lift, send. cbn [fst snd asking set_session
      scraper_input sent logged]. rewrite Hnet. reflexivity.
  - intros response Hnet Hok Hbody.
    apply scrape_first_page with (total := total); [exact Hg|exact Ht|].
    unfold _scrape_page, bind, get_self, lift, send. cbn [fst snd asking set_session
      scraper_input sent logged]. rewrite Hnet. cbn [fst snd]. rewrite Hok. cbn [negb].
    destruct (parse_page response) as [page|e']; cbn [rbind fst snd] in *.
    + rewrite Hbody. reflexivity.
    + injection Hbody as ->. reflexivity.
Qed.

(** The view-job address of some key on a base URL. *)
Definition view_job_url (base url : string) : Prop :=
  exists key, url = base +:+ "/viewjob?jk=" +:+ key.

Lemma canonical_url_view_job self job url :
  canonical_url self job = Ok url -> view_job_url (str_of_opt_str (base_url self)) url.
Proof.
  unfold canonical_url. destruct (getitem job "key") as [key|]; [|discriminate].
  intros [= <-]. by exists (py_str key).
Qed.

Lemma item_urls_view_job self items : forall urls,
  item_urls self items = Ok urls ->
  Forall (view_job_url (str_of_opt_str (base_url self))) urls.
Proof.
  induction items as [|item rest IH]; intros urls; cbn [item_urls].
  { intros [= <-]. constructor. }
  destruct (getitem item "job") as [job|]; cbn [rbind]; [|discriminate].
  destruct (canonical_url self job) as [u|] eqn:Hu; cbn [rbind]; [|discriminate].
  destruct (item_urls self rest) as [us|]; cbn [rbind]; [|discriminate].
  intros [= <-]. constructor; [by eapply canonical_url_view_job|by apply IH].
Qed.

Lemma page_urls_view_job cursor s urls :
  page_urls cursor s = Ok urls ->
  Forall (view_job_url (str_of_opt_str (base_url (fst s)))) urls.
Proof.
  unfold page_urls. destruct (scraper_input (fst s)); [|discriminate].
  destruct (net _ _) as [response|]; cbn [rbind]; [|discriminate].
  destruct (ok response); [|intros [= <-]; constructor].
  destruct (parse_page response) as [page|]; cbn [rbind]; [|discriminate].
  destruct (iter (fst page)) as [items|]; cbn [rbind]; [|discriminate].
  apply item_urls_view_job.
Qed.

Lemma arrivals_view_job fuel : forall si page cursor s,
  Forall (view_job_url (str_of_opt_str (base_url (fst s))))
    (arrivals fuel si page cursor s).
Proof.
  induction fuel as [|fuel IH]; intros si page cursor s; cbn [arrivals]; [constructor|].
  destruct (wants_more si s); [|constructor].
  destruct (page_total si (fst s)) as [total|]; [|constructor].
  assert (Hpage : Forall (view_job_url (str_of_opt_str (base_url (fst s))))
                    match page_urls cursor (asking page total s) with
                    | Ok urls => urls
                    | Raise _ => []
                    end).
  { destruct (page_urls cursor (asking page total s)) as [urls|] eqn:Hu; [|constructor].
    apply (page_urls_view_job _ _ _ Hu). }
  destruct (_scrape_page cursor (asking page total s)) as [[[[|post jl] c]|e] s1] eqn:Epage;
    try exact Hpage.
  apply Forall_app. split; [exact Hpage|].
  pose proof (wp_run _ _ _ _ _ Epage (wp_scrape_page cursor (asking page total s)))
    as [Hext _].
  pose proof (extends_base_url _ _ Hext) as Hbase.
  change (fst (asking page total s)) with (fst s) in Hbase. rewrite <- Hbase. apply IH.
Qed.

(** X17: every posting that [scrape] returns has as its job URL a view-job
    address on the domain of the country of the criteria. *)
Theorem scrape_urls_on_session_domain (si : ScraperInput) (s : state)
    (response : JobResponse) (s' : state) (post : JobPost) :
  scrape si s = (Ok (Some response), s') ->
  post ∈ jobs response ->
  exists key,
    job_url post =
    ("https://" +:+ fst (country si) +:+ ".indeed.com") +:+ "/viewjob?jk=" +:+ key.
Proof.
  intros Hrun Hin.
  destruct (scrape_result _ _ _ _ Hrun) as (acc & _ & Hjobs & Hmap).
  rewrite Hjobs in Hin. apply py_slice_elem in Hin.
  assert (Hu : job_url post ∈ fresh_urls (seen_urls (fst s)) (session_arrivals si s)).
  { rewrite <- Hmap. by apply list_elem_of_fmap_2. }
  apply fresh_urls_elem in Hu as [_ Hu].
  pose proof (arrivals_view_job (S (Z.to_nat (results_wanted si + offset si))) si 1 PNone
                (set_session si (fst s), snd s)) as Hall.
  rewrite Forall_forall in Hall. exact (Hall _ Hu).
Qed.

End Traces.

(** ** The further properties on sample inputs *)

Lemma process_job_none_means_seen_witness :
  let E := Samples.env Samples.blocked in
  let s := Samples.in_session 2 Samples.fresh in
  let s1 := snd (@_process_job E (Samples.full_job "k1") s) in
  snd (@_process_job E (Samples.full_job "k1") s1) = s1 /\
  @_process_job E (PDict []) s = (Raise (KeyError "key"), s).
Proof.
  intros E s s1.
  destruct (@process_job_none_means_seen E (Samples.full_job "k1") s1) as [Hnone _].
  destruct (@process_job_none_means_seen E (PDict []) s) as [_ Hkey].
  split; [|apply Hkey; reflexivity].
  destruct (@_process_job E (Samples.full_job "k1") s1) as [r s2] eqn:Hrun.
  assert (Hr : r = Ok None).
  { apply (f_equal fst) in Hrun. vm_compute in Hrun. congruence. }
  subst r. by destruct (Hnone _ eq_refl) as [-> _].
Defined.

Lemma posting_id_and_url_share_key_witness :
  let E := Samples.env Samples.blocked in
  let s := Samples.in_session 2 Samples.fresh in
  exists post,
    fst (@_process_job E (Samples.full_job "k1") s) = Ok (Some post) /\
    post_id post = "in-" +:+ "k1" /\
    job_url post = "https://www.indeed.com" +:+ "/viewjob?jk=" +:+ "k1".
Proof.
  intros E s.
  destruct (@_process_job E (Samples.full_job "k1") s) as [r s'] eqn:Hrun.
  assert (Hr : exists post, r = Ok (Some post)).
  { apply (f_equal fst) in Hrun. vm_compute in Hrun. subst r. by eexists. }
  destruct Hr as (post & ->).
  destruct (@posting_id_and_url_share_key E _ _ _ _ Hrun) as (key & Hk & Hid & Hu).
  injection Hk as <-. exists post. split; [reflexivity|]. split; [exact Hid | exact Hu].
Defined.

Lemma company_name_source_witness :
  let E := Samples.env Samples.blocked in
  let s := Samples.in_session 2 Samples.fresh in
  let out := @_process_job E (Samples.full_job "k1") s in
  exists post,
    fst out = Ok (Some post) /\
    company_name post = PStr "Acme" /\
    snd (snd out) = snd s.
Proof.
  intros E s out. subst out.
  destruct (@_process_job E (Samples.full_job "k1") s) as [r s'] eqn:Hrun.
  assert (Hr : exists post, r = Ok (Some post)).
  { apply (f_equal fst) in Hrun. vm_compute in Hrun. subst r. by eexists. }
  destruct Hr as (post & ->).
  destruct (@company_name_source E _ _ _ _ Hrun) as (name & Hn & Hc).
  injection Hn as <-. cbn in Hc. exists post. split; [reflexivity|]. exact Hc.
Defined.

Lemma scrape_seen_grows_by_postings_witness :
  let E := Samples.env (Samples.same_page [Samples.full_job "a"; Samples.full_job "b";
                                           Samples.full_job "c"]) in
  let out := @scrape E (Samples.criteria 2) Samples.fresh in
  exists response,
    fst out = Ok (Some response) /\
    (0 + length (jobs response) <= size (seen_urls (fst (snd out))))%nat.
Proof.
  intros E out. subst out.
  destruct (@scrape E (Samples.criteria 2) Samples.fresh) as [r s'] eqn:Hrun.
  assert (Hr : exists response, r = Ok (Some response)).
  { apply (f_equal fst) in Hrun. vm_compute in Hrun. subst r. by eexists. }
  destruct Hr as (response & ->).
  destruct (@scrape_seen_grows_by_postings E _ _ _ _ Hrun) as (acc & _ & _ & Hle).
  exists response. split; [reflexivity|]. exact Hle.
Defined.

Lemma scrape_returns_all_wanted_witness :
  let E := Samples.env (Samples.same_page [Samples.full_job "a"; Samples.full_job "b";
                                           Samples.full_job "c"]) in
  exists response,
    fst (@scrape E (Samples.criteria 2) Samples.fresh) = Ok (Some response) /\
    Z.of_nat (length (jobs response)) = 2.
Proof.
  intros E.
  destruct (@scrape E (Samples.criteria 2) Samples.fresh) as [r s'] eqn:Hrun.
  assert (Hr : exists response, r = Ok (Some response)).
  { apply (f_equal fst) in Hrun. vm_compute in Hrun. subst r. by eexists. }
  destruct Hr as (response & ->).
  exists response. split; [reflexivity|].
  apply (@scrape_returns_all_wanted E (Samples.criteria 2) Samples.fresh response s').
  - cbn. lia.
  - cbn. lia.
  - reflexivity.
  - exact Hrun.
  - apply (f_equal snd) in Hrun. cbn [snd] in Hrun. rewrite <- Hrun.
    vm_compute. reflexivity.
Defined.

Lemma scrape_raises_on_first_page_fault_witness :
  let E := Samples.env Samples.offline in
  fst (@scrape E (Samples.criteria 2) Samples.fresh) = Raise ConnectionError /\
  @scrape E (Samples.criteria (10 ^ 320)) Samples.fresh =
    (Raise OverflowError, (set_session (Samples.criteria (10 ^ 320)) (fst Samples.fresh),
                           snd Samples.fresh)).
Proof.
  intros E. split.
  - destruct (@scrape_raises_on_first_page_fault E (Samples.criteria 2) Samples.fresh
                ConnectionError) as [_ Hpage]; [reflexivity|].
    destruct (Hpage 1) as [Hdown _]; [reflexivity|].
    rewrite Hdown; reflexivity.
  - destruct (@scrape_raises_on_first_page_fault E (Samples.criteria (10 ^ 320))
                Samples.fresh OverflowError) as [Hcount _]; [reflexivity|].
    apply Hcount. vm_compute. reflexivity.
Defined.

Lemma scrape_urls_on_session_domain_witness :
  let E := Samples.env (Samples.same_page [Samples.full_job "a"]) in
  exists response post key,
    fst (@scrape E (Samples.criteria 1) Samples.fresh) = Ok (Some response) /\
    jobs response = [post] /\
    job_url post = ("https://" +:+ "www" +:+ ".indeed.com") +:+ "/viewjob?jk=" +:+ key.
Proof.
  intros E.
  destruct (@scrape E (Samples.criteria 1) Samples.fresh) as [r s'] eqn:Hrun.
  assert (Hr : exists response post, r = Ok (Some response) /\ jobs response = [post]).
  { apply (f_equal fst) in Hrun. vm_compute in Hrun. subst r. eexists _, _.
    split; reflexivity. }
  destruct Hr as (response & post & -> & Hjobs).
  destruct (@scrape_urls_on_session_domain E _ _ _ _ post Hrun) as (key & Hkey).
  - rewrite Hjobs. by left.
  - exists response, post, key. split; [reflexivity|]. split; [exact Hjobs | exact Hkey].
Defined.

